(** * Street-view image classification: the model wrapper and the
      batch-inference script

    A shallow embedding of [src/baseline.py] (class [Model]: [fit],
    [predict], [evaluation]) and of [src/predict.py] (the inference
    script).  PyTorch, albumentations, scipy and the helpers of [utils]
    are outside the two files; they enter as the fields of the class
    [Backend], except for the parts whose behaviour the properties below
    depend on ([argmax], [scipy.stats.mode], the [%] operator), which are
    written out. *)

From Stdlib Require Import String Ascii ZArith QArith Qround Qabs Bool Arith Lia DecimalString List Sorted.
Import ListNotations.
Open Scope string_scope.
Open Scope list_scope.

(** ** Python exceptions and results *)

Inductive exn : Type :=
| InvalidArguments (msg : string)  (* utils.InvalidArguments *)
| TypeError
| AttributeError
| ZeroDivisionError
| RuntimeError
| IndexError.

Inductive result (A : Type) : Type :=
| Ok (a : A)
| Raise (e : exn).
Arguments Ok {A} a.
Arguments Raise {A} e.

Definition is_InvalidArguments {A} (r : result A) : Prop :=
  exists msg, r = Raise (InvalidArguments msg).

Fixpoint mapR {A B} (f : A -> result B) (l : list A) : result (list B) :=
  match l with
  | [] => Ok []
  | x :: t =>
      match f x with
      | Raise e => Raise e
      | Ok y => match mapR f t with
                | Raise e => Raise e
                | Ok ys => Ok (y :: ys)
                end
      end
  end.

(** ** Python built-ins used by the two files *)

(** [str.lower] on the ASCII range.  The strings it is compared with
    ("cross_entropy", "sgd") are ASCII, and no character outside A-Z
    lowers to one of their letters. *)
Definition lower_ascii (c : ascii) : ascii :=
  let n := nat_of_ascii c in
  if (65 <=? n)%nat && (n <=? 90)%nat then ascii_of_nat (n + 32) else c.

Fixpoint lower (s : string) : string :=
  match s with
  | EmptyString => EmptyString
  | String c t => String (lower_ascii c) (lower t)
  end.

(** [range(a, b)] *)
Definition py_range (a b : Z) : list Z :=
  map (fun i => (a + Z.of_nat i)%Z) (seq 0 (Z.to_nat (b - a))).

(** Truth value of an optional int ([None] and [0] are false) and of an
    optional string ([None] and [""] are false). *)
Definition truthy_int (o : option Z) : bool :=
  match o with
  | None => false
  | Some z => negb (z =? 0)%Z
  end.

Definition truthy_str (o : option string) : bool :=
  match o with
  | None => false
  | Some EmptyString => false
  | Some _ => true
  end.

(** ["%d" % z] *)
Definition dec (z : Z) : string := NilZero.string_of_int (Z.to_int z).

(** ** First maximal element of a sequence

    [scan key lt best l] walks [l] from the left and replaces the current
    candidate only by a strictly greater one. *)
Section Scan.
Context {A K : Type} (key : A -> K) (lt : K -> K -> bool).

Fixpoint scan (best : A) (l : list A) : A :=
  match l with
  | [] => best
  | x :: t => if lt (key best) (key x) then scan x t else scan best t
  end.
End Scan.

Definition enumerate {A} (l : list A) : list (nat * A) :=
  combine (seq 0 (List.length l)) l.

(** ** [scipy.stats.mode] (the release of the repository's date, axis 0)

    [scores = np.unique(np.ravel(a))]; then for every score, in
    increasing order, the count of the score in each column replaces the
    column's candidate when it is strictly greater. *)
Fixpoint insert_unique (x : Z) (l : list Z) : list Z :=
  match l with
  | [] => [x]
  | y :: t =>
      if (x <? y)%Z then x :: l
      else if (x =? y)%Z then l
      else y :: insert_unique x t
  end.

Definition np_unique (l : list Z) : list Z := fold_right insert_unique [] l.

Definition count (s : Z) (col : list Z) : nat := List.length (filter (Z.eqb s) col).

Definition mode_step (col : list Z) (st : Z * nat) (score : Z) : Z * nat :=
  let '(oldmostfreq, oldcounts) := st in
  let counts := count score col in
  ((if (oldcounts <? counts)%nat then score else oldmostfreq),
   Nat.max counts oldcounts).

Definition mode_column (scores col : list Z) : Z * nat :=
  fold_left (mode_step col) scores (0%Z, 0%nat).

Definition column (j : nat) (a : list (list Z)) : list Z :=
  map (fun row => nth j row 0%Z) a.

(** The pair (mode, count), each an array of one row. *)
Definition stats_mode (a : list (list Z)) : list (list Z) * list (list nat) :=
  match concat a with
  | [] => ([], [])
  | _ :: _ =>
      let scores := np_unique (concat a) in
      let cols := map (fun j => mode_column scores (column j a))
                      (seq 0 (List.length (hd [] a))) in
      ([map fst cols], [map snd cols])
  end.

(** An entry of [y_pred]: a label, or (from the TTA branch) the row
    [stats.mode(pred_y_list)[0][0]], an array. *)
Inductive label_entry : Type :=
| Lab (z : Z)
| LabArr (a : list Z).

(** [stats.mode(pred_y_list)[0][0]] *)
Definition mode_first_row (pred_y_list : list (list Z)) : result label_entry :=
  match fst (stats_mode pred_y_list) with
  | [] => Raise IndexError
  | row :: _ => Ok (LabArr row)
  end.

(** ** Paths *)

Definition is_sep (c : ascii) : bool :=
  (Ascii.eqb c "/" || Ascii.eqb c "\")%char.

Fixpoint has_sep (s : string) : bool :=
  match s with
  | EmptyString => false
  | String c t => is_sep c || has_sep t
  end.

(** The last component of a path. *)
Fixpoint basename (s : string) : string :=
  match s with
  | EmptyString => EmptyString
  | String c t => if has_sep t then basename t else if is_sep c then t else s
  end.

(** ** The libraries behind the wrapper

    Floating-point numbers and tensors stay abstract ([num]): the
    development uses them only through the operations below.  [forward]
    is [self.model(X)], a row of class scores per sample; its first
    argument is the module's training flag. *)
Class Backend : Type := {
  image : Type;   (* one sample, a tensor *)
  params : Type;  (* the parameter values of the network *)
  grads : Type;   (* what loss.backward() leaves in the parameters *)
  rng : Type;     (* the random state of the augmentation pipeline *)
  num : Type;     (* a Python float or the value of a 0-dim tensor *)
  forward : bool -> params -> list image -> list (list num);
  num_ltb : num -> num -> bool;
  num_add : num -> num -> num;
  num_div : num -> Z -> num;
  num_of_Z : Z -> num;
  format_float : nat -> num -> string;  (* "%.<p>f" % x *)
  cross_entropy : list (list num) -> list Z -> num;  (* torch.nn.CrossEntropyLoss() *)
  backward : (list (list num) -> list Z -> num) ->
             bool -> params -> list image -> list Z -> grads;
  sgd_step : num -> grads -> params -> params;  (* optim.SGD(lr=lr, weight_decay=0.001).step() *)
  trfm : rng -> image -> image * rng;  (* the module-level A.Compose pipeline *)
  calculate_classification_score : list Z -> list label_entry -> string -> num
}.

Section Wrapper.
Context {B : Backend}.

(** A Python number or a 0-dim tensor: [/ 0] raises on the first one
    only. *)
Inductive pyval : Type :=
| PyNum (x : num)
| Tensor (x : num).

Definition val (v : pyval) : num :=
  match v with
  | PyNum x => x
  | Tensor x => x
  end.

Definition py_add (a b : pyval) : pyval :=
  match a, b with
  | PyNum x, PyNum y => PyNum (num_add x y)
  | _, _ => Tensor (num_add (val a) (val b))
  end.

Definition py_div (a : pyval) (d : Z) : result pyval :=
  match a with
  | PyNum x => if (d =? 0)%Z then Raise ZeroDivisionError else Ok (PyNum (num_div x d))
  | Tensor x => Ok (Tensor (num_div x d))
  end.

(** [tensor.argmax()] on one row: the index of the first maximal
    value; an empty row is an error. *)
Definition argmax (row : list num) : result Z :=
  match enumerate row with
  | [] => Raise RuntimeError
  | b :: t => Ok (Z.of_nat (fst (scan snd num_ltb b t)))
  end.

(** [(a == b).sum()] on two label vectors: elementwise on vectors of
    one length; a vector of one element is broadcast against the other
    one; vectors of other lengths do not compare. *)
Definition count_equal (a b : list Z) : result Z :=
  if (List.length a =? List.length b)%nat
  then Ok (Z.of_nat (List.length (filter (fun p => (fst p =? snd p)%Z) (combine a b))))
  else match a, b with
       | [x], _ => Ok (Z.of_nat (count x b))
       | _, [y] => Ok (Z.of_nat (count y a))
       | _, _ => Raise RuntimeError
       end.

(** The [%] operator on the directives the source uses: [%s] with a
    string, [%d] with an int, [%.Nf] (one digit [N]) with a number. *)
Inductive fmt_arg : Type :=
| FStr (s : string)
| FInt (z : Z)
| FNum (x : num).

Definition digit_of (c : ascii) : option nat :=
  let n := nat_of_ascii c in
  if (48 <=? n)%nat && (n <=? 57)%nat then Some (n - 48)%nat else None.

Fixpoint py_format (fmt : string) (args : list fmt_arg) : result string :=
  match fmt with
  | EmptyString =>
      match args with
      | [] => Ok EmptyString
      | _ :: _ => Raise TypeError
      end
  | String "%" (String "%" rest) =>
      match py_format rest args with
      | Ok r => Ok (String "%" r)
      | Raise e => Raise e
      end
  | String "%" (String "s" rest) =>
      match args with
      | FStr s :: args' =>
          match py_format rest args' with
          | Ok r => Ok (s ++ r)%string
          | Raise e => Raise e
          end
      | _ => Raise TypeError
      end
  | String "%" (String "d" rest) =>
      match args with
      | FInt z :: args' =>
          match py_format rest args' with
          | Ok r => Ok (dec z ++ r)%string
          | Raise e => Raise e
          end
      | _ => Raise TypeError
      end
  | String "%" (String "." (String p (String "f" rest))) =>
      match digit_of p, args with
      | Some n, FNum x :: args' =>
          match py_format rest args' with
          | Ok r => Ok (format_float n x ++ r)%string
          | Raise e => Raise e
          end
      | _, _ => Raise TypeError
      end
  | String "%" _ => Raise TypeError
  | String c rest =>
      match py_format rest args with
      | Ok r => Ok (String c r)
      | Raise e => Raise e
      end
  end.

(** *** The state a call runs in *)

Inductive event : Type :=
| EvPrint                                   (* print(...) *)
| EvIter (stream : string)                  (* a for loop over a data stream starts *)
| EvStep                                    (* optimizer.step() *)
| EvSave (path : string) (state : params)   (* torch.save(state_dict, path) *)
| EvPlot (train valid : list pyval).        (* plot_curve(...) *)

Record world : Type := mkWorld {
  w_params : params;     (* self.model's parameter values *)
  w_training : bool;     (* self.model.training *)
  w_rng : rng;
  w_log : list event
}.

Definition M (A : Type) : Type := world -> result A * world.

Definition ret {A} (a : A) : M A := fun w => (Ok a, w).

Definition bind {A C} (m : M A) (k : A -> M C) : M C :=
  fun w =>
    match m w with
    | (Ok a, w') => k a w'
    | (Raise e, w') => (Raise e, w')
    end.

Definition raise {A} (e : exn) : M A := fun w => (Raise e, w).

Definition lift {A} (r : result A) : M A := fun w => (r, w).

Definition emit (ev : event) : M unit :=
  fun w => (Ok tt, mkWorld (w_params w) (w_training w) (w_rng w) (w_log w ++ [ev])).

Definition set_training (b : bool) : M unit :=
  fun w => (Ok tt, mkWorld (w_params w) b (w_rng w) (w_log w)).

Definition call_model (X : list image) : M (list (list num)) :=
  fun w => (Ok (forward (w_training w) (w_params w) X), w).

Definition augment (x : image) : M image :=
  fun w =>
    let '(x', g) := trfm (w_rng w) x in
    (Ok x', mkWorld (w_params w) (w_training w) g (w_log w)).
End Wrapper.

Declare Scope monad_scope.
Delimit Scope monad_scope with monad.
Notation "x <- c1 ;; c2" := (bind c1 (fun x => c2))
  (at level 61, c1 at next level, right associativity) : monad_scope.
Notation "' pat <- c1 ;; c2" := (bind c1 (fun x => match x with pat => c2 end))
  (at level 61, pat pattern, c1 at next level, right associativity) : monad_scope.
Notation "c1 ;; c2" := (bind c1 (fun _ => c2))
  (at level 61, right associativity) : monad_scope.
Open Scope monad_scope.

(** ** class Model *)
Section Model.
Context {B : Backend}.

(** A for loop carrying the variables its body assigns. *)
Fixpoint foldM {A S} (f : S -> A -> M S) (s : S) (l : list A) : M S :=
  match l with
  | [] => ret s
  | x :: t => s' <- f s x ;; foldM f s' t
  end.

(** A data stream: a restartable sequence of batches [(X, y)]; the
    name stands for the object's identity. *)
Record stream : Type := mkStream {
  s_name : string;
  s_batches : list (list image * list Z)
}.

(** [Union[str, nn.Module]] and [Union[str, optim.Optimizer]] *)
Inductive loss_arg : Type :=
| LossStr (s : string)
| LossFn (f : list (list num) -> list Z -> num).

Inductive opt_arg : Type :=
| OptStr (s : string)
| OptObj (step : grads -> params -> params).

(** [if loss_criterion:] *)
Definition truthy_loss (l : option loss_arg) : bool :=
  match l with
  | None => false
  | Some (LossStr s) => truthy_str (Some s)
  | Some (LossFn _) => true
  end.

(** [loss_criterion(scores, y)]: a string is not callable. *)
Definition call_loss (l : loss_arg) (scores : list (list num)) (y : list Z) : M num :=
  match l with
  | LossStr _ => raise TypeError
  | LossFn f => ret (f scores y)
  end.

(** [Model.predict] *)
Definition predict (X : list image) : M (list Z) :=
  set_training false ;;
  scores <- call_model X ;;
  lift (mapR argmax scores).

(** The body of [for single_X in X] in the TTA branch. *)
Definition tta_sample (single_X : image) : M label_entry :=
  trfm_X_1 <- augment single_X ;;
  trfm_X_2 <- augment single_X ;;
  trfm_X_3 <- augment single_X ;;
  trfm_X_4 <- augment single_X ;;
  trfm_X_5 <- augment single_X ;;
  pred_y_1 <- predict [trfm_X_1] ;;
  pred_y_2 <- predict [trfm_X_2] ;;
  pred_y_3 <- predict [trfm_X_3] ;;
  pred_y_4 <- predict [trfm_X_4] ;;
  pred_y_5 <- predict [trfm_X_5] ;;
  let pred_y_list := [pred_y_1; pred_y_2; pred_y_3; pred_y_4; pred_y_5] in
  lift (mode_first_row pred_y_list).

(** [(y_true, y_pred, eval_loss_sum, batch_count)] *)
Definition eval_acc : Type := list Z * list label_entry * pyval * Z.

(** The body of [for X, y in test_iter]. *)
Definition eval_batch (loss_criterion : option loss_arg) (TTA : bool)
           (acc : eval_acc) (b : list image * list Z) : M eval_acc :=
  let '(y_true, y_pred, eval_loss_sum, batch_count) := acc in
  let '(X, y) := b in
  let y_true := y_true ++ y in
  if TTA then
    y_pred <- foldM (fun y_pred single_X =>
                       l <- tta_sample single_X ;; ret (y_pred ++ [l]))
                    y_pred X ;;
    ret (y_true, y_pred, eval_loss_sum, batch_count)
  else
    p <- predict X ;;
    let y_pred := y_pred ++ map Lab p in
    eval_loss_sum <-
      match loss_criterion with
      | Some l =>
          if truthy_loss loss_criterion then
            set_training false ;;
            scores <- call_model X ;;
            v <- call_loss l scores y ;;
            ret (py_add eval_loss_sum (Tensor v))
          else ret eval_loss_sum
      | None => ret eval_loss_sum
      end ;;
    ret (y_true, y_pred, eval_loss_sum, (batch_count + 1)%Z).

(** What [evaluation] returns: [score], or the pair [score, loss]. *)
Inductive eval_result : Type :=
| ScoreOnly (score : num)
| ScoreLoss (score : num) (loss : pyval).

(** [Model.evaluation] *)
Definition evaluation (test_iter : stream) (score : string)
           (loss_criterion : option loss_arg) (TTA : bool) : M eval_result :=
  emit (EvIter (s_name test_iter)) ;;
  ' (y_true, y_pred, eval_loss_sum, batch_count) <-
    foldM (eval_batch loss_criterion TTA)
          ([], [], PyNum (num_of_Z 0), 0%Z) (s_batches test_iter) ;;
  let score := calculate_classification_score y_true y_pred score in
  if truthy_loss loss_criterion then
    mean <- lift (py_div eval_loss_sum batch_count) ;;
    ret (ScoreLoss score mean)
  else ret (ScoreOnly score).

(** [valid_acc, valid_loss = self.evaluation(...)] *)
Definition unpack (r : eval_result) : M (num * pyval) :=
  match r with
  | ScoreOnly _ => raise TypeError
  | ScoreLoss s l => ret (s, l)
  end.

(** The string dispatch at the head of [fit]. *)
Definition resolve_loss (loss_criterion : loss_arg) : loss_arg :=
  match loss_criterion with
  | LossStr s =>
      if String.eqb (lower s) "cross_entropy" then LossFn cross_entropy
      else loss_criterion
  | LossFn _ => loss_criterion
  end.

Definition resolve_optimizer (lr : num) (optimizer : opt_arg) : opt_arg :=
  match optimizer with
  | OptStr s =>
      if String.eqb (lower s) "sgd" then OptObj (sgd_step lr)
      else optimizer
  | OptObj _ => optimizer
  end.

(** [optimizer.zero_grad(); loss.backward(); optimizer.step()]: a
    string has no [zero_grad]. *)
Definition optimizer_update (optimizer : opt_arg) (loss_criterion : loss_arg)
           (X : list image) (y : list Z) : M unit :=
  match optimizer, loss_criterion with
  | OptStr _, _ => raise AttributeError
  | OptObj _, LossStr _ => raise TypeError
  | OptObj step, LossFn f =>
      fun w =>
        let g := backward f (w_training w) (w_params w) X y in
        (Ok tt, mkWorld (step g (w_params w)) (w_training w) (w_rng w)
                        (w_log w ++ [EvStep]))
  end.

(** [(n, batch_count, train_loss_sum, train_acc_sum)] *)
Definition train_acc : Type := Z * Z * pyval * pyval.

(** The body of [for idx, (X, y) in enumerate(train_iter)]. *)
Definition train_batch (loss_criterion : loss_arg) (optimizer : opt_arg)
           (acc : train_acc) (b : list image * list Z) : M train_acc :=
  let '(n, batch_count, train_loss_sum, train_acc_sum) := acc in
  let '(X, y) := b in
  y_pred <- call_model X ;;
  loss <- call_loss loss_criterion y_pred y ;;
  optimizer_update optimizer loss_criterion X y ;;
  let train_loss_sum := py_add train_loss_sum (PyNum loss) in
  labels <- lift (mapR argmax y_pred) ;;
  hits <- lift (count_equal labels y) ;;
  let train_acc_sum := py_add train_acc_sum (Tensor (num_of_Z hits)) in
  ret ((n + Z.of_nat (List.length y))%Z, (batch_count + 1)%Z, train_loss_sum, train_acc_sum).

(** The epochs [fit] runs. *)
Definition epoch_iter (num_epochs : Z) (checkpoint_epochs : option Z) : list Z :=
  match checkpoint_epochs with
  | Some c =>
      if truthy_int checkpoint_epochs
      then py_range num_epochs (num_epochs + c)
      else py_range 0 num_epochs
  | None => py_range 0 num_epochs
  end.

Definition checkpoint_format : string :=
  "%s/epoch%d_trainloss%.3f_validloss%.3f_trainacc%.3f_validacc%.3f.pth".

(** The path given to [torch.save]. *)
Definition checkpoint_name (model_save_path : string) (epoch : Z)
           (train_loss valid_loss train_accuracy valid_acc : num) : result string :=
  py_format checkpoint_format
    [FStr model_save_path; FInt (epoch + 1); FNum train_loss; FNum valid_loss;
     FNum train_accuracy; FNum valid_acc].

Definition save_checkpoint (path : string) : M unit :=
  fun w => (Ok tt, mkWorld (w_params w) (w_training w) (w_rng w)
                           (w_log w ++ [EvSave path (w_params w)])).

(** The body of [for epoch in epoch_iter], carrying
    [(train_acc_list, valid_acc_list)]. *)
Definition run_epoch (train_iter validation_iter : stream)
           (loss_criterion : loss_arg) (optimizer : opt_arg)
           (model_save_path : option string)
           (lists : list pyval * list pyval) (epoch : Z)
  : M (list pyval * list pyval) :=
  let '(train_acc_list, valid_acc_list) := lists in
  set_training true ;;
  emit (EvIter (s_name train_iter)) ;;
  ' (n, batch_count, train_loss_sum, train_acc_sum) <-
    foldM (train_batch loss_criterion optimizer)
          (0%Z, 0%Z, PyNum (num_of_Z 0), PyNum (num_of_Z 0))
          (s_batches train_iter) ;;
  r <- evaluation validation_iter "Accuracy" (Some loss_criterion) false ;;
  ' (valid_acc, valid_loss) <- unpack r ;;
  train_accuracy <- lift (py_div train_acc_sum n) ;;
  let train_acc_list := train_acc_list ++ [train_accuracy] in
  let valid_acc_list := valid_acc_list ++ [PyNum valid_acc] in
  train_loss <- lift (py_div train_loss_sum batch_count) ;;
  emit EvPrint ;;
  match model_save_path with
  | Some path =>
      if truthy_str model_save_path then
        name <- lift (checkpoint_name path epoch (val train_loss) (val valid_loss)
                                      (val train_accuracy) valid_acc) ;;
        save_checkpoint name ;;
        ret (train_acc_list, valid_acc_list)
      else ret (train_acc_list, valid_acc_list)
  | None => ret (train_acc_list, valid_acc_list)
  end.

(** [Model.fit] *)
Definition fit (train_iter validation_iter : option stream) (lr : num)
           (loss_criterion : loss_arg) (optimizer : opt_arg)
           (num_epochs : Z) (checkpoint_epochs : option Z)
           (model_save_path : option string) (is_plot : bool) : M unit :=
  emit EvPrint ;;
  match train_iter, validation_iter with
  | Some train_iter, Some validation_iter =>
      let loss_criterion := resolve_loss loss_criterion in
      let optimizer := resolve_optimizer lr optimizer in
      ' (train_acc_list, valid_acc_list) <-
        foldM (run_epoch train_iter validation_iter loss_criterion optimizer
                         model_save_path)
              ([], []) (epoch_iter num_epochs checkpoint_epochs) ;;
      if is_plot then emit (EvPlot train_acc_list valid_acc_list) else ret tt
  | _, _ => raise (InvalidArguments "Must input training data and validation data!")
  end.
End Model.

(** ** The ensemble ([ensemble_model.EnsembleClassificationModel]) *)
Section Ensemble.
Context {image : Type}.

(** Modelled from the spec: the mapping of model names to loaded
    sub-models the ensemble is constructed from, each sub-model seen
    through the labels it predicts for a batch; the list keeps the
    iteration order of the mapping. *)
Definition model_dict : Type := list (string * (list image -> list Z)).

(** Modelled from the spec: the combination rule of
    [EnsembleClassificationModel.predict], whose file is not among the
    sources: for one sample, the most frequent label among the
    sub-models' outputs, ties broken by the label met first in the
    iteration order of the model mapping.  No label is returned where
    no sub-model voted. *)
Definition vote (labels : list Z) : option Z :=
  match labels with
  | [] => None
  | x :: t => Some (scan (fun l => count l labels) Nat.ltb x t)
  end.

(** Modelled from the spec: the sub-models' labels for sample [i], in
    the iteration order of the mapping. *)
Definition votes_at (i : nat) (outputs : list (list Z)) : list Z :=
  flat_map (fun o => match nth_error o i with
                     | Some l => [l]
                     | None => []
                     end) outputs.

(** Modelled from the spec: [EnsembleClassificationModel.predict] runs
    every sub-model over the same batch and reduces the label
    sequences to one label per sample with [vote]. *)
Definition ensemble_predict (models : model_dict) (X : list image) : list (option Z) :=
  let outputs := map (fun m => snd m X) models in
  map (fun i => vote (votes_at i outputs)) (seq 0 (List.length X)).
End Ensemble.

(** ** The inference script ([src/predict.py]) *)

(** [[file for flag, file in zip(predict_list, file_list) if flag == 1]] *)
Definition noise_barrier_list (predict_list : list Z) (file_list : list string) : list string :=
  map snd (filter (fun p => (fst p =? 1)%Z) (combine predict_list file_list)).

Definition dst_path : string := "E:/Suzhou_noise_barrier_predict".

(** Modelled from the spec: [utils.multi_processing_copyfile], not among
    the sources: every listed file is copied into the destination
    directory under its own file name.  The result lists the copies as
    (source, destination); the workers' order is not observable. *)
Definition multi_processing_copyfile (files : list string) (dst : string)
  : list (string * string) :=
  map (fun f => (f, (dst ++ "/" ++ basename f)%string)) files.

(** Lines 36-38 of the script. *)
Definition copy_flagged (predict_list : list Z) (file_list : list string)
  : list (string * string) :=
  multi_processing_copyfile (noise_barrier_list predict_list file_list) dst_path.

(** [name.split("_")[0]]: the part of a config key before its first
    underscore. *)
Fixpoint arch_of (name : string) : string :=
  match name with
  | EmptyString => EmptyString
  | String c t => if Ascii.eqb c "_" then EmptyString else String c (arch_of t)
  end.

(** [{name: TransferingModel(name.split("_")[0], weight).model
      for name, weight in weights.items()}]; [TransferingModel] is not
    among the sources and enters as [transfering_model]. *)
Definition build_model_dict {model : Type} (transfering_model : string -> string -> model)
           (weights : list (string * string)) : list (string * model) :=
  map (fun nw => (fst nw, transfering_model (arch_of (fst nw)) (snd nw))) weights.

(** [DataLoader(dataset, batch_size=...)] with its defaults: the items
    in order, in consecutive batches, the last one possibly shorter. *)
Fixpoint chunks {A} (fuel size : nat) (l : list A) : list (list A) :=
  match fuel, l with
  | _, [] => []
  | O, _ :: _ => []
  | S fuel', _ :: _ => firstn size l :: chunks fuel' size (skipn size l)
  end.

Definition data_loader {A} (batch_size : nat) (dataset : list A) : list (list A) :=
  chunks (List.length dataset) batch_size dataset.

(** Lines 30-34 of the script: the predictions of all batches, one
    after the other.  [PredictDataset] (which loads the image of a
    file) and the ensemble's [predict] are not among the sources and
    enter as parameters. *)
Definition predict_list_of {image : Type} (PredictDataset : string -> image)
           (ensemble_predict : list image -> list Z) (file_list : list string) : list Z :=
  flat_map ensemble_predict (data_loader 256 (map PredictDataset file_list)).

(** ** A small backend to run the wrapper on

    Samples and parameters are integers, numbers are rationals, the
    network has two classes: class 1 scores higher exactly when the
    sample exceeds the parameter. *)
Module Toy.

Definition ltb (x y : Q) : bool := negb (Qle_bool y x).

(** Round a non-negative rational to the nearest integer, ties to even. *)
Definition round_half_even (q : Q) : Z :=
  let f := Qfloor q in
  match Qcompare (q - inject_Z f) (1 # 2) with
  | Lt => f
  | Gt => (f + 1)%Z
  | Eq => if Z.even f then f else (f + 1)%Z
  end.

Fixpoint zeros (n : nat) : string :=
  match n with
  | O => EmptyString
  | S k => String "0" (zeros k)
  end.

Definition pad (p : nat) (s : string) : string :=
  (zeros (p - String.length s) ++ s)%string.

(** ["%.<p>f" % q] for a finite value. *)
Definition format_Q (p : nat) (q : Q) : string :=
  let scale := (10 ^ Z.of_nat p)%Z in
  let m := round_half_even (Qabs q * inject_Z scale) in
  ((if ltb q 0 then "-" else "") ++ dec (m / scale)
   ++ (if (p =? 0)%nat then "" else "." ++ pad p (dec (m mod scale))))%string.

Definition entry_is (z : Z) (e : label_entry) : bool :=
  match e with
  | Lab l => (l =? z)%Z
  | LabArr [l] => (l =? z)%Z
  | LabArr _ => false
  end.

Definition accuracy (y_true : list Z) (y_pred : list label_entry) (kind : string) : Q :=
  inject_Z (Z.of_nat (List.length (filter (fun p => entry_is (fst p) (snd p))
                                          (combine y_true y_pred))))
  / inject_Z (Z.of_nat (List.length y_true)).

Definition errors (scores : list (list Q)) (y : list Z) : Q :=
  inject_Z (Z.of_nat (List.length scores + List.length y)) / 8.

Definition backend : Backend := {|
  image := Z;
  params := Z;
  grads := Z;
  rng := Z;
  num := Q;
  forward := fun _ p X => map (fun x => [inject_Z (p - x); inject_Z (x - p)]) X;
  num_ltb := ltb;
  num_add := Qplus;
  num_div := fun x d => x / inject_Z d;
  num_of_Z := inject_Z;
  format_float := format_Q;
  cross_entropy := errors;
  backward := fun _ _ _ _ _ => 1%Z;
  sgd_step := fun _ g p => (p - g)%Z;
  trfm := fun g x => ((x + g)%Z, (g + 1)%Z);
  calculate_classification_score := accuracy
|}.

Definition w0 : @world backend := @mkWorld backend 3%Z false 0%Z [].

Definition train : @stream backend :=
  @mkStream backend "train" [([1; 5], [0; 1]); ([4], [1])]%Z.

Definition valid : @stream backend :=
  @mkStream backend "valid" [([2; 7], [0; 1])]%Z.

Definition no_batches : @stream backend := @mkStream backend "train" [].

Definition loss_fn : @loss_arg backend := @LossFn backend errors.

Definition plain_step : @opt_arg backend := @OptObj backend (fun g p => (p - g)%Z).
End Toy.

(** ** A run with the values of the interface's example

    One epoch on the small backend: 789 of the 1000 training samples
    and 642 of the 2000 validation samples carry the label the network
    predicts for them, and the loss is 0.123 on the training batch and
    0.456 on the validation batch. *)
Module ClaimExample.

(** The label the small network predicts for [x] under the parameter [p]. *)
Definition predicted (p x : Z) : Z := if (p <? x)%Z then 1%Z else 0%Z.

Definition samples (k : nat) : list Z := map Z.of_nat (seq 1 k).

(** Labels that agree with the prediction on the first [hits] samples only. *)
Definition labels_with_hits (p : Z) (hits : nat) (X : list Z) : list Z :=
  map (fun ix => if (fst ix <? hits)%nat
                 then predicted p (snd ix)
                 else (1 - predicted p (snd ix))%Z)
      (combine (seq 0 (List.length X)) X).

Definition train : @stream Toy.backend :=
  @mkStream Toy.backend "train" [(samples 1000, labels_with_hits 3 789 (samples 1000))].

(** The validation pass runs after the one optimizer step of the epoch,
    under the parameter 2. *)
Definition valid : @stream Toy.backend :=
  @mkStream Toy.backend "valid" [(samples 2000, labels_with_hits 2 642 (samples 2000))].

Definition loss : @loss_arg Toy.backend :=
  @LossFn Toy.backend
          (fun _ y => if (List.length y =? 1000)%nat then 123 # 1000 else 456 # 1000).
End ClaimExample.

(** ** Vocabulary of the statements *)

(** [m] is a most frequent value of [l]. *)
Definition is_mode (m : Z) (l : list Z) : Prop :=
  In m l /\ forall x, (count x l <= count m l)%nat.

(** The streams whose iteration a log records, in order. *)
Definition iters {B : Backend} (log : list (@event B)) : list string :=
  flat_map (fun ev => match ev with
                      | EvIter s => [s]
                      | _ => []
                      end) log.

(** The paths a log records as written. *)
Definition saves {B : Backend} (log : list (@event B)) : list string :=
  flat_map (fun ev => match ev with
                      | EvSave path _ => [path]
                      | _ => []
                      end) log.

(** The number of optimizer steps a log records. *)
Definition steps {B : Backend} (log : list (@event B)) : nat :=
  List.length (filter (fun ev => match ev with
                                 | EvStep => true
                                 | _ => false
                                 end) log).

(** The checkpoint name as the interface documents it:
    [{save_path}/epoch{N}_trainloss{L:.3f}_validloss{L:.3f}_trainacc{A:.3f}_validacc{A:.3f}.pth] *)
Definition documented_name {B : Backend} (save_path : string) (N : Z)
           (train_loss valid_loss train_accuracy valid_acc : num) : string :=
  (save_path ++ "/epoch" ++ dec N
   ++ "_trainloss" ++ format_float 3 train_loss
   ++ "_validloss" ++ format_float 3 valid_loss
   ++ "_trainacc" ++ format_float 3 train_accuracy
   ++ "_validacc" ++ format_float 3 valid_acc ++ ".pth")%string.

(** [k] augmented copies of the one sample [x], each drawn from [x]
    itself with the next random state. *)
Fixpoint draws {B : Backend} (k : nat) (g : rng) (x : image) : list image * rng :=
  match k with
  | O => ([], g)
  | S k' =>
      let '(x', g') := trfm g x in
      let '(rest, g'') := draws k' g' x in
      (x' :: rest, g'')
  end.

(** The label of one copy predicted on its own: the arg-max of the only
    row the network returns for the batch [[copy]] in evaluation mode. *)
Definition predict_single {B : Backend} (p : params) (copy : image) : result Z :=
  match forward false p [copy] with
  | [row] => argmax row
  | _ => Raise RuntimeError
  end.

(** What the TTA branch is to append for a sequence of samples, starting
    from the random state [g]: per sample five copies, their five
    individual predictions, and a most frequent one of these. *)
Inductive tta_spec {B : Backend} (p : params) : rng -> list image -> list label_entry -> rng -> Prop :=
| tta_nil : forall g, tta_spec p g [] [] g
| tta_cons : forall g x xs copies g' preds m es g'',
    draws 5 g x = (copies, g') ->
    List.length copies = 5%nat ->
    mapR (predict_single p) copies = Ok preds ->
    is_mode m preds ->
    tta_spec p g' xs es g'' ->
    tta_spec p g (x :: xs) (LabArr [m] :: es) g''.

(** A loss or optimizer name the dispatch of [fit] does not know. *)
Definition loss_unrecognized {B : Backend} (l : @loss_arg B) : bool :=
  match l with
  | LossStr s => negb (String.eqb (lower s) "cross_entropy")
  | LossFn _ => false
  end.

Definition optimizer_unrecognized {B : Backend} (o : @opt_arg B) : bool :=
  match o with
  | OptStr s => negb (String.eqb (lower s) "sgd")
  | OptObj _ => false
  end.

(** The number of epochs the head of the loop in [fit] schedules. *)
Definition scheduled_epochs (num_epochs : Z) (checkpoint_epochs : option Z) : nat :=
  match checkpoint_epochs with
  | Some c => if (c =? 0)%Z then Z.to_nat num_epochs else Z.to_nat c
  | None => Z.to_nat num_epochs
  end.

(** A decision procedure for [is_mode]. *)
Definition is_modeb (m : Z) (l : list Z) : bool :=
  existsb (Z.eqb m) l && forallb (fun x => (count x l <=? count m l)%nat) l.

(** The files at the positions the predictions flag with 1, by index. *)
Definition flagged_by_index (predict_list : list Z) (file_list : list string) : list string :=
  map (fun i => nth i file_list EmptyString)
      (filter (fun i => (nth i predict_list 0 =? 1)%Z) (seq 0 (List.length file_list))).

(** A triple for the calls of the wrapper: from a state in [P] the
    computation ends in a state in [Q] with its value, or raises [e]
    leaving a state in [R e]. *)
Definition triple {B : Backend} {A : Type} (P : world -> Prop) (m : M A)
           (Q : A -> world -> Prop) (R : exn -> world -> Prop) : Prop :=
  forall w, P w ->
            match m w with
            | (Ok a, w') => Q a w'
            | (Raise e, w') => R e w'
            end.

(** The log has grown from [log0] by events that satisfy [ok] only. *)
Definition extends_ok {B : Backend} (ok : event -> Prop) (log0 : list event)
           (w : world) : Prop :=
  exists new, w_log w = log0 ++ new /\ Forall ok new.

(** An event is a checkpoint of the documented name for one of the
    epochs [fit] runs, or no checkpoint at all. *)
Definition save_documented {B : Backend} (save_path : string) (epochs : list Z)
           (ev : event) : Prop :=
  match ev with
  | EvSave path _ =>
      exists epoch train_loss valid_loss train_accuracy valid_acc,
        In epoch epochs /\
        path = documented_name save_path (epoch + 1) train_loss valid_loss
                               train_accuracy valid_acc
  | _ => True
  end.

(** A computation is sound for [ok] when it only extends the log by
    events in [ok] and never raises [InvalidArguments]. *)
Definition sound {B : Backend} {A : Type} (ok : event -> Prop) (log0 : list event)
           (m : M A) : Prop :=
  triple (extends_ok ok log0) m
         (fun _ => extends_ok ok log0)
         (fun e w => extends_ok ok log0 w /\ forall msg, e <> InvalidArguments msg).

(** The network returns one non-empty row for a batch of one sample. *)
Definition single_row {B : Backend} : Prop :=
  forall (p : params) (x : image), exists row, forward false p [x] = [row] /\ row <> [].

(** The state of a call, described by its fields. *)
Definition at_state {B : Backend} (p : params) (g : rng) (lg : list event)
           (w : world) : Prop :=
  w_params w = p /\ w_rng w = g /\ w_log w = lg.

(** The network returns a non-empty row of scores for every sample. *)
Definition row_per_sample {B : Backend} : Prop :=
  forall (t : bool) (p : params) (X : list image),
    List.length (forward t p X) = List.length X /\
    Forall (fun row => row <> []) (forward t p X).

(** Every batch of the stream has a label per sample. *)
Definition labelled {B : Backend} (s : stream) : Prop :=
  forall X y, In (X, y) (s_batches s) -> List.length X = List.length y.

(** The loss a plain evaluation accumulates over batches, under the
    parameters [p]. *)
Definition accumulated_loss {B : Backend} (f : list (list num) -> list Z -> num)
           (p : params) (batches : list (list image * list Z)) : pyval :=
  fold_left py_add
            (map (fun b => Tensor (f (forward false p (fst b)) (snd b))) batches)
            (PyNum (num_of_Z 0)).

(** What the log shows of the streams iterated and the paths written. *)
Definition logged {B : Backend} (L S : list string) (w : world) : Prop :=
  iters (w_log w) = L /\ saves (w_log w) = S.

(** The paths written for the epochs [epochs], one per epoch and in
    their order, each of the documented name; none without a save path. *)
Definition checkpoints_of {B : Backend} (save_path : option string) (epochs : list Z)
           (paths : list string) : Prop :=
  match save_path with
  | Some path =>
      if truthy_str save_path
      then Forall2 (fun epoch p =>
                      exists a b c d, p = documented_name path (epoch + 1) a b c d)
                   epochs paths
      else paths = []
  | None => paths = []
  end.

(** A computation keeps [J] when every state it ends in, returning or
    raising, is in [J] again. *)
Definition keeps {B : Backend} {A : Type} (J : world -> Prop) (m : M A) : Prop :=
  forall w, J w -> J (snd (m w)).

(** The labels [predict] gives for one batch under the parameters [p]. *)
Definition batch_labels {B : Backend} (p : params) (X : list image) : result (list Z) :=
  mapR argmax (forward false p X).

(** The number of the first epoch [fit] runs (counted from 0). *)
Definition first_epoch (num_epochs : Z) (checkpoint_epochs : option Z) : Z :=
  if truthy_int checkpoint_epochs then num_epochs else 0%Z.

(** The events of one epoch over [k] training batches: the training
    pass with its optimizer steps, the validation pass, the progress
    line and, with a save path, the checkpoint. *)
Definition epoch_events {B : Backend} (tr va : stream) (k : nat)
           (checkpoint : list event) : list event :=
  [EvIter (s_name tr)] ++ repeat EvStep k ++ [EvIter (s_name va); EvPrint] ++ checkpoint.

(** The checkpoint event of an epoch: none without a save path, else
    one of the documented name holding the parameters [p]. *)
Definition checkpoint_event {B : Backend} (save_path : option string) (epoch : Z)
           (p : params) (evs : list event) : Prop :=
  match save_path with
  | Some path =>
      if truthy_str save_path
      then exists a b c d, evs = [EvSave (documented_name path (epoch + 1) a b c d) p]
      else evs = []
  | None => evs = []
  end.

(** No character of the string is an underscore. *)
Fixpoint no_underscore (s : string) : bool :=
  match s with
  | EmptyString => true
  | String c t => negb (Ascii.eqb c "_") && no_underscore t
  end.

(** The parameter values a log records as saved, in order. *)
Definition saved_states {B : Backend} (log : list (@event B)) : list params :=
  flat_map (fun ev => match ev with
                      | EvSave _ st => [st]
                      | _ => []
                      end) log.

(** What an epoch reports: its training loss, validation loss,
    training accuracy and validation accuracy. *)
Record epoch_report {B : Backend} : Type := mkReport {
  r_train_loss : pyval;
  r_valid_loss : pyval;
  r_train_acc : pyval;
  r_valid_acc : num
}.

(** The values of the epoch that starts in the state [w]: the training
    pass gives the sums, the evaluation that follows gives the pair
    (validation accuracy, validation loss) and ends in [w3]; the
    training accuracy is [train_acc_sum / n] and the training loss is
    [train_loss_sum / batch_count]. *)
Definition epoch_values {B : Backend} (tr va : stream) (l : loss_arg) (o : opt_arg)
           (w : world) (r : epoch_report) (w3 : world) : Prop :=
  exists n batch_count train_loss_sum train_acc_sum w2,
    foldM (train_batch l o) (0%Z, 0%Z, PyNum (num_of_Z 0), PyNum (num_of_Z 0))
          (s_batches tr)
          (mkWorld (w_params w) true (w_rng w) (w_log w ++ [EvIter (s_name tr)]))
    = (Ok (n, batch_count, train_loss_sum, train_acc_sum), w2) /\
    evaluation va "Accuracy" (Some l) false w2
    = (Ok (ScoreLoss (r_valid_acc r) (r_valid_loss r)), w3) /\
    py_div train_acc_sum n = Ok (r_train_acc r) /\
    py_div train_loss_sum batch_count = Ok (r_train_loss r).

(** The documented checkpoint name filled with the values of an epoch. *)
Definition report_name {B : Backend} (path : string) (epoch : Z) (r : epoch_report)
  : string :=
  documented_name path (epoch + 1) (val (r_train_loss r)) (val (r_valid_loss r))
                  (val (r_train_acc r)) (r_valid_acc r).

(** The checkpoint event of an epoch with the report [r]. *)
Definition report_checkpoint {B : Backend} (save_path : option string) (epoch : Z)
           (r : epoch_report) (p : params) : list event :=
  match save_path with
  | Some path => if truthy_str save_path then [EvSave (report_name path epoch r) p] else []
  | None => []
  end.

(** The names of the checkpoints of epochs with given reports. *)
Definition report_names {B : Backend} (save_path : option string) (epochs : list Z)
           (rs : list epoch_report) : list string :=
  match save_path with
  | Some path =>
      if truthy_str save_path
      then map (fun er => report_name path (fst er) (snd er)) (combine epochs rs)
      else []
  | None => []
  end.

(** A sequence of epochs from the state [w] to the state [w']: each
    epoch has the values of its own training pass and evaluation, then
    prints its progress line and writes its checkpoint. *)
Inductive epochs_reported {B : Backend} (tr va : stream) (l : loss_arg) (o : opt_arg)
          (save_path : option string)
  : world -> list Z -> list epoch_report -> world -> Prop :=
| reported_nil : forall w, epochs_reported tr va l o save_path w [] [] w
| reported_cons : forall w epoch es r w3 rs w',
    epoch_values tr va l o w r w3 ->
    epochs_reported tr va l o save_path
                    (mkWorld (w_params w3) (w_training w3) (w_rng w3)
                             (w_log w3 ++ [EvPrint]
                              ++ report_checkpoint save_path epoch r (w_params w3)))
                    es rs w' ->
    epochs_reported tr va l o save_path w (epoch :: es) (r :: rs) w'.

(** An event that writes no checkpoint, and an event that plots nothing. *)
Definition no_write {B : Backend} (ev : event) : Prop :=
  match ev with
  | EvSave _ _ => False
  | _ => True
  end.

Definition no_plot {B : Backend} (ev : event) : Prop :=
  match ev with
  | EvPlot _ _ => False
  | _ => True
  end.

(** The state in which the loop of [fit] starts: the opening [print]
    is in the log. *)
Definition after_print {B : Backend} (w : world) : world :=
  mkWorld (w_params w) (w_training w) (w_rng w) (w_log w ++ [EvPrint]).

(** The two accuracy curves of epochs with given reports. *)
Definition train_curve {B : Backend} (rs : list epoch_report) : list pyval :=
  map r_train_acc rs.

Definition valid_curve {B : Backend} (rs : list epoch_report) : list pyval :=
  map (fun r => PyNum (r_valid_acc r)) rs.

(** [optim.SGD], where the dispatch of [fit] constructs it, accepts the
    learning rate: it is not negative.  (The constructor's own check of
    its arguments is not part of [resolve_optimizer].) *)
Definition dispatch_completes {B : Backend} (lr : num) (o : opt_arg) : Prop :=
  match o with
  | OptStr s => if String.eqb (lower s) "sgd" then num_ltb lr (num_of_Z 0) = false else True
  | OptObj _ => True
  end.

(** * Properties *)

(** ** First maximal element *)
Section ScanFacts.
Context {A K : Type} (key : A -> K) (lt : K -> K -> bool).
Hypothesis lt_irrefl : forall k, lt k k = false.
Hypothesis lt_trans : forall a b c, lt a b = true -> lt b c = true -> lt a c = true.

Lemma scan_In (b : A) (l : list A) : In (scan key lt b l) (b :: l).
Proof.
  revert b; induction l as [|x t IH]; intros b; simpl.
  - now left.
  - destruct (lt (key b) (key x)).
    + right. apply IH.
    + destruct (IH b) as [E | I]; [now left | now right; right].
Qed.

Lemma scan_above (b : A) (l : list A) :
  scan key lt b l = b \/ lt (key b) (key (scan key lt b l)) = true.
Proof.
  revert b; induction l as [|x t IH]; intros b; simpl.
  - now left.
  - destruct (lt (key b) (key x)) eqn:E.
    + right. destruct (IH x) as [-> | H]; [exact E | eapply lt_trans; eauto].
    + apply IH.
Qed.

Lemma scan_max (b : A) (l : list A) (x : A) :
  In x (b :: l) -> lt (key (scan key lt b l)) (key x) = false.
Proof.
  revert b x; induction l as [|y t IH]; intros b x Hin.
  - simpl in *. destruct Hin as [<- | []]. apply lt_irrefl.
  - simpl. destruct (lt (key b) (key y)) eqn:E.
    + destruct Hin as [<- | Hin]; [| now apply IH].
      destruct (lt (key (scan key lt y t)) (key b)) eqn:F; [| reflexivity].
      assert (G : lt (key (scan key lt y t)) (key y) = true) by (eapply lt_trans; eauto).
      rewrite (IH y y) in G; [discriminate | now left].
    + destruct Hin as [<- | [<- | Hin]].
      * apply IH. now left.
      * destruct (scan_above b t) as [-> | H]; [exact E |].
        destruct (lt (key (scan key lt b t)) (key y)) eqn:F; [| reflexivity].
        rewrite (lt_trans _ _ _ H F) in E. discriminate.
      * apply IH. now right.
Qed.
End ScanFacts.

(** With natural-number keys the winner is the first element whose key
    is maximal. *)
Lemma scan_nat_first {A} (key : A -> nat) (b : A) (l : list A) :
  exists l1 l2,
    b :: l = l1 ++ scan key Nat.ltb b l :: l2 /\
    (forall y, In y l1 -> (key y < key (scan key Nat.ltb b l))%nat) /\
    (forall y, In y l2 -> (key y <= key (scan key Nat.ltb b l))%nat).
Proof.
  revert b; induction l as [|x t IH]; intros b; simpl.
  - exists [], []. repeat split; simpl; tauto.
  - destruct (Nat.ltb_spec (key b) (key x)) as [H | H].
    + destruct (IH x) as (l1 & l2 & E & H1 & H2).
      exists (b :: l1), l2. split; [simpl; now rewrite E |]. split; [| exact H2].
      intros y [<- | Hy]; [| now apply H1].
      destruct l1 as [|z l1]; simpl in E; injection E as E1 E2.
      * now rewrite <- E1.
      * subst z. specialize (H1 x (or_introl eq_refl)). lia.
    + destruct (IH b) as (l1 & l2 & E & H1 & H2).
      destruct l1 as [|z l1]; simpl in E; injection E as E1 E2.
      * exists [], (x :: l2). rewrite <- E1 in *. rewrite <- E2.
        split; [reflexivity |]. split; [simpl; tauto |].
        intros y [<- | Hy]; [exact H | apply H2; now rewrite <- E2].
      * subst z. exists (b :: x :: l1), l2.
        split; [simpl; do 2 f_equal; exact E2 |]. split; [| exact H2].
        assert (Hb := H1 b (or_introl eq_refl)).
        intros y [<- | [<- | Hy]]; [exact Hb | lia | apply H1; now right].
Qed.

(** ** [np.unique] and the mode loop *)

Lemma insert_unique_In (x y : Z) (l : list Z) :
  In y (insert_unique x l) <-> y = x \/ In y l.
Proof.
  induction l as [|z t IH]; simpl.
  - intuition.
  - destruct (Z.ltb_spec x z); [simpl; intuition |].
    destruct (Z.eqb_spec x z); [subst; simpl; intuition |].
    simpl. rewrite IH. intuition.
Qed.

Lemma insert_unique_sorted (x : Z) (l : list Z) :
  StronglySorted Z.lt l -> StronglySorted Z.lt (insert_unique x l).
Proof.
  induction 1 as [|z t Ht IH Hz]; simpl.
  - repeat constructor.
  - destruct (Z.ltb_spec x z).
    + constructor; [now constructor |].
      constructor; [assumption |].
      eapply Forall_impl; [| exact Hz]. intros; simpl in *; lia.
    + destruct (Z.eqb_spec x z); [now constructor |].
      constructor; [exact IH |].
      apply Forall_forall. intros y Hy. apply insert_unique_In in Hy.
      destruct Hy as [-> | Hy]; [lia |].
      rewrite Forall_forall in Hz. now apply Hz.
Qed.

Lemma np_unique_In (x : Z) (l : list Z) : In x (np_unique l) <-> In x l.
Proof.
  induction l as [|y t IH]; simpl; [tauto |].
  rewrite insert_unique_In, IH. intuition.
Qed.

Lemma np_unique_sorted (l : list Z) : StronglySorted Z.lt (np_unique l).
Proof.
  induction l; simpl; [constructor | now apply insert_unique_sorted].
Qed.

Lemma sorted_after (s1 s2 : list Z) (s : Z) :
  StronglySorted Z.lt (s1 ++ s :: s2) -> forall y, In y s2 -> (s < y)%Z.
Proof.
  induction s1 as [|a s1 IH]; simpl; intros H y Hy.
  - apply StronglySorted_inv in H. destruct H as [_ H].
    rewrite Forall_forall in H. now apply H.
  - apply StronglySorted_inv in H. destruct H as [H _]. now apply IH.
Qed.

Lemma count_In (x : Z) (l : list Z) : (0 < count x l)%nat <-> In x l.
Proof.
  unfold count. induction l as [|y t IH]; simpl; [split; [lia | tauto] |].
  destruct (Z.eqb_spec x y); simpl.
  - subst. split; [now left | lia].
  - rewrite IH. intuition congruence.
Qed.

Lemma mode_column_scan (col scores : list Z) (st : Z * nat) :
  fold_left (mode_step col) scores st
  = scan snd Nat.ltb st (map (fun s => (s, count s col)) scores).
Proof.
  revert st; induction scores as [|s t IH]; intros [mf c]; simpl; [reflexivity |].
  rewrite IH. destruct (Nat.ltb_spec c (count s col)); do 2 f_equal; lia.
Qed.

(** The loop returns a most frequent value, and the smallest one. *)
Lemma mode_column_smallest (scores col : list Z) :
  col <> [] ->
  (forall x, In x col -> In x scores) ->
  StronglySorted Z.lt scores ->
  is_mode (fst (mode_column scores col)) col /\
  forall x, is_mode x col -> (fst (mode_column scores col) <= x)%Z.
Proof.
  intros Hne Hin Hs. unfold mode_column. rewrite mode_column_scan.
  set (f := fun s : Z => (s, count s col)).
  destruct (scan_nat_first snd (0%Z, 0%nat) (map f scores)) as (l1 & l2 & E & H1 & H2).
  set (r := scan snd Nat.ltb (0%Z, 0%nat) (map f scores)) in *.
  destruct col as [|c0 col']; [congruence |].
  set (col := c0 :: col') in *.
  assert (Hc : (0 < count c0 col)%nat) by (apply count_In; now left).
  assert (Hc' : In c0 scores) by (apply Hin; now left).
  destruct l1 as [|z l1]; simpl in E; injection E as E1 E2.
  - exfalso. assert (In (f c0) l2) by (rewrite <- E2; now apply in_map).
    apply H2 in H. rewrite <- E1 in H. simpl in H. lia.
  - apply map_eq_app in E2. destruct E2 as (s1 & s2' & Es & E3 & E4).
    apply map_eq_cons in E4. destruct E4 as (s & s2 & -> & E5 & E6).
    rewrite <- E5 in *. simpl fst. simpl snd in H1, H2.
    assert (Hmax : forall x, (count x col <= count s col)%nat).
    { intros x. destruct (Nat.eq_dec (count x col) 0) as [-> | Hx]; [lia |].
      assert (Hxc : In x scores) by (apply Hin, count_In; lia).
      rewrite Es in Hxc. apply in_app_or in Hxc. destruct Hxc as [Hx1 | [-> | Hx2]].
      - assert (In (f x) (z :: l1)) by (right; rewrite <- E3; now apply in_map).
        apply H1 in H. simpl in H. lia.
      - lia.
      - assert (In (f x) l2) by (rewrite <- E6; now apply in_map).
        apply H2 in H. simpl in H. lia. }
    split.
    + split; [| exact Hmax]. apply count_In. specialize (Hmax c0). lia.
    + intros x [Hx Hxm]. specialize (Hxm s).
      assert (Hxc : In x scores) by now apply Hin.
      rewrite Es in Hxc. apply in_app_or in Hxc. destruct Hxc as [Hx1 | [-> | Hx2]].
      * assert (In (f x) (z :: l1)) by (right; rewrite <- E3; now apply in_map).
        apply H1 in H. simpl in H. lia.
      * lia.
      * rewrite Es in Hs. pose proof (sorted_after _ _ _ Hs x Hx2). lia.
Qed.

(** [stats.mode(...)[0][0]] on a column of single predictions. *)
Lemma mode_first_row_column (l : list Z) :
  l <> [] ->
  mode_first_row (map (fun p => [p]) l) = Ok (LabArr [fst (mode_column (np_unique l) l)]).
Proof.
  intros Hne. unfold mode_first_row, stats_mode.
  assert (Ec : concat (map (fun p => [p]) l) = l).
  { clear Hne. induction l; simpl; [reflexivity | now f_equal]. }
  assert (Ecol : column 0 (map (fun p => [p]) l) = l).
  { unfold column. rewrite map_map. simpl. apply map_id. }
  rewrite Ec. destruct l as [|p t]; [congruence |].
  transitivity (Ok (LabArr [fst (mode_column (np_unique (p :: t))
                                  (column 0 (map (fun p => [p]) (p :: t))))]));
    [reflexivity | now rewrite Ecol].
Qed.

Lemma tta_reduction_smallest_mode (l : list Z) :
  l <> [] ->
  exists m, mode_first_row (map (fun p => [p]) l) = Ok (LabArr [m]) /\
            is_mode m l /\ forall x, is_mode x l -> (m <= x)%Z.
Proof.
  intros Hne. exists (fst (mode_column (np_unique l) l)).
  split; [now apply mode_first_row_column |].
  apply mode_column_smallest; [exact Hne | | apply np_unique_sorted].
  intros x Hx. now apply np_unique_In.
Qed.

Lemma is_modeb_sound (m : Z) (l : list Z) : is_modeb m l = true -> is_mode m l.
Proof.
  unfold is_modeb, is_mode. rewrite andb_true_iff, existsb_exists, forallb_forall.
  intros [(y & Hy & E) H]. apply Z.eqb_eq in E. subst y. split; [exact Hy |].
  intros x. destruct (Nat.eq_dec (count x l) 0) as [-> | Hx]; [lia |].
  apply Nat.leb_le, H, count_In. lia.
Defined.

(** C10: for five per-copy predictions in which two different labels are
    both most frequent, the reduction [stats.mode(pred_y_list)[0][0]] of
    the TTA branch yields a most frequent label that is below or equal
    to every most frequent label: the smallest of the tied ones. *)
Theorem tta_tie_returns_smallest (l : list Z) (a b : Z) :
  List.length l = 5%nat ->
  a <> b -> is_mode a l -> is_mode b l ->
  exists m, mode_first_row (map (fun p => [p]) l) = Ok (LabArr [m]) /\
            is_mode m l /\ forall x, is_mode x l -> (m <= x)%Z.
Proof.
  intros Hlen _ _ _. apply tta_reduction_smallest_mode.
  destruct l; [discriminate | congruence].
Qed.

Lemma tta_tie_returns_smallest_witness :
  exists m, mode_first_row (map (fun p => [p]) [2; 1; 2; 1; 0]%Z) = Ok (LabArr [m]) /\
            is_mode m [2; 1; 2; 1; 0]%Z /\
            forall x, is_mode x [2; 1; 2; 1; 0]%Z -> (m <= x)%Z.
Proof.
  apply (tta_tie_returns_smallest [2; 1; 2; 1; 0]%Z 1%Z 2%Z).
  - reflexivity.
  - lia.
  - apply is_modeb_sound. reflexivity.
  - apply is_modeb_sound. reflexivity.
Defined.

(** ** The ensemble's vote *)

Lemma vote_is_mode (votes : list Z) :
  votes <> [] -> exists l, vote votes = Some l /\ is_mode l votes.
Proof.
  destruct votes as [|v t]; [congruence | intros _].
  set (votes := v :: t). set (key := fun l : Z => count l votes).
  exists (scan key Nat.ltb v t). split; [reflexivity |]. split.
  - apply (scan_In key Nat.ltb v t).
  - intros x. destruct (Nat.eq_dec (count x votes) 0) as [-> | Hx]; [lia |].
    assert (Hin : In x votes) by (apply count_In; lia).
    pose proof (scan_max key Nat.ltb Nat.ltb_irrefl) as Hmax.
    specialize (Hmax (fun a b c Hab Hbc =>
      proj2 (Nat.ltb_lt a c)
            (Nat.lt_trans _ _ _ (proj1 (Nat.ltb_lt a b) Hab) (proj1 (Nat.ltb_lt b c) Hbc)))).
    specialize (Hmax v t x Hin). apply Nat.ltb_ge in Hmax. exact Hmax.
Qed.

Lemma votes_at_nth (i : nat) (outputs : list (list Z)) :
  (forall o, In o outputs -> (i < List.length o)%nat) ->
  votes_at i outputs = map (fun o => nth i o 0%Z) outputs.
Proof.
  unfold votes_at. induction outputs as [|o t IH]; intros H; simpl; [reflexivity |].
  destruct (nth_error o i) eqn:E.
  - rewrite (nth_error_nth _ _ _ E). simpl. f_equal. apply IH. intros; apply H; now right.
  - apply nth_error_None in E. specialize (H o (or_introl eq_refl)). lia.
Qed.

Lemma nth_error_map_seq {A} (f : nat -> A) (n i : nat) :
  (i < n)%nat -> nth_error (map f (seq 0 n)) i = Some (f i).
Proof.
  intros H. rewrite nth_error_map.
  assert (E : nth_error (seq 0 n) i = Some i).
  { rewrite (nth_error_nth' _ 0%nat) by (now rewrite length_seq).
    now rewrite seq_nth. }
  now rewrite E.
Qed.

(** C5: for every sample of a batch the ensemble returns a most frequent
    label among the sub-models' predictions for that sample; hence the
    common label when all sub-models agree, and the 2-count label when
    three sub-models split 2-vs-1 between two labels. *)
Theorem ensemble_predict_majority {image : Type}
        (models : @model_dict image) (X : list image) (i : nat) :
  models <> [] ->
  (i < List.length X)%nat ->
  (forall m, In m models -> List.length (snd m X) = List.length X) ->
  let votes := map (fun m => nth i (snd m X) 0%Z) models in
  exists l,
    nth_error (ensemble_predict models X) i = Some (Some l) /\
    is_mode l votes /\
    (forall a, (forall v, In v votes -> v = a) -> l = a) /\
    (forall a b, a <> b -> (forall v, In v votes -> v = a \/ v = b) ->
                 count a votes = 2%nat -> count b votes = 1%nat -> l = a).
Proof.
  intros Hne Hi Hlen votes.
  assert (Ev : votes_at i (map (fun m => snd m X) models) = votes).
  { rewrite votes_at_nth.
    - unfold votes. now rewrite map_map.
    - intros o Ho. apply in_map_iff in Ho. destruct Ho as (m & <- & Hm).
      rewrite (Hlen m Hm). exact Hi. }
  assert (Hv : votes <> []).
  { unfold votes. destruct models; [congruence | discriminate]. }
  destruct (vote_is_mode votes Hv) as (l & El & Hl).
  exists l. split; [| split; [exact Hl | split]].
  - unfold ensemble_predict. rewrite nth_error_map_seq by exact Hi.
    now rewrite Ev, El.
  - intros a Ha. apply Ha. apply Hl.
  - intros a b Hab Hbin Ha Hb. destruct Hl as [Hin Hmax].
    destruct (Hbin l Hin) as [E | E]; [exact E |].
    specialize (Hmax a). rewrite E, Ha, Hb in Hmax. lia.
Qed.

Lemma ensemble_predict_majority_witness :
  let models : @model_dict Z :=
    [("resnet_a", map (fun _ => 1%Z)); ("vgg_b", map (fun x => x));
     ("densenet_c", map (fun _ => 1%Z))] in
  let X := [0; 1]%Z in
  let votes := map (fun m => nth 0 (snd m X) 0%Z) models in
  exists l,
    nth_error (ensemble_predict models X) 0 = Some (Some l) /\
    is_mode l votes /\
    (forall a, (forall v, In v votes -> v = a) -> l = a) /\
    (forall a b, a <> b -> (forall v, In v votes -> v = a \/ v = b) ->
                 count a votes = 2%nat -> count b votes = 1%nat -> l = a).
Proof.
  intros models X.
  apply (ensemble_predict_majority models X 0).
  - discriminate.
  - simpl. lia.
  - intros m [<- | [<- | [<- | []]]]; reflexivity.
Defined.

(** ** The inference script *)

Lemma basename_no_sep (s : string) : has_sep (basename s) = false.
Proof.
  induction s as [|c t IH]; simpl; [reflexivity |].
  destruct (has_sep t) eqn:E; [exact IH |].
  destruct (is_sep c) eqn:F; [exact E |].
  simpl. now rewrite F, E.
Qed.

Lemma has_sep_app (s t : string) : has_sep (s ++ t) = has_sep s || has_sep t.
Proof.
  induction s as [|c s IH]; simpl; [reflexivity |].
  now rewrite IH, orb_assoc.
Qed.

Lemma basename_join (d n : string) :
  has_sep n = false -> basename (d ++ "/" ++ n) = n.
Proof.
  intros Hn. induction d as [|c d IH]; simpl.
  - now rewrite Hn.
  - rewrite has_sep_app. simpl. now rewrite orb_true_r.
Qed.

Lemma noise_barrier_by_index (predict_list : list Z) (file_list : list string) :
  List.length predict_list = List.length file_list ->
  noise_barrier_list predict_list file_list = flagged_by_index predict_list file_list.
Proof.
  unfold noise_barrier_list, flagged_by_index.
  revert file_list; induction predict_list as [|flag ps IH];
    intros [|file fs] Hlen; try discriminate; [reflexivity |].
  injection Hlen as Hlen. specialize (IH fs Hlen).
  cbn [List.length seq combine filter fst].
  rewrite <- seq_shift, filter_map_swap.
  cbn [nth]. destruct (flag =? 1)%Z; cbn [map snd nth];
    rewrite map_map; cbn [nth]; now rewrite IH.
Qed.

(** C8: with a prediction per file, the script selects the files whose
    prediction is 1, in the order of the file list, and the copies are
    those files, each into the destination directory under its own file
    name. *)
Theorem copy_flagged_exact (predict_list : list Z) (file_list : list string) :
  List.length predict_list = List.length file_list ->
  noise_barrier_list predict_list file_list = flagged_by_index predict_list file_list /\
  map fst (copy_flagged predict_list file_list) = noise_barrier_list predict_list file_list /\
  forall src dst, In (src, dst) (copy_flagged predict_list file_list) ->
                  dst = (dst_path ++ "/" ++ basename src)%string /\
                  basename dst = basename src.
Proof.
  intros Hlen. split; [now apply noise_barrier_by_index |]. split.
  - unfold copy_flagged, multi_processing_copyfile. rewrite map_map. apply map_id.
  - intros src dst Hin. unfold copy_flagged, multi_processing_copyfile in Hin.
    apply in_map_iff in Hin. destruct Hin as (f & E & _). injection E as <- <-.
    split; [reflexivity |].
    apply (basename_join dst_path (basename f)), basename_no_sep.
Qed.

Lemma copy_flagged_exact_witness :
  let predict_list := [1; 0; 1]%Z in
  let file_list := ["E:/SZ_bridge_StreetViews\a.png"; "E:/SZ_bridge_StreetViews\b.png";
                    "E:/SZ_bridge_StreetViews\c.png"] in
  noise_barrier_list predict_list file_list = flagged_by_index predict_list file_list /\
  map fst (copy_flagged predict_list file_list) = noise_barrier_list predict_list file_list /\
  forall src dst, In (src, dst) (copy_flagged predict_list file_list) ->
                  dst = (dst_path ++ "/" ++ basename src)%string /\
                  basename dst = basename src.
Proof.
  intros predict_list file_list.
  apply (copy_flagged_exact predict_list file_list). reflexivity.
Defined.

(** ** Rules for triples *)
Section Triples.
Context {B : Backend}.

Lemma triple_ret {A} (a : A) (Q : A -> world -> Prop) R :
  triple (Q a) (ret a) Q R.
Proof. intros w H. exact H. Qed.

Lemma triple_bind {A C} (m : M A) (k : A -> M C) P Q1 Q R :
  triple P m Q1 R -> (forall a, triple (Q1 a) (k a) Q R) ->
  triple P (bind m k) Q R.
Proof.
  intros Hm Hk w Hw. unfold bind. specialize (Hm w Hw).
  destruct (m w) as [[a | e] w']; [now apply Hk | exact Hm].
Qed.

Lemma triple_weaken {A} (m : M A) (P P' : world -> Prop) (Q Q' : A -> world -> Prop)
      (R R' : exn -> world -> Prop) :
  triple P' m Q' R' ->
  (forall w, P w -> P' w) ->
  (forall a w, Q' a w -> Q a w) ->
  (forall e w, R' e w -> R e w) ->
  triple P m Q R.
Proof.
  intros Hm HP HQ HR w Hw. specialize (Hm w (HP w Hw)).
  destruct (m w) as [[a | e] w']; auto.
Qed.

Lemma triple_raise {A} (e : exn) (Q : A -> world -> Prop) (R : exn -> world -> Prop) :
  triple (R e) (raise e) Q R.
Proof. intros w H. exact H. Qed.

(** A pure step: the state is untouched. *)
Lemma triple_lift {A} (r : result A) (P : world -> Prop) (Q : A -> world -> Prop) R :
  (forall w, P w -> match r with
                    | Ok a => Q a w
                    | Raise e => R e w
                    end) ->
  triple P (lift r) Q R.
Proof. intros H w Hw. unfold lift. specialize (H w Hw). now destruct r. Qed.

(** The loop rule: the invariant is indexed by the items already
    processed. *)
Lemma triple_foldM_from {A S} (f : S -> A -> M S)
      (Inv : list A -> S -> world -> Prop) R (l done : list A) :
  (forall pre x s, (exists post, done ++ l = pre ++ x :: post) ->
                   triple (Inv pre s) (f s x) (Inv (pre ++ [x])) R) ->
  forall s, triple (Inv done s) (foldM f s l) (Inv (done ++ l)) R.
Proof.
  revert done; induction l as [|x t IH]; intros done Hf s.
  - simpl. rewrite app_nil_r. apply triple_ret.
  - simpl. eapply triple_bind.
    + apply Hf. now exists t.
    + intros s'. replace (done ++ x :: t) with ((done ++ [x]) ++ t)
        by (now rewrite <- app_assoc).
      apply IH. intros pre y s0 [post E]. apply Hf. exists post.
      now rewrite <- E, <- app_assoc.
Qed.

Lemma triple_foldM {A S} (f : S -> A -> M S)
      (Inv : list A -> S -> world -> Prop) R (l : list A) :
  (forall pre x s, (exists post, l = pre ++ x :: post) ->
                   triple (Inv pre s) (f s x) (Inv (pre ++ [x])) R) ->
  forall s, triple (Inv [] s) (foldM f s l) (Inv l) R.
Proof. intros H s. exact (triple_foldM_from f Inv R l [] H s). Qed.

(** *** Steps that only extend the log by admissible events *)
Variable ok : event -> Prop.
Variable log0 : list event.

Lemma extends_ok_same (w w' : world) :
  w_log w' = w_log w -> extends_ok ok log0 w -> extends_ok ok log0 w'.
Proof. intros E (new & H1 & H2). exists new. now rewrite E. Qed.

Lemma extends_ok_snoc (w w' : world) (ev : event) :
  w_log w' = w_log w ++ [ev] -> ok ev ->
  extends_ok ok log0 w -> extends_ok ok log0 w'.
Proof.
  intros E Hev (new & H1 & H2). exists (new ++ [ev]). split.
  - now rewrite E, H1, app_assoc.
  - apply Forall_app. split; [exact H2 | now constructor].
Qed.
End Triples.

(** ** Errors of the pure steps *)
Section PureSteps.
Context {B : Backend}.

Lemma argmax_raise (row : list num) (e : exn) :
  argmax row = Raise e -> e = RuntimeError.
Proof.
  unfold argmax. destruct (enumerate row); intros H; [congruence | discriminate].
Qed.

Lemma mapR_raise {X Y} (f : X -> result Y) (P : exn -> Prop) (l : list X) (e : exn) :
  (forall x e', f x = Raise e' -> P e') -> mapR f l = Raise e -> P e.
Proof.
  intros Hf. induction l as [|x t IH]; simpl; [discriminate |].
  destruct (f x) eqn:E; [| intros [= <-]; eauto].
  destruct (mapR f t); [discriminate | intros [= <-]; auto].
Qed.

Lemma count_equal_raise (a b : list Z) (e : exn) :
  count_equal a b = Raise e -> e = RuntimeError.
Proof.
  unfold count_equal. destruct (_ =? _)%nat; [congruence |].
  destruct a as [|x [|x' a]], b as [|y [|y' b]]; congruence.
Qed.

Lemma py_div_raise (a : pyval) (d : Z) (e : exn) :
  py_div a d = Raise e -> e = ZeroDivisionError /\ d = 0%Z /\ exists x, a = PyNum x.
Proof.
  destruct a as [x | x]; simpl; [| discriminate].
  destruct (Z.eqb_spec d 0); [| discriminate].
  intros [= <-]. eauto.
Qed.

Lemma mode_first_row_raise (a : list (list Z)) (e : exn) :
  mode_first_row a = Raise e -> e = IndexError.
Proof. unfold mode_first_row. destruct (fst (stats_mode a)); congruence. Qed.

(** The name [fit] builds with [%] is the documented one. *)
Lemma checkpoint_name_documented (save_path : string) (epoch : Z)
      (train_loss valid_loss train_accuracy valid_acc : num) :
  checkpoint_name save_path epoch train_loss valid_loss train_accuracy valid_acc
  = Ok (documented_name save_path (epoch + 1) train_loss valid_loss
                        train_accuracy valid_acc).
Proof. reflexivity. Qed.
End PureSteps.

(** ** What every run of the wrapper respects *)
Section Soundness.
Context {B : Backend}.
Variable ok : event -> Prop.
Variable log0 : list event.
Hypothesis ok_print : ok EvPrint.
Hypothesis ok_iter : forall s, ok (EvIter s).
Hypothesis ok_step : ok EvStep.
Hypothesis ok_plot : forall a b, ok (EvPlot a b).

Lemma sound_bind {A C} (m : M A) (k : A -> M C) :
  sound ok log0 m -> (forall a, sound ok log0 (k a)) -> sound ok log0 (bind m k).
Proof. intros Hm Hk. eapply triple_bind; [exact Hm | exact Hk]. Qed.

Lemma sound_bind_ok {A C} (a : A) (k : A -> M C) :
  sound ok log0 (k a) -> sound ok log0 (bind (lift (Ok a)) k).
Proof. intros H w Hw. exact (H w Hw). Qed.

(** A step that leaves the log alone. *)
Lemma sound_silent {A} (m : M A) :
  (forall w, w_log (snd (m w)) = w_log w) ->
  (forall w e, fst (m w) = Raise e -> forall msg, e <> InvalidArguments msg) ->
  sound ok log0 m.
Proof.
  intros Hlog Herr w Hw. specialize (Hlog w). specialize (Herr w).
  destruct (m w) as [[a | e] w']; simpl in *.
  - eapply extends_ok_same; eauto.
  - split; [eapply extends_ok_same; eauto | now apply Herr].
Qed.

Lemma sound_ret {A} (a : A) : sound ok log0 (ret a).
Proof. apply sound_silent; [reflexivity | discriminate]. Qed.

Lemma sound_lift {A} (r : result A) :
  (forall e, r = Raise e -> forall msg, e <> InvalidArguments msg) ->
  sound ok log0 (lift r).
Proof. intros H. apply sound_silent; [reflexivity | intros w; exact H]. Qed.

Lemma sound_raise {A} (e : exn) :
  (forall msg, e <> InvalidArguments msg) -> sound ok log0 (@raise B A e).
Proof. intros H. apply sound_silent; [reflexivity | now intros w e' [= <-]]. Qed.

Lemma sound_emit (ev : event) : ok ev -> sound ok log0 (emit ev).
Proof. intros H w Hw. simpl. eapply extends_ok_snoc; eauto. reflexivity. Qed.

Lemma sound_set_training (b : bool) : sound ok log0 (set_training b).
Proof. apply sound_silent; [reflexivity | discriminate]. Qed.

Lemma sound_call_model (X : list image) : sound ok log0 (call_model X).
Proof. apply sound_silent; [reflexivity | discriminate]. Qed.

Lemma sound_augment (x : image) : sound ok log0 (augment x).
Proof.
  apply sound_silent; unfold augment; intros w; destruct (trfm (w_rng w) x);
    [reflexivity | discriminate].
Qed.

Lemma sound_foldM {A S} (f : S -> A -> M S) (l : list A) (s : S) :
  (forall s' x, In x l -> sound ok log0 (f s' x)) -> sound ok log0 (foldM f s l).
Proof.
  intros Hf. unfold sound.
  apply (triple_foldM f (fun _ _ => extends_ok ok log0)).
  intros pre x s' [post E]. apply Hf. rewrite E. apply in_elt.
Qed.

Lemma sound_call_loss l scores y : sound ok log0 (call_loss l scores y).
Proof. destruct l; [now apply sound_raise | apply sound_ret]. Qed.

Lemma sound_predict (X : list image) : sound ok log0 (predict X).
Proof.
  unfold predict. apply sound_bind; [apply sound_set_training | intros _].
  apply sound_bind; [apply sound_call_model | intros scores].
  apply sound_lift. intros e He msg.
  apply (mapR_raise argmax (fun e => e = RuntimeError)) in He; [congruence |].
  apply argmax_raise.
Qed.

Lemma sound_tta_sample (x : image) : sound ok log0 (tta_sample x).
Proof.
  unfold tta_sample.
  do 5 (apply sound_bind; [apply sound_augment | intros ?]).
  do 5 (apply sound_bind; [apply sound_predict | intros ?]).
  apply sound_lift. intros e He msg. apply mode_first_row_raise in He. congruence.
Qed.

Lemma sound_eval_batch lc TTA acc b : sound ok log0 (eval_batch lc TTA acc b).
Proof.
  destruct acc as [[[y_true y_pred] eval_loss_sum] batch_count], b as [X y].
  unfold eval_batch. destruct TTA.
  - apply sound_bind; [| intros ?; apply sound_ret].
    apply sound_foldM. intros s' x _.
    apply sound_bind; [apply sound_tta_sample | intros ?; apply sound_ret].
  - apply sound_bind; [apply sound_predict | intros p].
    apply sound_bind; [| intros ?; apply sound_ret].
    destruct lc as [l |]; [| apply sound_ret].
    destruct (truthy_loss (Some l)); [| apply sound_ret].
    apply sound_bind; [apply sound_set_training | intros _].
    apply sound_bind; [apply sound_call_model | intros scores].
    apply sound_bind; [apply sound_call_loss | intros v; apply sound_ret].
Qed.

Lemma sound_evaluation test_iter score lc TTA :
  sound ok log0 (evaluation test_iter score lc TTA).
Proof.
  unfold evaluation. apply sound_bind; [now apply sound_emit | intros _].
  apply sound_bind; [apply sound_foldM; intros; apply sound_eval_batch |].
  intros [[[y_true y_pred] eval_loss_sum] batch_count].
  destruct (truthy_loss lc); [| apply sound_ret].
  apply sound_bind; [| intros ?; apply sound_ret].
  apply sound_lift. intros e He msg. apply py_div_raise in He.
  destruct He as [-> _]. discriminate.
Qed.

Lemma sound_optimizer_update o l X y : sound ok log0 (optimizer_update o l X y).
Proof.
  destruct o as [s | step]; [now apply sound_raise |].
  destruct l as [s | f]; [now apply sound_raise |].
  intros w Hw. simpl. eapply extends_ok_snoc; eauto. reflexivity.
Qed.

Lemma sound_train_batch l o acc b : sound ok log0 (train_batch l o acc b).
Proof.
  destruct acc as [[[n batch_count] train_loss_sum] train_acc_sum], b as [X y].
  unfold train_batch.
  apply sound_bind; [apply sound_call_model | intros y_pred].
  apply sound_bind; [apply sound_call_loss | intros loss].
  apply sound_bind; [apply sound_optimizer_update | intros _].
  apply sound_bind.
  { apply sound_lift. intros e He msg.
    apply (mapR_raise argmax (fun e => e = RuntimeError)) in He; [congruence |].
    apply argmax_raise. }
  intros labels. apply sound_bind; [| intros ?; apply sound_ret].
  apply sound_lift. intros e He msg. apply count_equal_raise in He. congruence.
Qed.

Lemma sound_py_div (a : pyval) (d : Z) : sound ok log0 (lift (py_div a d)).
Proof.
  apply sound_lift. intros e He msg. apply py_div_raise in He.
  destruct He as [-> _]. discriminate.
Qed.

(** One epoch, for an epoch number whose documented checkpoint name is
    admissible. *)
Lemma sound_run_epoch tr va l o save_path lists epoch :
  (forall path a b c d st,
      save_path = Some path ->
      ok (EvSave (documented_name path (epoch + 1) a b c d) st)) ->
  sound ok log0 (run_epoch tr va l o save_path lists epoch).
Proof.
  intros Hsave. destruct lists as [train_acc_list valid_acc_list]. unfold run_epoch.
  apply sound_bind; [apply sound_set_training | intros _].
  apply sound_bind; [now apply sound_emit | intros _].
  apply sound_bind; [apply sound_foldM; intros; apply sound_train_batch |].
  intros [[[n batch_count] train_loss_sum] train_acc_sum].
  apply sound_bind; [apply sound_evaluation | intros r].
  apply sound_bind.
  { destruct r; [now apply sound_raise | apply sound_ret]. }
  intros [valid_acc valid_loss].
  apply sound_bind; [apply sound_py_div | intros train_accuracy].
  apply sound_bind; [apply sound_py_div | intros train_loss].
  apply sound_bind; [now apply sound_emit | intros _].
  destruct save_path as [path |]; [| apply sound_ret].
  destruct (truthy_str (Some path)); [| apply sound_ret].
  rewrite checkpoint_name_documented. apply sound_bind_ok.
  apply sound_bind; [| intros _; apply sound_ret].
  intros w Hw. simpl. eapply extends_ok_snoc; [reflexivity | | exact Hw].
  now apply Hsave.
Qed.
End Soundness.

(** ** [fit]: the argument check and the checkpoints *)
Section FitSound.
Context {B : Backend}.

Lemma sound_fit ok log0 (tr va : stream) lr l o n c save_path plot :
  ok EvPrint -> (forall s, ok (EvIter s)) -> ok EvStep -> (forall a b, ok (EvPlot a b)) ->
  (forall epoch path a b c' d st,
      In epoch (epoch_iter n c) -> save_path = Some path ->
      ok (EvSave (documented_name path (epoch + 1) a b c' d) st)) ->
  sound ok log0 (fit (Some tr) (Some va) lr l o n c save_path plot).
Proof.
  intros Hprint Hiter Hstep Hplot Hsave. unfold fit.
  apply sound_bind; [now apply sound_emit | intros _].
  apply sound_bind.
  - apply sound_foldM. intros lists epoch Hin.
    apply sound_run_epoch; auto.
  - intros [train_acc_list valid_acc_list].
    destruct plot; [now apply sound_emit | apply sound_ret].
Qed.

Lemma extends_ok_refl ok (w : world) : extends_ok ok (w_log w) w.
Proof. exists []. split; [now rewrite app_nil_r | constructor]. Qed.

Lemma fit_given_streams_no_InvalidArguments (tr va : stream) lr l o n c save_path plot w :
  ~ is_InvalidArguments (fst (fit (Some tr) (Some va) lr l o n c save_path plot w)).
Proof.
  pose proof (sound_fit (fun _ => True) (w_log w) tr va lr l o n c save_path plot
                        I (fun _ => I) I (fun _ _ => I)
                        (fun _ _ _ _ _ _ _ _ _ => I) w (extends_ok_refl _ w)) as H.
  intros [msg E].
  destruct (fit (Some tr) (Some va) lr l o n c save_path plot w) as [[a | e] w'];
    simpl in E; [discriminate |].
  injection E as ->. destruct H as [_ H]. now apply (H msg).
Qed.

Lemma fit_missing_stream (tr va : option stream) lr l o n c save_path plot w :
  tr = None \/ va = None ->
  fit tr va lr l o n c save_path plot w
  = (Raise (InvalidArguments "Must input training data and validation data!"),
     mkWorld (w_params w) (w_training w) (w_rng w) (w_log w ++ [EvPrint])).
Proof. intros [-> | ->]; [| destruct tr]; reflexivity. Qed.
End FitSound.

(** C1: [fit] raises [InvalidArguments] exactly when the training or the
    validation stream is [None]; in that case the parameters are the ones
    it was called with and the log has grown by the one [print] only, so
    no optimizer step was performed. *)
Theorem fit_InvalidArguments_iff {B : Backend}
        (tr va : option stream) lr l o n c save_path plot (w : world) :
  (is_InvalidArguments (fst (fit tr va lr l o n c save_path plot w))
   <-> tr = None \/ va = None) /\
  (tr = None \/ va = None ->
   w_params (snd (fit tr va lr l o n c save_path plot w)) = w_params w /\
   w_log (snd (fit tr va lr l o n c save_path plot w)) = w_log w ++ [EvPrint] /\
   steps (w_log (snd (fit tr va lr l o n c save_path plot w))) = steps (w_log w)).
Proof.
  split; [split |].
  - intros H. destruct tr as [tr |]; [| now left]. destruct va as [va |]; [| now right].
    exfalso. revert H. apply fit_given_streams_no_InvalidArguments.
  - intros H. rewrite (fit_missing_stream _ _ _ _ _ _ _ _ _ _ H). simpl.
    eexists. reflexivity.
  - intros H. rewrite (fit_missing_stream _ _ _ _ _ _ _ _ _ _ H). simpl.
    repeat split. unfold steps. rewrite filter_app, length_app. simpl. lia.
Qed.

Lemma fit_InvalidArguments_iff_witness :
  let tr : option (@stream Toy.backend) := None in
  let va := Some Toy.valid in
  let run := @fit Toy.backend tr va (1 # 100) Toy.loss_fn Toy.plain_step
                  2 None None false Toy.w0 in
  (is_InvalidArguments (fst run) <-> tr = None \/ va = None) /\
  (tr = None \/ va = None ->
   w_params (snd run) = w_params Toy.w0 /\
   w_log (snd run) = w_log Toy.w0 ++ [EvPrint] /\
   steps (w_log (snd run)) = steps (w_log Toy.w0)).
Proof.
  exact (@fit_InvalidArguments_iff Toy.backend None (Some Toy.valid) (1 # 100)
           Toy.loss_fn Toy.plain_step 2%Z None None false Toy.w0).
Defined.

(** ** [predict] *)
Section Predict.
Context {B : Backend}.

Lemma in_enumerate_from {A} (s : nat) (l : list A) (i : nat) (v : A) :
  In (i, v) (combine (seq s (List.length l)) l) <->
  exists k, i = (s + k)%nat /\ nth_error l k = Some v.
Proof.
  revert s; induction l as [|x t IH]; intros s; simpl.
  - split; [tauto | intros (k & _ & H); now destruct k].
  - rewrite IH. split.
    + intros [[= <- <-] | (k & -> & H)].
      * exists 0%nat. split; [lia | reflexivity].
      * exists (S k). split; [lia | exact H].
    + intros ([|k] & -> & H); simpl in H.
      * left. injection H as ->. f_equal. lia.
      * right. exists k. split; [lia | exact H].
Qed.

Lemma argmax_spec (row : list num) :
  (forall k, num_ltb k k = false) ->
  (forall a b c, num_ltb a b = true -> num_ltb b c = true -> num_ltb a c = true) ->
  row <> [] ->
  exists i v, argmax row = Ok (Z.of_nat i) /\ nth_error row i = Some v /\
              forall x, In x row -> num_ltb v x = false.
Proof.
  intros Hirr Htr Hne. unfold argmax.
  destruct (enumerate row) as [|b t] eqn:E.
  { destruct row; [congruence | discriminate]. }
  pose proof (scan_In snd num_ltb b t) as Hin. rewrite <- E in Hin.
  destruct (scan snd num_ltb b t) as [i v] eqn:Er.
  apply (in_enumerate_from 0) in Hin. destruct Hin as (k & Hk & Hv). simpl in Hk. subst k.
  exists i, v. split; [reflexivity |]. split; [exact Hv |].
  intros x Hx. apply In_nth_error in Hx. destruct Hx as [j Hj].
  assert (Hjx : In (j, x) (b :: t)).
  { rewrite <- E. apply (in_enumerate_from 0). now exists j. }
  pose proof (scan_max snd num_ltb Hirr Htr b t (j, x) Hjx) as H.
  now rewrite Er in H.
Qed.

Lemma mapR_Forall2 {X Y} (f : X -> result Y) (P : X -> Y -> Prop) (l : list X) :
  (forall x, In x l -> exists y, f x = Ok y /\ P x y) ->
  exists ys, mapR f l = Ok ys /\ Forall2 P l ys.
Proof.
  induction l as [|x t IH]; intros H; simpl.
  - exists []. split; [reflexivity | constructor].
  - destruct (H x (or_introl eq_refl)) as (y & Ey & Hy). rewrite Ey.
    destruct IH as (ys & Eys & Hys); [intros; apply H; now right |].
    rewrite Eys. exists (y :: ys). split; [reflexivity | now constructor].
Qed.

Lemma predict_run (X : list image) (w : world) :
  predict X w = (mapR argmax (forward false (w_params w) X),
                 mkWorld (w_params w) false (w_rng w) (w_log w)).
Proof. reflexivity. Qed.
End Predict.

(** C6: for a network that returns one row of [num_classes] scores per
    sample ([num_classes] positive, the scores ordered by a strict
    order), [predict] returns one label per sample of the batch; each
    label is an index into its sample's row, within [0, num_classes),
    and no score of the row exceeds the score at that index. *)
Theorem predict_argmax_labels {B : Backend} (num_classes : nat)
        (X : list image) (w : world) :
  (forall k, num_ltb k k = false) ->
  (forall a b c, num_ltb a b = true -> num_ltb b c = true -> num_ltb a c = true) ->
  (0 < num_classes)%nat ->
  List.length (forward false (w_params w) X) = List.length X ->
  Forall (fun row => List.length row = num_classes) (forward false (w_params w) X) ->
  exists labels,
    fst (predict X w) = Ok labels /\
    List.length labels = List.length X /\
    Forall2 (fun row l =>
               (0 <= l < Z.of_nat num_classes)%Z /\
               exists v, nth_error row (Z.to_nat l) = Some v /\
                         forall x, In x row -> num_ltb v x = false)
            (forward false (w_params w) X) labels.
Proof.
  intros Hirr Htr Hpos Hlen Hrows. rewrite predict_run. simpl fst.
  destruct (mapR_Forall2 argmax
              (fun row l =>
                 (0 <= l < Z.of_nat num_classes)%Z /\
                 exists v, nth_error row (Z.to_nat l) = Some v /\
                           forall x, In x row -> num_ltb v x = false)
              (forward false (w_params w) X)) as (labels & E & H).
  - intros row Hrow. rewrite Forall_forall in Hrows. specialize (Hrows row Hrow).
    destruct (argmax_spec row Hirr Htr) as (i & v & Ei & Hv & Hmax).
    { destruct row; [simpl in Hrows; lia | discriminate]. }
    exists (Z.of_nat i). split; [exact Ei |].
    assert (Hi : (i < List.length row)%nat) by (apply nth_error_Some; congruence).
    split; [lia |]. exists v. now rewrite Nat2Z.id.
  - exists labels. split; [exact E |]. split; [| exact H].
    rewrite <- Hlen. symmetry. eapply Forall2_length; eauto.
Qed.

Lemma predict_argmax_labels_witness :
  exists labels,
    fst (@predict Toy.backend [1; 5; 4]%Z Toy.w0) = Ok labels /\
    List.length labels = 3%nat /\
    Forall2 (fun row l =>
               (0 <= l < 2)%Z /\
               exists v, nth_error row (Z.to_nat l) = Some v /\
                         forall x, In x row -> Toy.ltb v x = false)
            (@forward Toy.backend false 3%Z [1; 5; 4]%Z) labels.
Proof.
  apply (@predict_argmax_labels Toy.backend 2 [1; 5; 4]%Z Toy.w0).
  - intros k. unfold num_ltb; simpl. unfold Toy.ltb.
    apply negb_false_iff, Qle_bool_iff, Qle_refl.
  - intros a b c. unfold num_ltb; simpl. unfold Toy.ltb.
    rewrite !negb_true_iff. intros Hab Hbc.
    destruct (Qle_bool c a) eqn:E; [| reflexivity].
    apply Qle_bool_iff in E.
    assert (Hba : ~ (b <= a)%Q) by (rewrite <- Qle_bool_iff; congruence).
    assert (Hcb : ~ (c <= b)%Q) by (rewrite <- Qle_bool_iff; congruence).
    apply Qnot_le_lt in Hba, Hcb. exfalso.
    apply (Qlt_irrefl a). eapply Qlt_le_trans; [| exact E].
    eapply Qlt_trans; eauto.
  - lia.
  - reflexivity.
  - repeat constructor.
Defined.

(** ** [evaluation] with test-time augmentation *)
Section TTA.
Context {B : Backend}.

Lemma bind_ok {A C} (m : M A) (k : A -> M C) (w w' : world) (a : A) :
  m w = (Ok a, w') -> bind m k w = k a w'.
Proof. intros E. unfold bind. now rewrite E. Qed.

Lemma bind_raise {A C} (m : M A) (k : A -> M C) (w w' : world) (e : exn) :
  m w = (Raise e, w') -> bind m k w = (Raise e, w').
Proof. intros E. unfold bind. now rewrite E. Qed.

Lemma augment_run (x x' : image) (w : world) (g' : rng) :
  trfm (w_rng w) x = (x', g') ->
  augment x w = (Ok x', mkWorld (w_params w) (w_training w) g' (w_log w)).
Proof. intros E. unfold augment. now rewrite E. Qed.

Lemma argmax_ok (row : list num) : row <> [] -> exists l, argmax row = Ok l.
Proof.
  intros H. unfold argmax. destruct row; [congruence |]. simpl. eauto.
Qed.

Lemma predict_single_batch (p : params) (x : image) :
  single_row ->
  exists l, predict_single p x = Ok l /\
            forall t g lg, predict [x] (mkWorld p t g lg) = (Ok [l], mkWorld p false g lg).
Proof.
  intros Hs. destruct (Hs p x) as (row & E & Hne).
  destruct (argmax_ok row Hne) as (l & El). exists l. split.
  - unfold predict_single. now rewrite E.
  - intros t g lg. rewrite predict_run. simpl w_params. rewrite E. simpl. now rewrite El.
Qed.

Lemma tta_sample_run (x : image) (p : params) (t : bool) (g : rng) (lg : list event) :
  single_row ->
  exists copies g' preds m,
    draws 5 g x = (copies, g') /\
    List.length copies = 5%nat /\
    mapR (predict_single p) copies = Ok preds /\
    is_mode m preds /\
    tta_sample x (mkWorld p t g lg) = (Ok (LabArr [m]), mkWorld p false g' lg).
Proof.
  intros Hs.
  destruct (trfm g x) as [x1 g1] eqn:E1. destruct (trfm g1 x) as [x2 g2] eqn:E2.
  destruct (trfm g2 x) as [x3 g3] eqn:E3. destruct (trfm g3 x) as [x4 g4] eqn:E4.
  destruct (trfm g4 x) as [x5 g5] eqn:E5.
  destruct (predict_single_batch p x1 Hs) as (l1 & P1 & R1).
  destruct (predict_single_batch p x2 Hs) as (l2 & P2 & R2).
  destruct (predict_single_batch p x3 Hs) as (l3 & P3 & R3).
  destruct (predict_single_batch p x4 Hs) as (l4 & P4 & R4).
  destruct (predict_single_batch p x5 Hs) as (l5 & P5 & R5).
  destruct (tta_reduction_smallest_mode [l1; l2; l3; l4; l5]) as (m & Em & Hm & _);
    [discriminate |].
  exists [x1; x2; x3; x4; x5], g5, [l1; l2; l3; l4; l5], m.
  split; [simpl; now rewrite E1, E2, E3, E4, E5 |].
  split; [reflexivity |].
  split; [simpl; now rewrite P1, P2, P3, P4, P5 |].
  split; [exact Hm |].
  unfold tta_sample.
  rewrite (bind_ok _ _ _ _ _ (augment_run x x1 (mkWorld p t g lg) g1 E1)).
  rewrite (bind_ok _ _ _ _ _ (augment_run x x2 (mkWorld p t g1 lg) g2 E2)).
  rewrite (bind_ok _ _ _ _ _ (augment_run x x3 (mkWorld p t g2 lg) g3 E3)).
  rewrite (bind_ok _ _ _ _ _ (augment_run x x4 (mkWorld p t g3 lg) g4 E4)).
  rewrite (bind_ok _ _ _ _ _ (augment_run x x5 (mkWorld p t g4 lg) g5 E5)).
  cbn [w_params w_training w_rng w_log].
  rewrite (bind_ok _ _ _ _ _ (R1 t g5 lg)).
  rewrite (bind_ok _ _ _ _ _ (R2 false g5 lg)).
  rewrite (bind_ok _ _ _ _ _ (R3 false g5 lg)).
  rewrite (bind_ok _ _ _ _ _ (R4 false g5 lg)).
  rewrite (bind_ok _ _ _ _ _ (R5 false g5 lg)).
  unfold lift. simpl map in Em. now rewrite Em.
Qed.

Lemma tta_spec_app p g xs es g' ys fs g'' :
  tta_spec p g xs es g' -> tta_spec p g' ys fs g'' ->
  tta_spec p g (xs ++ ys) (es ++ fs) g''.
Proof.
  induction 1; intros H'; simpl; [exact H' |].
  econstructor; eauto.
Qed.

Lemma tta_samples_total (p : params) (g : rng) (lg : list event)
      (X : list image) (y_pred : list label_entry) :
  single_row ->
  triple (at_state p g lg)
         (foldM (fun y_pred single_X =>
                   l <- tta_sample single_X ;; ret (y_pred ++ [l])) y_pred X)
         (fun y_pred' w' => exists es g', tta_spec p g X es g' /\
                                          y_pred' = y_pred ++ es /\ at_state p g' lg w')
         (fun _ _ => False).
Proof.
  intros Hs.
  eapply triple_weaken;
    [apply (triple_foldM _ (fun pre y_pred' w' =>
              exists es g', tta_spec p g pre es g' /\
                            y_pred' = y_pred ++ es /\ at_state p g' lg w')
              (fun _ _ => False)) | | intros a w H; exact H | intros e w H; exact H].
  - intros pre x s _ w (es & g' & Hspec & -> & Hp & Hg & Hl).
    destruct w as [p0 t0 g0 lg0]. simpl in Hp, Hg, Hl. subst p0 g0 lg0.
    destruct (tta_sample_run x p t0 g' lg Hs) as (copies & g'' & preds & m & D & L & P & Hm & R).
    rewrite (bind_ok _ _ _ _ _ R). simpl.
    exists (es ++ [LabArr [m]]), g''. split; [| split; [now rewrite app_assoc | now repeat split]].
    eapply tta_spec_app; [exact Hspec |]. econstructor; eauto. constructor.
  - intros w (Hp & Hg & Hl). exists [], g. split; [constructor |].
    split; [now rewrite app_nil_r | now repeat split].
Qed.

(** The accumulators of the TTA loop over the batches. *)
Lemma tta_batches_total (p : params) (g : rng) (lg : list event)
      (lc : option loss_arg) (batches : list (list image * list Z)) :
  single_row ->
  triple (at_state p g lg)
         (foldM (eval_batch lc true) ([], [], PyNum (num_of_Z 0), 0%Z) batches)
         (fun acc w' => exists es g',
              tta_spec p g (concat (map fst batches)) es g' /\
              acc = (concat (map snd batches), es, PyNum (num_of_Z 0), 0%Z) /\
              at_state p g' lg w')
         (fun _ _ => False).
Proof.
  intros Hs.
  eapply triple_weaken;
    [apply (triple_foldM _ (fun pre acc w' =>
              exists es g', tta_spec p g (concat (map fst pre)) es g' /\
                            acc = (concat (map snd pre), es, PyNum (num_of_Z 0), 0%Z) /\
                            at_state p g' lg w')
              (fun _ _ => False)) | | intros a w H; exact H | intros e w H; exact H].
  - intros pre [X y] acc _ w (es & g' & Hspec & -> & Hw).
    unfold eval_batch.
    pose proof (tta_samples_total p g' lg X es Hs w Hw) as H.
    unfold bind at 1.
    destruct (foldM _ es X w) as [[y_pred' | e] w']; [| contradiction].
    destruct H as (fs & g'' & Hspec' & -> & Hw'). simpl.
    exists (es ++ fs), g''. rewrite !map_app, !concat_app. simpl. rewrite !app_nil_r.
    split; [eapply tta_spec_app; eauto | split; [reflexivity | exact Hw']].
  - intros w Hw. exists [], g. split; [constructor | split; [reflexivity | exact Hw]].
Qed.
End TTA.

(** C4: with TTA, the predictions [evaluation] scores are, sample by
    sample, built from exactly five copies of the sample, each drawn
    from the sample itself by the augmentation pipeline, each predicted
    on its own as a batch of one; the entry of the sample holds a most
    frequent one of the five predictions.  (The call returns the score
    of these predictions when no loss is given.) *)
Theorem evaluation_TTA_mode_of_five {B : Backend} (test_iter : stream) (score : string)
        (lc : option loss_arg) (w : world) :
  single_row ->
  exists y_pred g',
    tta_spec (w_params w) (w_rng w) (concat (map fst (s_batches test_iter))) y_pred g' /\
    fst (evaluation test_iter score lc true w)
    = if truthy_loss lc then Raise ZeroDivisionError
      else Ok (ScoreOnly (calculate_classification_score
                            (concat (map snd (s_batches test_iter))) y_pred score)).
Proof.
  intros Hs. unfold evaluation.
  set (w1 := mkWorld (w_params w) (w_training w) (w_rng w)
                     (w_log w ++ [EvIter (s_name test_iter)])).
  assert (E1 : emit (EvIter (s_name test_iter)) w = (Ok tt, w1)) by reflexivity.
  rewrite (bind_ok _ _ _ _ _ E1).
  pose proof (tta_batches_total (w_params w) (w_rng w) (w_log w1) lc
                                (s_batches test_iter) Hs w1) as H.
  specialize (H (conj eq_refl (conj eq_refl eq_refl))).
  unfold bind at 1.
  destruct (foldM _ _ (s_batches test_iter) w1) as [[acc | e] w2]; [| contradiction].
  destruct H as (es & g' & Hspec & -> & _).
  exists es, g'. split; [exact Hspec |].
  destruct (truthy_loss lc); [| reflexivity].
  unfold bind, lift. simpl. reflexivity.
Qed.

Lemma evaluation_TTA_mode_of_five_witness :
  exists y_pred g',
    tta_spec (w_params Toy.w0) (w_rng Toy.w0)
             (concat (map fst (s_batches Toy.valid))) y_pred g' /\
    fst (@evaluation Toy.backend Toy.valid "Accuracy" None true Toy.w0)
    = Ok (ScoreOnly (calculate_classification_score
                       (concat (map snd (s_batches Toy.valid))) y_pred "Accuracy")).
Proof.
  apply (@evaluation_TTA_mode_of_five Toy.backend Toy.valid "Accuracy" None Toy.w0).
  intros p x. eexists. split; [reflexivity | discriminate].
Defined.

(** ** [evaluation] with TTA and a loss function *)

Lemma tta_batches_keep {B : Backend} (lc : option loss_arg)
      (batches : list (list image * list Z)) :
  triple (fun _ => True)
         (foldM (eval_batch lc true) ([], [], PyNum (num_of_Z 0), 0%Z) batches)
         (fun acc _ => exists y_true y_pred, acc = (y_true, y_pred, PyNum (num_of_Z 0), 0%Z))
         (fun _ _ => True).
Proof.
  eapply triple_weaken;
    [apply (triple_foldM _ (fun _ acc _ =>
              exists y_true y_pred, acc = (y_true, y_pred, PyNum (num_of_Z 0), 0%Z))
              (fun _ _ => True)) | | intros a w H; exact H | intros; exact I].
  - intros pre [X y] acc _ w (y_true & y_pred & ->). unfold eval_batch, bind.
    destruct (foldM _ y_pred X w) as [[y_pred' | e] w']; simpl; eauto.
  - intros w _. now exists [], [].
Qed.

(** C3 (the code against the claim): with TTA and a loss function the
    loop neither counts batches nor accumulates a loss, and
    [eval_loss_sum / batch_count] is [0 / 0]: the call never returns a
    pair; on a stream of one batch it raises [ZeroDivisionError]. *)
Theorem evaluation_TTA_with_loss_raises :
  (forall (B : Backend) (test_iter : stream) (score : string) f (w : world),
      exists e, fst (evaluation test_iter score (Some (LossFn f)) true w) = Raise e) /\
  fst (@evaluation Toy.backend Toy.valid "Accuracy" (Some Toy.loss_fn) true Toy.w0)
  = Raise ZeroDivisionError.
Proof.
  split; [| vm_compute; reflexivity].
  intros B test_iter score f w. unfold evaluation.
  unfold bind at 1. simpl emit.
  pose proof (tta_batches_keep (Some (LossFn f)) (s_batches test_iter)) as H.
  unfold emit. set (w1 := mkWorld _ _ _ _). specialize (H w1 I).
  unfold bind at 1.
  destruct (foldM _ _ (s_batches test_iter) w1) as [[acc | e] w2]; [| simpl; eauto].
  destruct H as (y_true & y_pred & ->). simpl. eauto.
Qed.

(** ** Stepping through a call *)
Section Steps.
Context {B : Backend}.

Lemma bind_ret {A C} (a : A) (k : A -> M C) (w : world) : bind (ret a) k w = k a w.
Proof. reflexivity. Qed.

Lemma bind_assoc {A C D} (m : M A) (k1 : A -> M C) (k2 : C -> M D) (w : world) :
  bind (bind m k1) k2 w = bind m (fun a => bind (k1 a) k2) w.
Proof. unfold bind. destruct (m w) as [[a | e] w']; reflexivity. Qed.

Lemma bind_lift_ok {A C} (a : A) (k : A -> M C) (w : world) :
  bind (lift (Ok a)) k w = k a w.
Proof. reflexivity. Qed.

Lemma bind_set_training {C} (b : bool) (k : unit -> M C) (w : world) :
  bind (set_training b) k w = k tt (mkWorld (w_params w) b (w_rng w) (w_log w)).
Proof. reflexivity. Qed.

Lemma bind_emit {C} (ev : event) (k : unit -> M C) (w : world) :
  bind (emit ev) k w
  = k tt (mkWorld (w_params w) (w_training w) (w_rng w) (w_log w ++ [ev])).
Proof. reflexivity. Qed.

Lemma bind_call_model {C} (X : list image) (k : list (list num) -> M C) (w : world) :
  bind (call_model X) k w = k (forward (w_training w) (w_params w) X) w.
Proof. reflexivity. Qed.

Lemma iters_app (l1 l2 : list event) : iters (l1 ++ l2) = iters l1 ++ iters l2.
Proof. apply flat_map_app. Qed.

Lemma mapR_argmax_ok (rows : list (list num)) :
  Forall (fun row => row <> []) rows ->
  exists labels, mapR argmax rows = Ok labels /\ List.length labels = List.length rows.
Proof.
  intros H.
  destruct (mapR_Forall2 argmax (fun _ _ => True) rows) as (labels & E & F).
  - intros row Hrow. rewrite Forall_forall in H.
    destruct (argmax_ok row (H row Hrow)) as [l El]. eauto.
  - exists labels. split; [exact E |]. symmetry. eapply Forall2_length; eauto.
Qed.

Lemma predict_ok (X : list image) (w : world) :
  row_per_sample ->
  exists labels,
    predict X w = (Ok labels, mkWorld (w_params w) false (w_rng w) (w_log w)) /\
    List.length labels = List.length X.
Proof.
  intros Hr. destruct (Hr false (w_params w) X) as [Hlen Hne].
  destruct (mapR_argmax_ok _ Hne) as (labels & E & L).
  exists labels. rewrite predict_run, E. split; [reflexivity | congruence].
Qed.

Lemma fold_py_add_tensor (l : list pyval) (init : pyval) :
  l <> [] -> (forall e, In e l -> exists v, e = Tensor v) ->
  exists x, fold_left py_add l init = Tensor x.
Proof.
  revert init; induction l as [|e t IH]; intros init Hne Hl; [congruence |].
  simpl. destruct (Hl e (or_introl eq_refl)) as [v ->].
  destruct t as [|e' t'].
  - simpl. destruct init; simpl; eauto.
  - apply IH; [discriminate | intros; apply Hl; now right].
Qed.

Lemma accumulated_loss_tensor f p batches :
  batches <> [] -> exists x, accumulated_loss f p batches = Tensor x.
Proof.
  intros H. unfold accumulated_loss. apply fold_py_add_tensor.
  - destruct batches; [congruence | discriminate].
  - intros e He. apply in_map_iff in He. destruct He as (b & <- & _). eauto.
Qed.

Lemma accumulated_loss_snoc f p pre b :
  accumulated_loss f p (pre ++ [b])
  = py_add (accumulated_loss f p pre) (Tensor (f (forward false p (fst b)) (snd b))).
Proof. unfold accumulated_loss. now rewrite map_app, fold_left_app. Qed.

(** Without TTA and with a loss function, [evaluation] returns the
    score together with the accumulated loss divided by the number of
    batches. *)
Lemma evaluation_plain_run (test_iter : stream) (score : string) f (w : world) :
  row_per_sample ->
  s_batches test_iter <> [] ->
  exists y_pred x,
    accumulated_loss f (w_params w) (s_batches test_iter) = Tensor x /\
    evaluation test_iter score (Some (LossFn f)) false w
    = (Ok (ScoreLoss
             (calculate_classification_score
                (concat (map snd (s_batches test_iter))) y_pred score)
             (Tensor (num_div x (Z.of_nat (List.length (s_batches test_iter)))))),
       mkWorld (w_params w) false (w_rng w) (w_log w ++ [EvIter (s_name test_iter)])).
Proof.
  intros Hr Hne. unfold evaluation. rewrite bind_emit.
  set (p := w_params w). set (g := w_rng w).
  set (lg := w_log w ++ [EvIter (s_name test_iter)]).
  set (w1 := mkWorld p (w_training w) g lg).
  assert (H : triple
                (fun w' => w' = w1)
                (foldM (eval_batch (Some (LossFn f)) false)
                       ([], [], PyNum (num_of_Z 0), 0%Z) (s_batches test_iter))
                (fun acc w' =>
                   (exists y_pred,
                       acc = (concat (map snd (s_batches test_iter)), y_pred,
                              accumulated_loss f p (s_batches test_iter),
                              Z.of_nat (List.length (s_batches test_iter)))) /\
                   w' = mkWorld p false g lg)
                (fun _ _ => False)).
  { eapply triple_weaken;
      [apply (triple_foldM _ (fun pre acc w' =>
                (exists y_pred,
                    acc = (concat (map snd pre), y_pred, accumulated_loss f p pre,
                           Z.of_nat (List.length pre))) /\
                w' = mkWorld p (match pre with [] => w_training w | _ => false end) g lg)
                (fun _ _ => False))
      | | | intros e w' F; exact F].
    - intros pre [X y] acc _ w' ((y_pred & ->) & ->).
      unfold eval_batch.
      destruct (predict_ok X (mkWorld p (match pre with [] => w_training w | _ => false end) g lg) Hr)
        as (labels & E & _).
      rewrite (bind_ok _ _ _ _ _ E). cbn [w_params w_rng w_log truthy_loss].
      rewrite bind_assoc, bind_set_training, bind_assoc, bind_call_model.
      cbn [w_params w_training w_rng w_log call_loss].
      rewrite bind_assoc, !bind_ret. unfold ret. split.
      + exists (y_pred ++ map Lab labels).
        rewrite map_app, concat_app, accumulated_loss_snoc, length_app. simpl.
        rewrite app_nil_r. do 2 f_equal. lia.
      + destruct pre; reflexivity.
    - intros w' ->. split; [now exists [] | reflexivity].
    - intros acc w' [H1 H2]. split; [exact H1 |].
      rewrite H2. destruct (s_batches test_iter); [congruence | reflexivity]. }
  specialize (H w1 eq_refl). unfold bind at 1.
  destruct (foldM _ _ (s_batches test_iter) w1) as [[acc | e] w2]; [| contradiction].
  destruct H as [(y_pred & ->) ->].
  destruct (accumulated_loss_tensor f p (s_batches test_iter) Hne) as [x Ex].
  exists y_pred, x. split; [exact Ex |].
  cbn [truthy_loss]. rewrite Ex. reflexivity.
Qed.
End Steps.

Lemma epoch_iter_length (num_epochs : Z) (checkpoint_epochs : option Z) :
  List.length (epoch_iter num_epochs checkpoint_epochs)
  = scheduled_epochs num_epochs checkpoint_epochs.
Proof.
  unfold epoch_iter, scheduled_epochs, py_range.
  destruct checkpoint_epochs as [c |]; simpl.
  - destruct (Z.eqb_spec c 0); simpl; rewrite length_map, length_seq; f_equal; lia.
  - rewrite length_map, length_seq. f_equal. lia.
Qed.

(** ** [fit] on well-formed streams *)
Section FitTotal.
Context {B : Backend}.
Hypothesis rows : row_per_sample.
Variable f : list (list num) -> list Z -> num.
Variable step : grads -> params -> params.

Lemma bind_optimizer_update {C} X y (k : unit -> M C) (w : world) :
  bind (optimizer_update (OptObj step) (LossFn f) X y) k w
  = k tt (mkWorld (step (backward f (w_training w) (w_params w) X y) (w_params w))
                  (w_training w) (w_rng w) (w_log w ++ [EvStep])).
Proof. reflexivity. Qed.

Lemma train_batch_run n bc a ta X y (w : world) :
  List.length X = List.length y ->
  exists a' t',
    train_batch (LossFn f) (OptObj step) (n, bc, PyNum a, ta) (X, y) w
    = (Ok ((n + Z.of_nat (List.length y))%Z, (bc + 1)%Z, PyNum a', Tensor t'),
       mkWorld (step (backward f (w_training w) (w_params w) X y) (w_params w))
               (w_training w) (w_rng w) (w_log w ++ [EvStep])).
Proof.
  intros Hlen. unfold train_batch.
  rewrite bind_call_model. cbn [call_loss]. rewrite bind_ret, bind_optimizer_update.
  destruct (rows (w_training w) (w_params w) X) as [Hl Hne].
  destruct (mapR_argmax_ok _ Hne) as (labels & E & L).
  rewrite E, bind_lift_ok. unfold count_equal.
  replace (List.length labels =? List.length y)%nat with true
    by (symmetry; apply Nat.eqb_eq; congruence).
  rewrite bind_lift_ok. unfold ret.
  destruct ta; simpl; eauto.
Qed.

Lemma saves_app (l1 l2 : list event) : saves (l1 ++ l2) = saves l1 ++ saves l2.
Proof. apply flat_map_app. Qed.

Lemma train_loop_total (L S : list string) (batches : list (list image * list Z)) :
  (forall X y, In (X, y) batches -> List.length X = List.length y) ->
  triple (logged L S)
         (foldM (train_batch (LossFn f) (OptObj step))
                (0%Z, 0%Z, PyNum (num_of_Z 0), PyNum (num_of_Z 0)) batches)
         (fun acc w' =>
            logged L S w' /\
            exists n a t, acc = (n, Z.of_nat (List.length batches), PyNum a, t) /\
                          (batches <> [] -> exists x, t = Tensor x))
         (fun _ _ => False).
Proof.
  intros Hlab.
  eapply triple_weaken;
    [apply (triple_foldM _ (fun pre acc w' =>
              logged L S w' /\
              exists n a t, acc = (n, Z.of_nat (List.length pre), PyNum a, t) /\
                            (pre <> [] -> exists x, t = Tensor x))
              (fun _ _ => False))
    | | intros a w H; exact H | intros e w H; exact H].
  - intros pre [X y] acc [post Epost] w ([Hi Hs] & n & a & t & -> & _).
    destruct (train_batch_run n (Z.of_nat (List.length pre)) a t X y w) as (a' & t' & E).
    { apply Hlab. rewrite Epost. apply in_elt. }
    rewrite E. split.
    + split; cbn [w_log]; [rewrite iters_app, Hi | rewrite saves_app, Hs];
        simpl; apply app_nil_r.
    + exists (n + Z.of_nat (List.length y))%Z, a', (Tensor t'). split; [| eauto].
      rewrite length_app. simpl. do 3 f_equal. lia.
  - intros w Hw. split; [exact Hw |].
    exists 0%Z, (num_of_Z 0), (PyNum (num_of_Z 0)). split; [reflexivity | congruence].
Qed.

Lemma run_epoch_total (L S : list string) (tr va : stream)
      (save_path : option string) lists (epoch : Z) :
  labelled tr -> s_batches tr <> [] -> s_batches va <> [] ->
  triple (logged L S)
         (run_epoch tr va (LossFn f) (OptObj step) save_path lists epoch)
         (fun _ w' =>
            iters (w_log w') = L ++ [s_name tr; s_name va] /\
            exists new, saves (w_log w') = S ++ new /\
                        checkpoints_of save_path [epoch] new)
         (fun _ _ => False).
Proof.
  intros Hlab Htr Hva w [Hi Hs]. destruct lists as [train_acc_list valid_acc_list].
  unfold run_epoch. rewrite bind_set_training, bind_emit.
  set (w1 := mkWorld _ _ _ _).
  pose proof (train_loop_total (L ++ [s_name tr]) S (s_batches tr) Hlab w1) as H.
  assert (Hw1 : logged (L ++ [s_name tr]) S w1).
  { unfold w1. split; cbn [w_log]; [now rewrite iters_app, Hi |].
    rewrite saves_app, Hs. apply app_nil_r. }
  specialize (H Hw1). unfold bind at 1.
  destruct (foldM _ _ (s_batches tr) w1) as [[acc | e] w2]; [| contradiction].
  destruct H as ([Hi2 Hs2] & n & a & t & -> & Ht).
  destruct (Ht Htr) as [x ->].
  destruct (evaluation_plain_run va "Accuracy" f w2 rows Hva) as (y_pred & v & _ & E).
  rewrite (bind_ok _ _ _ _ _ E). cbn [unpack]. rewrite bind_ret.
  cbn [py_div]. rewrite bind_lift_ok.
  destruct (Z.eqb_spec (Z.of_nat (List.length (s_batches tr))) 0) as [E0 | _].
  { destruct (s_batches tr); [congruence | simpl in E0; lia]. }
  rewrite bind_lift_ok, bind_emit. cbn [w_params w_training w_rng w_log].
  assert (Hfi : iters (((w_log w2 ++ [EvIter (s_name va)]) ++ [EvPrint]))
                = L ++ [s_name tr; s_name va]).
  { rewrite !iters_app, Hi2. simpl. now rewrite app_nil_r, <- app_assoc. }
  assert (Hfs : saves (((w_log w2 ++ [EvIter (s_name va)]) ++ [EvPrint])) = S).
  { rewrite !saves_app, Hs2. simpl. now rewrite !app_nil_r. }
  unfold checkpoints_of.
  destruct save_path as [path |];
    [| split; [exact Hfi | exists []; now rewrite app_nil_r]].
  destruct (truthy_str (Some path));
    [| split; [exact Hfi | exists []; now rewrite app_nil_r]].
  rewrite checkpoint_name_documented, bind_lift_ok. unfold bind, save_checkpoint, ret.
  cbn [w_log]. rewrite iters_app, saves_app, Hfi, Hfs. simpl. rewrite app_nil_r.
  split; [reflexivity |]. eexists. split; [reflexivity |].
  constructor; [| constructor]. eauto.
Qed.

Lemma checkpoints_of_app (save_path : option string) (pre : list Z) (epoch : Z)
      (new new' : list string) :
  checkpoints_of save_path pre new -> checkpoints_of save_path [epoch] new' ->
  checkpoints_of save_path (pre ++ [epoch]) (new ++ new').
Proof.
  unfold checkpoints_of. destruct save_path as [path |]; [| now intros -> ->].
  destruct (truthy_str (Some path)); [apply Forall2_app | now intros -> ->].
Qed.

Lemma epochs_total (L S : list string) (tr va : stream)
      (save_path : option string) (epochs : list Z) :
  labelled tr -> s_batches tr <> [] -> s_batches va <> [] ->
  triple (logged L S)
         (foldM (run_epoch tr va (LossFn f) (OptObj step) save_path) ([], []) epochs)
         (fun _ w' =>
            iters (w_log w')
            = L ++ concat (repeat [s_name tr; s_name va] (List.length epochs)) /\
            exists new, saves (w_log w') = S ++ new /\
                        checkpoints_of save_path epochs new)
         (fun _ _ => False).
Proof.
  intros Hlab Htr Hva.
  eapply triple_weaken;
    [apply (triple_foldM _ (fun pre _ w' =>
              iters (w_log w')
              = L ++ concat (repeat [s_name tr; s_name va] (List.length pre)) /\
              exists new, saves (w_log w') = S ++ new /\
                          checkpoints_of save_path pre new)
              (fun _ _ => False))
    | | intros a w H; exact H | intros e w H; exact H].
  - intros pre epoch lists _ w (Hi & new & Hs & Hc).
    pose proof (run_epoch_total
                  (L ++ concat (repeat [s_name tr; s_name va] (List.length pre)))
                  (S ++ new) tr va save_path lists epoch Hlab Htr Hva w
                  (conj Hi Hs)) as H.
    destruct (run_epoch _ _ _ _ _ _ _ w) as [[a | e] w']; [| contradiction].
    destruct H as (Hi' & new' & Hs' & Hc'). split.
    + rewrite Hi', length_app. simpl. rewrite <- app_assoc. f_equal.
      rewrite repeat_app, concat_app. reflexivity.
    + exists (new ++ new'). split; [now rewrite Hs', app_assoc |].
      now apply checkpoints_of_app.
  - intros w [Hi Hs]. split; [simpl; now rewrite app_nil_r |].
    exists []. split; [now rewrite app_nil_r |].
    unfold checkpoints_of. destruct save_path as [path |]; [| reflexivity].
    destruct (truthy_str (Some path)); [constructor | reflexivity].
Qed.

(** [fit] on well-formed streams returns, and its log shows one pass
    over each stream and one checkpoint per epoch. *)
Lemma fit_total (tr va : stream) lr l o n c save_path plot (w : world) :
  labelled tr -> s_batches tr <> [] -> s_batches va <> [] ->
  resolve_loss l = LossFn f -> resolve_optimizer lr o = OptObj step ->
  exists w',
    fit (Some tr) (Some va) lr l o n c save_path plot w = (Ok tt, w') /\
    iters (w_log w')
    = iters (w_log w) ++ concat (repeat [s_name tr; s_name va] (scheduled_epochs n c)) /\
    exists new, saves (w_log w') = saves (w_log w) ++ new /\
                checkpoints_of save_path (epoch_iter n c) new.
Proof.
  intros Hlab Htr Hva Hl Ho. unfold fit. rewrite bind_emit. cbv zeta.
  rewrite Hl, Ho. set (w1 := mkWorld _ _ _ _).
  pose proof (epochs_total (iters (w_log w)) (saves (w_log w)) tr va save_path
                           (epoch_iter n c) Hlab Htr Hva w1) as H.
  assert (Hw1 : logged (iters (w_log w)) (saves (w_log w)) w1).
  { unfold w1. split; cbn [w_log]; [rewrite iters_app | rewrite saves_app];
      simpl; apply app_nil_r. }
  specialize (H Hw1). unfold bind.
  destruct (foldM _ _ (epoch_iter n c) w1) as [[lists | e] w2]; [| contradiction].
  rewrite epoch_iter_length in H. destruct lists as [train_acc_list valid_acc_list].
  destruct H as (Hi & new & Hs & Hc).
  destruct plot; simpl.
  - eexists. split; [reflexivity |]. cbn [w_log]. rewrite iters_app, saves_app, Hi, Hs.
    simpl. rewrite !app_nil_r. split; [reflexivity | eauto].
  - exists w2. split; [reflexivity |]. split; [exact Hi | eauto].
Qed.
End FitTotal.


(** C2 (as amended): on non-empty streams with a label per sample, a
    network that returns a non-empty row per sample, and a loss and an
    optimizer that are callable after the dispatch, [fit] returns
    normally, and the streams it has iterated are the training stream
    followed by the validation stream, once per scheduled epoch:
    [num_epochs] epochs when [checkpoint_epochs] is [None] or 0,
    [checkpoint_epochs] epochs otherwise. *)
Theorem fit_runs_scheduled_epochs {B : Backend} (tr va : stream) lr l o
        (num_epochs : Z) (checkpoint_epochs : option Z) save_path plot (w : world) f step :
  row_per_sample -> labelled tr ->
  s_batches tr <> [] -> s_batches va <> [] ->
  resolve_loss l = LossFn f -> resolve_optimizer lr o = OptObj step ->
  fst (fit (Some tr) (Some va) lr l o num_epochs checkpoint_epochs save_path plot w) = Ok tt /\
  iters (w_log (snd (fit (Some tr) (Some va) lr l o num_epochs checkpoint_epochs
                         save_path plot w)))
  = iters (w_log w)
    ++ concat (repeat [s_name tr; s_name va]
                      (scheduled_epochs num_epochs checkpoint_epochs)).
Proof.
  intros Hrows Hlab Htr Hva Hl Ho.
  destruct (fit_total Hrows f step tr va lr l o num_epochs checkpoint_epochs
                      save_path plot w Hlab Htr Hva Hl Ho) as (w' & E & Hi & _).
  rewrite E. split; [reflexivity | exact Hi].
Qed.

Lemma fit_runs_scheduled_epochs_witness :
  let run := @fit Toy.backend (Some Toy.train) (Some Toy.valid) (1 # 100)
                  (@LossStr Toy.backend "Cross_Entropy") (@OptStr Toy.backend "SGD")
                  2 (Some 3%Z) None true Toy.w0 in
  fst run = Ok tt /\
  iters (w_log (snd run))
  = iters (w_log Toy.w0) ++ concat (repeat ["train"; "valid"] (scheduled_epochs 2 (Some 3%Z))).
Proof.
  apply (@fit_runs_scheduled_epochs Toy.backend Toy.train Toy.valid (1 # 100)
           (@LossStr Toy.backend "Cross_Entropy") (@OptStr Toy.backend "SGD")
           2%Z (Some 3%Z) None true Toy.w0 Toy.errors (@sgd_step Toy.backend (1 # 100))).
  - intros t p X. split; [apply length_map |].
    apply Forall_forall. intros row Hrow. apply in_map_iff in Hrow.
    destruct Hrow as (x & <- & _). discriminate.
  - intros X y [[= <- <-] | [[= <- <-] | []]]; reflexivity.
  - discriminate.
  - discriminate.
  - reflexivity.
  - reflexivity.
Defined.

(** C2 (the claim as stated fails): with [num_epochs = 2] and
    [checkpoint_epochs = 3] the training stream is passed three times,
    not twice; and on a training stream without batches the first epoch
    ends in [ZeroDivisionError] after one pass, whatever [num_epochs]. *)
Lemma fit_passes_counterexample :
  let run := @fit Toy.backend (Some Toy.train) (Some Toy.valid) (1 # 100)
                  Toy.loss_fn Toy.plain_step 2 (Some 3%Z) None false Toy.w0 in
  let run' := @fit Toy.backend (Some Toy.no_batches) (Some Toy.valid) (1 # 100)
                   Toy.loss_fn Toy.plain_step 3 None None false Toy.w0 in
  (fst run = Ok tt /\
   iters (w_log (snd run)) = concat (repeat ["train"; "valid"] 3) /\
   iters (w_log (snd run)) <> concat (repeat ["train"; "valid"] (Z.to_nat 2))) /\
  (fst run' = Raise ZeroDivisionError /\
   iters (w_log (snd run')) = ["train"; "valid"]).
Proof.
  vm_compute. repeat split; discriminate.
Qed.

(** ** Names the dispatch does not know *)
Section Dispatch.
Context {B : Backend}.

Lemma resolve_loss_known (l : loss_arg) :
  loss_unrecognized l = false -> exists f, resolve_loss l = LossFn f.
Proof.
  destruct l as [s | f]; simpl; [| eauto].
  destruct (String.eqb (lower s) "cross_entropy"); [eauto | discriminate].
Qed.

Lemma resolve_loss_unknown (l : loss_arg) :
  loss_unrecognized l = true -> exists s, l = LossStr s /\ resolve_loss l = LossStr s.
Proof.
  destruct l as [s | f]; simpl; [| discriminate].
  destruct (String.eqb (lower s) "cross_entropy"); [discriminate | eauto].
Qed.

Lemma resolve_optimizer_unknown lr (o : opt_arg) :
  optimizer_unrecognized o = true ->
  exists s, o = OptStr s /\ resolve_optimizer lr o = OptStr s.
Proof.
  destruct o as [s | st]; simpl; [| discriminate].
  destruct (String.eqb (lower s) "sgd"); [discriminate | eauto].
Qed.

(** The first batch of the first epoch stops at the string. *)
Lemma fit_stops_at_string (tr va : stream) lr l o n c save_path plot (w : world) :
  loss_unrecognized l = true \/ optimizer_unrecognized o = true ->
  epoch_iter n c <> [] -> s_batches tr <> [] ->
  fit (Some tr) (Some va) lr l o n c save_path plot w
  = (Raise (if loss_unrecognized l then TypeError else AttributeError),
     mkWorld (w_params w) true (w_rng w) (w_log w ++ [EvPrint] ++ [EvIter (s_name tr)])).
Proof.
  intros H He Hb. unfold fit. rewrite bind_emit. cbv zeta.
  destruct (epoch_iter n c) as [|e es]; [congruence |].
  cbn [foldM]. unfold run_epoch at 1.
  rewrite !bind_assoc, bind_set_training, !bind_assoc, bind_emit.
  cbn [w_params w_training w_rng w_log].
  destruct (s_batches tr) as [|[X y] bs]; [congruence |].
  cbn [foldM]. unfold train_batch at 1.
  rewrite !bind_assoc, bind_call_model. rewrite <- app_assoc.
  destruct (loss_unrecognized l) eqn:El.
  - destruct (resolve_loss_unknown l El) as (s & -> & ->). reflexivity.
  - destruct H as [H | H]; [discriminate |].
    destruct (resolve_loss_known l El) as (f & ->).
    destruct (resolve_optimizer_unknown lr o H) as (s & -> & ->). reflexivity.
Qed.
End Dispatch.

(** ** The values an epoch reports and the names of its checkpoints *)
Section Reports.
Context {B : Backend}.

Lemma no_write_saves (new : list event) : Forall no_write new -> saves new = [].
Proof.
  induction 1 as [|ev t Hev _ IH]; [reflexivity |].
  destruct ev; simpl in *; try contradiction; exact IH.
Qed.

Lemma extends_no_write (log0 : list event) (w : world) :
  extends_ok no_write log0 w -> saves (w_log w) = saves log0.
Proof.
  intros (new & E & H). rewrite E, saves_app, (no_write_saves new H). apply app_nil_r.
Qed.

Lemma extends_ok_trans (ok : event -> Prop) (log0 : list event) (w w' : world) :
  extends_ok ok log0 w -> extends_ok ok (w_log w) w' -> extends_ok ok log0 w'.
Proof.
  intros (new & E & H) (new' & E' & H'). exists (new ++ new'). split.
  - now rewrite E', E, app_assoc.
  - apply Forall_app. now split.
Qed.

(** The training pass of an epoch, from the state the epoch starts in. *)
Lemma train_pass_extends (ok : event -> Prop) tr l o (w : world) :
  (forall s, ok (EvIter s)) -> ok EvStep ->
  extends_ok ok (w_log w)
             (snd (foldM (train_batch l o)
                         (0%Z, 0%Z, PyNum (num_of_Z 0), PyNum (num_of_Z 0))
                         (s_batches tr)
                         (mkWorld (w_params w) true (w_rng w)
                                  (w_log w ++ [EvIter (s_name tr)])))).
Proof.
  intros Hiter Hstep.
  pose proof (sound_foldM ok (w_log w) (train_batch l o) (s_batches tr)
                          (0%Z, 0%Z, PyNum (num_of_Z 0), PyNum (num_of_Z 0))
                          (fun s' x _ => sound_train_batch ok (w_log w) Hstep l o s' x)
                          (mkWorld (w_params w) true (w_rng w)
                                   (w_log w ++ [EvIter (s_name tr)]))) as H.
  assert (H1 : extends_ok ok (w_log w)
                          (mkWorld (w_params w) true (w_rng w)
                                   (w_log w ++ [EvIter (s_name tr)]))).
  { exists [EvIter (s_name tr)]. split; [reflexivity | now constructor]. }
  specialize (H H1).
  destruct (foldM _ _ _ _) as [[a | e] w2]; simpl; [exact H | apply H].
Qed.

Lemma evaluation_extends (ok : event -> Prop) (log0 : list event) va score lc TTA
      (w : world) :
  (forall s, ok (EvIter s)) ->
  extends_ok ok log0 w -> extends_ok ok log0 (snd (evaluation va score lc TTA w)).
Proof.
  intros Hiter Hw.
  pose proof (sound_evaluation ok log0 Hiter va score lc TTA w Hw) as H.
  destruct (evaluation _ _ _ _ w) as [[a | e] w3]; simpl; [exact H | apply H].
Qed.

Lemma epoch_values_extends (ok : event -> Prop) tr va l o (w : world) r w3 :
  (forall s, ok (EvIter s)) -> ok EvStep ->
  epoch_values tr va l o w r w3 -> extends_ok ok (w_log w) w3.
Proof.
  intros Hiter Hstep (n & bc & tls & tas & w2 & Et & Ee & _ & _).
  pose proof (train_pass_extends ok tr l o w Hiter Hstep) as H2.
  rewrite Et in H2. simpl in H2.
  pose proof (evaluation_extends ok (w_log w) va "Accuracy" (Some l) false w2 Hiter H2)
    as H3.
  now rewrite Ee in H3.
Qed.

(** One epoch: when it returns, the lists have grown by the accuracies
    of its report and its checkpoint carries the name of its report;
    when it raises, it has written nothing. *)
Lemma run_epoch_reported tr va l o save_path lists epoch (w : world) :
  match run_epoch tr va l o save_path lists epoch w with
  | (Ok lists', w') =>
      exists r w3,
        epoch_values tr va l o w r w3 /\
        lists' = (fst lists ++ [r_train_acc r], snd lists ++ [PyNum (r_valid_acc r)]) /\
        w' = mkWorld (w_params w3) (w_training w3) (w_rng w3)
                     (w_log w3 ++ [EvPrint]
                      ++ report_checkpoint save_path epoch r (w_params w3))
  | (Raise _, w') => saves (w_log w') = saves (w_log w)
  end.
Proof.
  destruct lists as [train_acc_list valid_acc_list].
  pose proof (train_pass_extends no_write tr l o w (fun _ => I) I) as H2.
  unfold run_epoch. rewrite bind_set_training, bind_emit.
  cbn [w_params w_training w_rng w_log].
  unfold bind at 1.
  destruct (foldM _ _ (s_batches tr) _) as [[[[[n bc] tls] tas] | e] w2] eqn:Et;
    simpl in H2; [| now apply extends_no_write].
  pose proof (evaluation_extends no_write (w_log w) va "Accuracy" (Some l) false w2
                                 (fun _ => I) H2) as H3.
  unfold bind at 1.
  destruct (evaluation va "Accuracy" (Some l) false w2) as [[res | e] w3] eqn:Ee;
    simpl in H3; [| now apply extends_no_write].
  apply extends_no_write in H3.
  destruct res as [score | valid_acc valid_loss]; [exact H3 |].
  cbn [unpack]. rewrite bind_ret.
  destruct (py_div tas n) as [train_accuracy | e] eqn:Ea; [| exact H3].
  rewrite bind_lift_ok.
  destruct (py_div tls bc) as [train_loss | e] eqn:El; [| exact H3].
  rewrite bind_lift_ok, bind_emit. cbn [w_params w_training w_rng w_log].
  assert (Hv : epoch_values tr va l o w
                            (@mkReport B train_loss valid_loss train_accuracy valid_acc) w3)
    by (now exists n, bc, tls, tas, w2).
  unfold report_checkpoint.
  destruct save_path as [path |];
    [| eexists; exists w3; split; [exact Hv | split; reflexivity]].
  destruct (truthy_str (Some path));
    [| eexists; exists w3; split; [exact Hv | split; reflexivity]].
  rewrite checkpoint_name_documented, bind_lift_ok.
  unfold bind, save_checkpoint, ret. cbn [w_params w_training w_rng w_log].
  eexists; exists w3. split; [exact Hv |]. split; [reflexivity |].
  now rewrite <- app_assoc.
Qed.

Lemma report_names_cons save_path epoch es (r : epoch_report) rs (p : params) :
  saves (report_checkpoint save_path epoch r p) ++ report_names save_path es rs
  = report_names save_path (epoch :: es) (r :: rs).
Proof.
  unfold report_checkpoint, report_names. destruct save_path as [path |]; [| reflexivity].
  destruct (truthy_str (Some path)); reflexivity.
Qed.

(** Epochs that ran to their end wrote the checkpoints of their
    reports, one each, and nothing else. *)
Lemma epochs_reported_saves tr va l o save_path (w : world) es rs w' :
  epochs_reported tr va l o save_path w es rs w' ->
  saves (w_log w') = saves (w_log w) ++ report_names save_path es rs /\
  List.length rs = List.length es.
Proof.
  induction 1 as [w | w epoch es r w3 rs w' Hv _ [IH1 IH2]].
  - split; [| reflexivity]. unfold report_names.
    destruct save_path as [path |]; [| now rewrite app_nil_r].
    destruct (truthy_str (Some path)); simpl; now rewrite app_nil_r.
  - split; [| simpl; now rewrite IH2].
    rewrite IH1. cbn [w_log]. rewrite !saves_app.
    rewrite (extends_no_write _ _ (epoch_values_extends no_write tr va l o w r w3
                                                        (fun _ => I) I Hv)).
    cbn [saves flat_map app]. rewrite <- app_assoc. f_equal. apply report_names_cons.
Qed.

(** Epochs never plot. *)
Lemma epochs_reported_no_plot tr va l o save_path (w : world) es rs w' :
  epochs_reported tr va l o save_path w es rs w' ->
  extends_ok no_plot (w_log w) w'.
Proof.
  induction 1 as [w | w epoch es r w3 rs w' Hv _ IH].
  - apply extends_ok_refl.
  - eapply extends_ok_trans; [| exact IH].
    destruct (epoch_values_extends no_plot tr va l o w r w3 (fun _ => I) I Hv)
      as (new & E & Hnew).
    exists (new ++ [EvPrint] ++ report_checkpoint save_path epoch r (w_params w3)).
    cbn [w_log]. split; [now rewrite E, <- app_assoc |].
    apply Forall_app. split; [exact Hnew |]. constructor; [exact I |].
    unfold report_checkpoint. destruct save_path as [path |]; [| constructor].
    destruct (truthy_str (Some path)); repeat constructor.
Qed.

(** The loop over the epochs: the epochs that ran to their end, their
    reports, and what the loop has written. *)
Lemma epochs_reported_run tr va l o save_path (epochs : list Z) :
  forall lists (w : world),
  exists done rest rs w2,
    epochs = done ++ rest /\
    epochs_reported tr va l o save_path w done rs w2 /\
    saves (w_log (snd (foldM (run_epoch tr va l o save_path) lists epochs w)))
    = saves (w_log w2) /\
    forall lists',
      fst (foldM (run_epoch tr va l o save_path) lists epochs w) = Ok lists' ->
      rest = [] /\
      snd (foldM (run_epoch tr va l o save_path) lists epochs w) = w2 /\
      lists' = (fst lists ++ train_curve rs, snd lists ++ valid_curve rs).
Proof.
  induction epochs as [|epoch es IH]; intros lists w.
  - exists [], [], [], w. repeat split; try constructor.
    simpl in H. injection H as <-. destruct lists; simpl. now rewrite !app_nil_r.
  - cbn [foldM]. pose proof (run_epoch_reported tr va l o save_path lists epoch w) as H.
    unfold bind.
    destruct (run_epoch tr va l o save_path lists epoch w) as [[lists1 | e] w1].
    + destruct H as (r & w3 & Hv & -> & ->).
      destruct (IH (fst lists ++ [r_train_acc r], snd lists ++ [PyNum (r_valid_acc r)])
                   (mkWorld (w_params w3) (w_training w3) (w_rng w3)
                            (w_log w3 ++ [EvPrint]
                             ++ report_checkpoint save_path epoch r (w_params w3))))
        as (done & rest & rs & w2 & -> & Hr & Hs & Hok).
      exists (epoch :: done), rest, (r :: rs), w2.
      split; [reflexivity |]. split; [econstructor; eauto |]. split; [exact Hs |].
      intros lists' E. destruct (Hok lists' E) as (-> & Hw & ->).
      split; [reflexivity |]. split; [exact Hw |].
      cbn [fst snd train_curve valid_curve map]. now rewrite <- !app_assoc.
    + exists [], (epoch :: es), [], w. split; [reflexivity |].
      split; [constructor |]. split; [exact H | discriminate].
Qed.

(** A run of [fit] given both streams. *)
Lemma fit_reported (tr va : stream) lr l o n c save_path plot (w : world) :
  exists done rest rs w2,
    epoch_iter n c = done ++ rest /\
    epochs_reported tr va (resolve_loss l) (resolve_optimizer lr o) save_path
                    (after_print w) done rs w2 /\
    saves (w_log (snd (fit (Some tr) (Some va) lr l o n c save_path plot w)))
    = saves (w_log w) ++ report_names save_path done rs /\
    (fst (fit (Some tr) (Some va) lr l o n c save_path plot w) = Ok tt ->
     rest = [] /\
     w_log (snd (fit (Some tr) (Some va) lr l o n c save_path plot w))
     = w_log w2 ++ (if plot then [EvPlot (train_curve rs) (valid_curve rs)] else [])).
Proof.
  destruct (epochs_reported_run tr va (resolve_loss l) (resolve_optimizer lr o) save_path
                                (epoch_iter n c) ([], []) (after_print w))
    as (done & rest & rs & w2 & E & Hr & Hs & Hok).
  exists done, rest, rs, w2. split; [exact E |]. split; [exact Hr |].
  destruct (epochs_reported_saves _ _ _ _ _ _ _ _ _ Hr) as [Hs2 _].
  assert (Hs3 : saves (w_log w2) = saves (w_log w) ++ report_names save_path done rs).
  { rewrite Hs2. unfold after_print. cbn [w_log]. rewrite saves_app. simpl.
    now rewrite app_nil_r. }
  unfold fit. rewrite bind_emit. cbv zeta. fold (after_print w).
  unfold bind.
  destruct (foldM _ _ (epoch_iter n c) (after_print w)) as [[lists | e] w'] eqn:Ef.
  - destruct (Hok lists eq_refl) as (-> & Hw & ->). simpl in Hw. subst w'.
    simpl in Hs. cbn [fst snd app].
    destruct plot; cbn [emit ret snd fst w_log].
    + split; [| intros _; split; reflexivity].
      rewrite saves_app, Hs3. simpl. now rewrite app_nil_r.
    + split; [exact Hs3 | intros _; split; [reflexivity | now rewrite app_nil_r]].
  - simpl in Hs. split; [now rewrite <- Hs3 | discriminate].
Qed.
End Reports.

(** C7: whatever a call of [fit] with the save path [path] writes, it
    writes under the documented name
    [{path}/epoch{N}_trainloss{L:.3f}_validloss{L:.3f}_trainacc{A:.3f}_validacc{A:.3f}.pth]
    with [N] the number of one of its epochs.  In every run given both
    streams, the files written are those of the epochs that ran to
    their end, one per epoch and in their order, and the name of each
    is the documented one filled with the number of its epoch plus one
    and with the values of that very epoch: its training loss
    [train_loss_sum / batch_count], the loss its evaluation returned, its
    training accuracy [train_acc_sum / n] and the accuracy its evaluation
    returned, in this order; on well-formed streams every scheduled
    epoch runs to its end.  The name [fit] builds is the documented
    one; in the run of one epoch whose values are 0.123, 0.456, 0.789
    and 0.321, [fit] writes the file
    [epoch1_trainloss0.123_validloss0.456_trainacc0.789_validacc0.321.pth]
    under its save path. *)
Theorem fit_checkpoint_names :
  (forall (B : Backend) (tr va : option stream) lr l o n c path plot (w : world),
      exists new,
        w_log (snd (fit tr va lr l o n c (Some path) plot w)) = w_log w ++ new /\
        Forall (save_documented path (epoch_iter n c)) new) /\
  (forall (B : Backend) (tr va : stream) lr l o n c save_path plot (w : world),
      exists done rest rs w2,
        epoch_iter n c = done ++ rest /\
        epochs_reported tr va (resolve_loss l) (resolve_optimizer lr o) save_path
                        (after_print w) done rs w2 /\
        saves (w_log (snd (fit (Some tr) (Some va) lr l o n c save_path plot w)))
        = saves (w_log w) ++ report_names save_path done rs /\
        (fst (fit (Some tr) (Some va) lr l o n c save_path plot w) = Ok tt -> rest = [])) /\
  (forall (B : Backend) (tr va : stream) lr l o n c save_path plot (w : world) f step,
      row_per_sample -> labelled tr -> s_batches tr <> [] -> s_batches va <> [] ->
      resolve_loss l = LossFn f -> resolve_optimizer lr o = OptObj step ->
      exists rs w2,
        epochs_reported tr va (LossFn f) (OptObj step) save_path
                        (after_print w) (epoch_iter n c) rs w2 /\
        List.length rs = scheduled_epochs n c /\
        saves (w_log (snd (fit (Some tr) (Some va) lr l o n c save_path plot w)))
        = saves (w_log w) ++ report_names save_path (epoch_iter n c) rs) /\
  (forall (B : Backend) path epoch a b c d,
      checkpoint_name path epoch a b c d = Ok (documented_name path (epoch + 1) a b c d)) /\
  @checkpoint_name Toy.backend "ckpt" 0 (123 # 1000) (456 # 1000) (789 # 1000) (321 # 1000)
  = Ok "ckpt/epoch1_trainloss0.123_validloss0.456_trainacc0.789_validacc0.321.pth" /\
  basename "ckpt/epoch1_trainloss0.123_validloss0.456_trainacc0.789_validacc0.321.pth"
  = "epoch1_trainloss0.123_validloss0.456_trainacc0.789_validacc0.321.pth" /\
  (let r := @mkReport Toy.backend (@PyNum Toy.backend (123 # 1000))
                      (@Tensor Toy.backend (456 # 1000))
                      (@Tensor Toy.backend (789 # 1000)) (642 # 2000) in
   let run := @fit Toy.backend (Some ClaimExample.train) (Some ClaimExample.valid)
                   (1 # 100) ClaimExample.loss Toy.plain_step 1 None (Some "ckpt")
                   false Toy.w0 in
   (r_valid_acc r == 321 # 1000)%Q /\
   @epochs_reported Toy.backend ClaimExample.train ClaimExample.valid ClaimExample.loss
                    Toy.plain_step (Some "ckpt") (after_print Toy.w0) [0%Z] [r] (snd run) /\
   fst run = Ok tt /\
   saves (w_log (snd run))
   = ["ckpt/epoch1_trainloss0.123_validloss0.456_trainacc0.789_validacc0.321.pth"]).
Proof.
  split; [| split; [| split; [| split; [| split; [| split]]]]].
  - intros B tr va lr l o n c path plot w.
    destruct tr as [tr |], va as [va |];
      try (exists [EvPrint]; split; [reflexivity | repeat constructor]).
    pose proof (sound_fit (save_documented path (epoch_iter n c)) (w_log w)
                          tr va lr l o n c (Some path) plot) as H.
    assert (Hs : sound (save_documented path (epoch_iter n c)) (w_log w)
                       (fit (Some tr) (Some va) lr l o n c (Some path) plot)).
    { apply H; simpl; auto.
      intros epoch path' a b c' d st Hin [= <-]. simpl. now exists epoch, a, b, c', d. }
    specialize (Hs w (extends_ok_refl _ w)).
    destruct (fit (Some tr) (Some va) lr l o n c (Some path) plot w) as [[a | e] w'];
      simpl; [exact Hs | apply Hs].
  - intros B tr va lr l o n c save_path plot w.
    destruct (fit_reported tr va lr l o n c save_path plot w)
      as (done & rest & rs & w2 & E & Hr & Hs & Hok).
    exists done, rest, rs, w2. repeat split; try assumption.
    intros Hfit. now destruct (Hok Hfit).
  - intros B tr va lr l o n c save_path plot w f step Hrows Hlab Htr Hva Hl Ho.
    destruct (fit_total Hrows f step tr va lr l o n c save_path plot w Hlab Htr Hva Hl Ho)
      as (w' & E & _).
    destruct (fit_reported tr va lr l o n c save_path plot w)
      as (done & rest & rs & w2 & Ed & Hr & Hs & Hok).
    rewrite E in Hok. destruct (Hok eq_refl) as [-> _].
    rewrite app_nil_r in Ed. subst done. rewrite Hl, Ho in Hr.
    exists rs, w2. split; [exact Hr |]. split; [| exact Hs].
    rewrite <- epoch_iter_length.
    now destruct (epochs_reported_saves _ _ _ _ _ _ _ _ _ Hr).
  - intros. apply checkpoint_name_documented.
  - vm_compute. reflexivity.
  - vm_compute. reflexivity.
  - cbv zeta. split; [vm_compute; reflexivity |].
    assert (E : @fit Toy.backend (Some ClaimExample.train) (Some ClaimExample.valid)
                     (1 # 100) ClaimExample.loss Toy.plain_step 1 None (Some "ckpt")
                     false Toy.w0
                = (Ok tt,
                   @mkWorld Toy.backend 2%Z false 0%Z
                     [EvPrint; EvIter "train"; EvStep; EvIter "valid"; EvPrint;
                      @EvSave Toy.backend
                        "ckpt/epoch1_trainloss0.123_validloss0.456_trainacc0.789_validacc0.321.pth"
                        2%Z]))
      by (vm_cast_no_check (@eq_refl (result unit * @world Toy.backend)
            (Ok tt,
             @mkWorld Toy.backend 2%Z false 0%Z
               [EvPrint; EvIter "train"; EvStep; EvIter "valid"; EvPrint;
                @EvSave Toy.backend
                  "ckpt/epoch1_trainloss0.123_validloss0.456_trainacc0.789_validacc0.321.pth"
                  2%Z]))).
    rewrite E. cbn [fst snd w_log]. split; [| split; reflexivity].
    apply (@reported_cons Toy.backend ClaimExample.train ClaimExample.valid
                          ClaimExample.loss Toy.plain_step (Some "ckpt")
                          (after_print Toy.w0) 0%Z [] _
                          (@mkWorld Toy.backend 2%Z false 0%Z
                                    [EvPrint; EvIter "train"; EvStep; EvIter "valid"])
                          []).
    + exists 1000%Z, 1%Z, (@PyNum Toy.backend (123 # 1000)),
        (@Tensor Toy.backend (inject_Z 789)),
        (@mkWorld Toy.backend 2%Z true 0%Z [EvPrint; EvIter "train"; EvStep]).
      split; [| split; [| split]].
      * vm_cast_no_check
          (@eq_refl (result (@train_acc Toy.backend) * @world Toy.backend)
             (Ok (1000%Z, 1%Z, @PyNum Toy.backend (123 # 1000),
                  @Tensor Toy.backend (inject_Z 789)),
              @mkWorld Toy.backend 2%Z true 0%Z [EvPrint; EvIter "train"; EvStep])).
      * vm_cast_no_check
          (@eq_refl (result (@eval_result Toy.backend) * @world Toy.backend)
             (Ok (@ScoreLoss Toy.backend (642 # 2000) (@Tensor Toy.backend (456 # 1000))),
              @mkWorld Toy.backend 2%Z false 0%Z
                       [EvPrint; EvIter "train"; EvStep; EvIter "valid"])).
      * vm_cast_no_check
          (@eq_refl (result (@pyval Toy.backend))
                    (Ok (@Tensor Toy.backend (789 # 1000)))).
      * vm_cast_no_check
          (@eq_refl (result (@pyval Toy.backend))
                    (Ok (@PyNum Toy.backend (123 # 1000)))).
    + vm_cast_no_check
        (@reported_nil Toy.backend ClaimExample.train ClaimExample.valid
           ClaimExample.loss Toy.plain_step (Some "ckpt")
           (@mkWorld Toy.backend 2%Z false 0%Z
              [EvPrint; EvIter "train"; EvStep; EvIter "valid"; EvPrint;
               @EvSave Toy.backend
                 "ckpt/epoch1_trainloss0.123_validloss0.456_trainacc0.789_validacc0.321.pth"
                 2%Z])).
Qed.

Lemma fit_checkpoint_names_witness :
  exists rs w2,
    @epochs_reported Toy.backend Toy.train Toy.valid Toy.loss_fn Toy.plain_step
                     (Some "out") (after_print Toy.w0) (epoch_iter 2 None) rs w2 /\
    List.length rs = scheduled_epochs 2 None /\
    saves (w_log (snd (@fit Toy.backend (Some Toy.train) (Some Toy.valid) (1 # 100)
                            Toy.loss_fn Toy.plain_step 2 None (Some "out") false Toy.w0)))
    = saves (w_log Toy.w0) ++ report_names (Some "out") (epoch_iter 2 None) rs.
Proof.
  apply (proj1 (proj2 (proj2 fit_checkpoint_names)) Toy.backend Toy.train Toy.valid
               (1 # 100) Toy.loss_fn Toy.plain_step 2%Z None (Some "out") false Toy.w0
               Toy.errors (fun g p => (p - g)%Z)).
  - intros t p X. split; [apply length_map |].
    apply Forall_forall. intros row Hrow. apply in_map_iff in Hrow.
    destruct Hrow as (x & <- & _). discriminate.
  - intros X y [[= <- <-] | [[= <- <-] | []]]; reflexivity.
  - discriminate.
  - discriminate.
  - reflexivity.
  - reflexivity.
Defined.

(** * Further properties of the two files *)

(** ** The script: the model mapping *)

Lemma arch_of_prefix (a rest : string) :
  no_underscore a = true -> arch_of (a ++ "_" ++ rest) = a.
Proof.
  induction a as [|c a IH]; simpl; [reflexivity |].
  destruct (Ascii.eqb c "_"); simpl; [discriminate |].
  intros H. f_equal. now apply IH.
Qed.

(** X1: the model mapping of the script keeps the keys of the config in
    their order, and a key [arch_variant] whose [arch] has no underscore
    gets the sub-model built for the architecture [arch] from the key's
    weight path: only the part before the first underscore counts. *)
Theorem model_dict_architectures {model : Type}
        (transfering_model : string -> string -> model)
        (weights : list (string * string)) (a rest weight : string) :
  no_underscore a = true ->
  In ((a ++ "_" ++ rest)%string, weight) weights ->
  map fst (build_model_dict transfering_model weights) = map fst weights /\
  In ((a ++ "_" ++ rest)%string, transfering_model a weight)
     (build_model_dict transfering_model weights).
Proof.
  intros Ha Hin. split.
  - unfold build_model_dict. rewrite map_map. reflexivity.
  - unfold build_model_dict. apply in_map_iff.
    exists ((a ++ "_" ++ rest)%string, weight). split; [| exact Hin].
    pose proof (arch_of_prefix a rest Ha) as E. simpl in E |- *. now rewrite E.
Qed.

Lemma model_dict_architectures_witness :
  let weights := [("resnet_18_v2", "w/r.pth"); ("vgg_16", "w/v.pth")] in
  map fst (build_model_dict (fun arch w => (arch, w)) weights) = map fst weights /\
  In ("resnet_18_v2", ("resnet", "w/r.pth"))
     (build_model_dict (fun arch w => (arch, w)) weights).
Proof.
  intros weights.
  apply (model_dict_architectures (fun arch w => (arch, w)) weights
                                  "resnet" "18_v2" "w/r.pth").
  - reflexivity.
  - left. reflexivity.
Defined.

(** ** The script: batches and predictions *)

Lemma chunks_concat {A} (fuel size : nat) (l : list A) :
  (0 < size)%nat -> (List.length l <= fuel)%nat -> concat (chunks fuel size l) = l.
Proof.
  intros Hs. revert l; induction fuel as [|fuel IH]; intros l Hl.
  - destruct l; [reflexivity | simpl in Hl; lia].
  - destruct l as [|x t]; [reflexivity |].
    cbn [chunks concat]. rewrite IH; [apply firstn_skipn |].
    rewrite length_skipn. cbn [List.length] in Hl |- *. lia.
Qed.

Lemma chunks_bounds {A} (fuel size : nat) (l : list A) :
  (0 < size)%nat ->
  Forall (fun c => (0 < List.length c <= size)%nat) (chunks fuel size l).
Proof.
  intros Hs. revert l; induction fuel as [|fuel IH]; intros l.
  - destruct l; constructor.
  - destruct l as [|x t]; [constructor |].
    cbn [chunks]. constructor; [| apply IH].
    rewrite length_firstn. cbn [List.length]. lia.
Qed.

Lemma flat_map_length_concat {A C} (f : list A -> list C) (l : list (list A)) :
  (forall X, List.length (f X) = List.length X) ->
  List.length (flat_map f l) = List.length (concat l).
Proof.
  intros H. induction l as [|X t IH]; simpl; [reflexivity |].
  now rewrite !length_app, H, IH.
Qed.

Lemma flat_map_map_concat {A C} (f : A -> C) (l : list (list A)) :
  flat_map (map f) l = map f (concat l).
Proof.
  induction l as [|X t IH]; simpl; [reflexivity |].
  now rewrite map_app, IH.
Qed.

(** X2: the batches the script predicts on are the images of the files
    in order, none empty and none longer than 256; hence, when the
    ensemble returns one label per sample, the prediction list has one
    entry per file. *)
Theorem predict_list_aligned {image : Type} (PredictDataset : string -> image)
        (ensemble_predict : list image -> list Z) (file_list : list string) :
  (forall X, List.length (ensemble_predict X) = List.length X) ->
  concat (data_loader 256 (map PredictDataset file_list)) = map PredictDataset file_list /\
  Forall (fun batch => (0 < List.length batch <= 256)%nat)
         (data_loader 256 (map PredictDataset file_list)) /\
  List.length (predict_list_of PredictDataset ensemble_predict file_list)
  = List.length file_list.
Proof.
  intros H.
  assert (E : concat (data_loader 256 (map PredictDataset file_list))
              = map PredictDataset file_list).
  { unfold data_loader. apply chunks_concat; lia. }
  split; [exact E |]. split; [apply chunks_bounds; lia |].
  unfold predict_list_of. rewrite (flat_map_length_concat _ _ H), E. apply length_map.
Qed.

Lemma predict_list_aligned_witness :
  let files := ["a.png"; "b.png"; "c.png"] in
  concat (data_loader 256 (map String.length files)) = map String.length files /\
  Forall (fun batch => (0 < List.length batch <= 256)%nat)
         (data_loader 256 (map String.length files)) /\
  List.length (predict_list_of String.length (map (fun n => Z.of_nat n)) files)
  = List.length files.
Proof.
  intros files.
  apply (predict_list_aligned String.length (map (fun n => Z.of_nat n)) files).
  intros X. apply length_map.
Defined.

Lemma noise_barrier_pointwise (g : string -> Z) (file_list : list string) :
  noise_barrier_list (map g file_list) file_list
  = filter (fun file => (g file =? 1)%Z) file_list.
Proof.
  unfold noise_barrier_list. induction file_list as [|file t IH]; [reflexivity |].
  cbn [map combine filter fst]. destruct (g file =? 1)%Z; cbn [map snd]; now rewrite IH.
Qed.

(** X3: when the ensemble labels a sample independently of the rest of
    its batch, the files the script selects for copying are exactly the
    files whose own image is labelled 1, in the order of the file list,
    whatever the batching. *)
Theorem script_selects_flagged_files {image : Type} (PredictDataset : string -> image)
        (ensemble_predict : list image -> list Z) (label : image -> Z)
        (file_list : list string) :
  (forall X, ensemble_predict X = map label X) ->
  noise_barrier_list (predict_list_of PredictDataset ensemble_predict file_list) file_list
  = filter (fun file => (label (PredictDataset file) =? 1)%Z) file_list.
Proof.
  intros H. unfold predict_list_of.
  assert (E : flat_map ensemble_predict (data_loader 256 (map PredictDataset file_list))
              = map (fun file => label (PredictDataset file)) file_list).
  { rewrite (flat_map_ext _ (map label)) by exact H.
    rewrite flat_map_map_concat. unfold data_loader.
    rewrite chunks_concat by lia. apply map_map. }
  rewrite E. apply noise_barrier_pointwise.
Qed.

Lemma script_selects_flagged_files_witness :
  let files := ["a.png"; "bb.png"; "c.png"] in
  let label := fun n : nat => if (n =? 5)%nat then 1%Z else 0%Z in
  noise_barrier_list (predict_list_of String.length (map label) files) files
  = filter (fun file => (label (String.length file) =? 1)%Z) files.
Proof.
  intros files label.
  apply (script_selects_flagged_files String.length (map label) label files).
  reflexivity.
Defined.

(** X4: a file is selected by the script exactly when some position
    holds both the file and the prediction 1; as the two lists are
    zipped, a file beyond the end of the prediction list is never
    selected, and a prediction beyond the end of the file list selects
    nothing. *)
Theorem noise_barrier_list_positions (predict_list : list Z) (file_list : list string)
        (file : string) :
  In file (noise_barrier_list predict_list file_list) <->
  exists i, nth_error predict_list i = Some 1%Z /\ nth_error file_list i = Some file.
Proof.
  unfold noise_barrier_list.
  revert file_list; induction predict_list as [|flag ps IH]; intros [|f fs].
  - simpl. split; [tauto | intros (i & H & _); now destruct i].
  - simpl. split; [tauto | intros (i & H & _); now destruct i].
  - simpl. split; [tauto | intros (i & _ & H); now destruct i].
  - cbn [combine filter fst]. destruct (Z.eqb_spec flag 1) as [-> | Hf].
    + cbn [map snd In]. rewrite IH. split.
      * intros [<- | (i & H1 & H2)]; [now exists 0%nat | now exists (S i)].
      * intros ([|i] & H1 & H2); simpl in *; [left; congruence | right; now exists i].
    + rewrite IH. split.
      * intros (i & H1 & H2). now exists (S i).
      * intros ([|i] & H1 & H2); simpl in *; [congruence | now exists i].
Qed.

(** ** What a call leaves untouched *)
Section Frame.
Context {B : Backend}.
Variable J : world -> Prop.
Hypothesis J_training :
  forall w b, J w -> J (mkWorld (w_params w) b (w_rng w) (w_log w)).
Hypothesis J_rng :
  forall w g, J w -> J (mkWorld (w_params w) (w_training w) g (w_log w)).
Hypothesis J_log :
  forall w ev, J w -> J (mkWorld (w_params w) (w_training w) (w_rng w) (w_log w ++ [ev])).
Hypothesis J_params :
  forall w p, J w -> J (mkWorld p (w_training w) (w_rng w) (w_log w)).

Lemma keeps_ret {A} (a : A) : keeps J (ret a).
Proof. intros w H. exact H. Qed.

Lemma keeps_lift {A} (r : result A) : keeps J (lift r).
Proof. intros w H. exact H. Qed.

Lemma keeps_raise {A} (e : exn) : keeps J (@raise B A e).
Proof. intros w H. exact H. Qed.

Lemma keeps_bind {A C} (m : M A) (k : A -> M C) :
  keeps J m -> (forall a, keeps J (k a)) -> keeps J (bind m k).
Proof.
  intros Hm Hk w Hw. unfold bind. specialize (Hm w Hw).
  destruct (m w) as [[a | e] w']; simpl in *; [now apply Hk | exact Hm].
Qed.

Lemma keeps_foldM {A S} (f : S -> A -> M S) (l : list A) (s : S) :
  (forall s' x, keeps J (f s' x)) -> keeps J (foldM f s l).
Proof.
  intros Hf. revert s; induction l as [|x t IH]; intros s; simpl.
  - apply keeps_ret.
  - apply keeps_bind; [apply Hf | intros s'; apply IH].
Qed.

Lemma keeps_set_training (b : bool) : keeps J (set_training b).
Proof. intros w H. simpl. now apply J_training. Qed.

Lemma keeps_call_model (X : list image) : keeps J (call_model X).
Proof. intros w H. exact H. Qed.

Lemma keeps_emit (ev : event) : keeps J (emit ev).
Proof. intros w H. simpl. now apply J_log. Qed.

Lemma keeps_augment (x : image) : keeps J (augment x).
Proof.
  intros w H. unfold augment. destruct (trfm (w_rng w) x) as [x' g]. simpl.
  now apply J_rng.
Qed.

Lemma keeps_call_loss l scores y : keeps J (call_loss l scores y).
Proof. destruct l; [apply keeps_raise | apply keeps_ret]. Qed.

Lemma keeps_predict (X : list image) : keeps J (predict X).
Proof.
  unfold predict. apply keeps_bind; [apply keeps_set_training | intros _].
  apply keeps_bind; [apply keeps_call_model | intros scores; apply keeps_lift].
Qed.

Lemma keeps_tta_sample (x : image) : keeps J (tta_sample x).
Proof.
  unfold tta_sample.
  do 5 (apply keeps_bind; [apply keeps_augment | intros ?]).
  do 5 (apply keeps_bind; [apply keeps_predict | intros ?]).
  apply keeps_lift.
Qed.

(** Without TTA the loop does not draw from the pipeline. *)
Lemma keeps_eval_batch_plain lc acc b : keeps J (eval_batch lc false acc b).
Proof.
  destruct acc as [[[y_true y_pred] eval_loss_sum] batch_count], b as [X y].
  unfold eval_batch.
  apply keeps_bind; [apply keeps_predict | intros p].
  apply keeps_bind; [| intros ?; apply keeps_ret].
  destruct lc as [l |]; [| apply keeps_ret].
  destruct (truthy_loss (Some l)); [| apply keeps_ret].
  apply keeps_bind; [apply keeps_set_training | intros _].
  apply keeps_bind; [apply keeps_call_model | intros scores].
  apply keeps_bind; [apply keeps_call_loss | intros v; apply keeps_ret].
Qed.

Lemma keeps_eval_batch lc TTA acc b : keeps J (eval_batch lc TTA acc b).
Proof.
  destruct TTA; [| apply keeps_eval_batch_plain].
  destruct acc as [[[y_true y_pred] eval_loss_sum] batch_count], b as [X y].
  unfold eval_batch.
  apply keeps_bind; [| intros ?; apply keeps_ret].
  apply keeps_foldM. intros s' x.
  apply keeps_bind; [apply keeps_tta_sample | intros ?; apply keeps_ret].
Qed.

(** The part of [evaluation] after the stream is opened. *)
Lemma keeps_evaluation_tail lc score (acc : eval_acc) :
  keeps J (let '(y_true, y_pred, eval_loss_sum, batch_count) := acc in
           let score := calculate_classification_score y_true y_pred score in
           if truthy_loss lc then
             mean <- lift (py_div eval_loss_sum batch_count) ;;
             ret (ScoreLoss score mean)
           else ret (ScoreOnly score)).
Proof.
  destruct acc as [[[y_true y_pred] eval_loss_sum] batch_count]. cbv zeta.
  destruct (truthy_loss lc); [| apply keeps_ret].
  apply keeps_bind; [apply keeps_lift | intros ?; apply keeps_ret].
Qed.

Lemma keeps_evaluation_plain test_iter score lc :
  keeps J (evaluation test_iter score lc false).
Proof.
  unfold evaluation. apply keeps_bind; [apply keeps_emit | intros _].
  apply keeps_bind; [apply keeps_foldM; intros; apply keeps_eval_batch_plain |].
  intros acc. apply keeps_evaluation_tail.
Qed.

Lemma keeps_optimizer_update o l X y : keeps J (optimizer_update o l X y).
Proof.
  destruct o as [s | step]; [apply keeps_raise |].
  destruct l as [s | f]; [apply keeps_raise |].
  intros w H. simpl.
  exact (J_log _ EvStep
               (J_params w (step (backward f (w_training w) (w_params w) X y) (w_params w)) H)).
Qed.

Lemma keeps_train_batch l o acc b : keeps J (train_batch l o acc b).
Proof.
  destruct acc as [[[n batch_count] train_loss_sum] train_acc_sum], b as [X y].
  unfold train_batch.
  apply keeps_bind; [apply keeps_call_model | intros y_pred].
  apply keeps_bind; [apply keeps_call_loss | intros loss].
  apply keeps_bind; [apply keeps_optimizer_update | intros _].
  apply keeps_bind; [apply keeps_lift | intros labels].
  apply keeps_bind; [apply keeps_lift | intros ?; apply keeps_ret].
Qed.

Lemma keeps_run_epoch tr va l o save_path lists epoch :
  keeps J (run_epoch tr va l o save_path lists epoch).
Proof.
  destruct lists as [train_acc_list valid_acc_list]. unfold run_epoch.
  apply keeps_bind; [apply keeps_set_training | intros _].
  apply keeps_bind; [apply keeps_emit | intros _].
  apply keeps_bind; [apply keeps_foldM; intros; apply keeps_train_batch |].
  intros [[[n batch_count] train_loss_sum] train_acc_sum].
  apply keeps_bind; [apply keeps_evaluation_plain | intros r].
  apply keeps_bind; [destruct r; [apply keeps_raise | apply keeps_ret] |].
  intros [valid_acc valid_loss].
  apply keeps_bind; [apply keeps_lift | intros train_accuracy].
  apply keeps_bind; [apply keeps_lift | intros train_loss].
  apply keeps_bind; [apply keeps_emit | intros _].
  destruct save_path as [path |]; [| apply keeps_ret].
  destruct (truthy_str (Some path)); [| apply keeps_ret].
  apply keeps_bind; [apply keeps_lift | intros name].
  apply keeps_bind; [| intros _; apply keeps_ret].
  intros w H. simpl. now apply J_log.
Qed.

Lemma keeps_fit tr va lr l o n c save_path plot :
  keeps J (fit tr va lr l o n c save_path plot).
Proof.
  unfold fit. apply keeps_bind; [apply keeps_emit | intros _].
  destruct tr as [tr |]; [| apply keeps_raise].
  destruct va as [va |]; [| apply keeps_raise].
  apply keeps_bind; [apply keeps_foldM; intros; apply keeps_run_epoch |].
  intros [train_acc_list valid_acc_list].
  destruct plot; [apply keeps_emit | apply keeps_ret].
Qed.
End Frame.

(** X5: a call of [evaluation], whether it returns or raises, leaves the
    parameters of the network as they were and adds to the log nothing
    but the opening of its stream (no optimizer step, no checkpoint);
    without TTA it also leaves the random state of the augmentation
    pipeline alone. *)
Theorem evaluation_read_only {B : Backend} (test_iter : stream) (score : string)
        (lc : option loss_arg) (TTA : bool) (w : world) :
  w_params (snd (evaluation test_iter score lc TTA w)) = w_params w /\
  w_log (snd (evaluation test_iter score lc TTA w))
  = w_log w ++ [EvIter (s_name test_iter)] /\
  w_rng (snd (evaluation test_iter score lc false w)) = w_rng w.
Proof.
  split; [| split].
  - unfold evaluation. rewrite bind_emit.
    apply (keeps_bind (fun w' => w_params w' = w_params w)); [| | reflexivity].
    + apply keeps_foldM. intros acc b.
      apply keeps_eval_batch; intros w' ? H; exact H.
    + intros acc. apply keeps_evaluation_tail.
  - unfold evaluation. rewrite bind_emit.
    apply (keeps_bind (fun w' => w_log w' = w_log w ++ [EvIter (s_name test_iter)]));
      [| | reflexivity].
    + apply keeps_foldM. intros acc b.
      apply keeps_eval_batch; intros w' ? H; exact H.
    + intros acc. apply keeps_evaluation_tail.
  - apply (keeps_evaluation_plain (fun w' => w_rng w' = w_rng w));
      [intros w' ? H; exact H | intros w' ? H; exact H | reflexivity].
Qed.

(** X6: a call of [fit], whatever its arguments and whether it returns
    or raises, never draws from the augmentation pipeline: the random
    state is the one it was called with (its evaluations run without
    TTA). *)
Theorem fit_keeps_random_state {B : Backend} (tr va : option stream) lr l o n c
        save_path plot (w : world) :
  w_rng (snd (fit tr va lr l o n c save_path plot w)) = w_rng w.
Proof.
  apply (keeps_fit (fun w' => w_rng w' = w_rng w));
    [intros w' ? H; exact H | intros w' ? H; exact H | intros w' ? H; exact H
    | reflexivity].
Qed.

(** ** [fit] without a save path *)

Lemma saves_none_of {B : Backend} (new : list event) :
  Forall (fun ev => match ev with
                    | EvSave _ _ => False
                    | _ => True
                    end) new ->
  saves new = [].
Proof.
  induction 1 as [|ev t Hev _ IH]; [reflexivity |].
  destruct ev; simpl; try exact IH. contradiction.
Qed.

Lemma fit_writes_nothing_None {B : Backend} (tr va : option stream) lr l o n c plot
      (w : world) :
  saves (w_log (snd (fit tr va lr l o n c None plot w))) = saves (w_log w).
Proof.
  destruct tr as [tr |], va as [va |];
    try (simpl; rewrite saves_app; simpl; apply app_nil_r).
  pose proof (sound_fit (fun ev => match ev with
                                   | EvSave _ _ => False
                                   | _ => True
                                   end)
                        (w_log w) tr va lr l o n c None plot
                        I (fun _ => I) I (fun _ _ => I)) as H.
  assert (Hs : extends_ok (fun ev => match ev with
                                     | EvSave _ _ => False
                                     | _ => True
                                     end)
                          (w_log w) (snd (fit (Some tr) (Some va) lr l o n c None plot w))).
  { assert (Hsound := H ltac:(intros; discriminate) w (extends_ok_refl _ w)).
    destruct (fit (Some tr) (Some va) lr l o n c None plot w) as [[a | e] w'];
      simpl; [exact Hsound | apply Hsound]. }
  destruct Hs as (new & E & Hnew).
  rewrite E, saves_app, (saves_none_of new Hnew). apply app_nil_r.
Qed.

(** X7: without a save path ([None] or the empty string) a call of
    [fit] writes no checkpoint, whether it returns or raises. *)
Theorem fit_without_path_writes_nothing {B : Backend} (tr va : option stream) lr l o n c
        save_path plot (w : world) :
  truthy_str save_path = false ->
  saves (w_log (snd (fit tr va lr l o n c save_path plot w))) = saves (w_log w).
Proof.
  intros H. destruct save_path as [[|ch path] |]; [| discriminate |].
  - change (fit tr va lr l o n c (Some EmptyString) plot w)
      with (fit tr va lr l o n c None plot w).
    apply fit_writes_nothing_None.
  - apply fit_writes_nothing_None.
Qed.

Lemma fit_without_path_writes_nothing_witness :
  saves (w_log (snd (@fit Toy.backend (Some Toy.train) (Some Toy.valid) (1 # 100)
                          Toy.loss_fn Toy.plain_step 2 None (Some EmptyString) false
                          Toy.w0)))
  = saves (w_log Toy.w0).
Proof.
  apply (@fit_without_path_writes_nothing Toy.backend (Some Toy.train) (Some Toy.valid)
           (1 # 100) Toy.loss_fn Toy.plain_step 2%Z None (Some EmptyString) false Toy.w0).
  reflexivity.
Defined.

(** ** [evaluation] without TTA *)
Section PlainEvaluation.
Context {B : Backend}.
Hypothesis rows : row_per_sample.

Lemma batch_labels_ok (p : params) (X : list image) :
  exists ls, batch_labels p X = Ok ls /\ List.length ls = List.length X.
Proof.
  destruct (rows false p X) as [Hlen Hne].
  destruct (mapR_argmax_ok _ Hne) as (ls & E & L).
  exists ls. split; [exact E | congruence].
Qed.

Lemma eval_plain_loop (lc : option loss_arg) (batches : list (list image * list Z)) :
  lc = None \/ (exists f, lc = Some (LossFn f)) ->
  forall y_true y_pred s c p t g lg,
  exists lss,
    mapR (fun b => batch_labels p (fst b)) batches = Ok lss /\
    foldM (eval_batch lc false) (y_true, y_pred, s, c) batches (mkWorld p t g lg)
    = (Ok (y_true ++ concat (map snd batches), y_pred ++ map Lab (concat lss),
           match lc with
           | Some (LossFn f) =>
               fold_left py_add
                         (map (fun b => Tensor (f (forward false p (fst b)) (snd b))) batches)
                         s
           | _ => s
           end,
           (c + Z.of_nat (List.length batches))%Z),
       mkWorld p (match batches with [] => t | _ :: _ => false end) g lg).
Proof.
  intros Hlc. induction batches as [|[X y] rest IH]; intros y_true y_pred s c p t g lg.
  - exists []. split; [reflexivity |]. simpl. rewrite !app_nil_r, Z.add_0_r.
    destruct Hlc as [-> | [f ->]]; reflexivity.
  - destruct (batch_labels_ok p X) as (ls & Els & _).
    assert (Ep : predict X (mkWorld p t g lg) = (Ok ls, mkWorld p false g lg)).
    { rewrite predict_run. cbn [w_params w_rng w_log].
      unfold batch_labels in Els. now rewrite Els. }
    cbn [foldM]. unfold eval_batch at 1. rewrite bind_assoc, (bind_ok _ _ _ _ _ Ep).
    destruct Hlc as [-> | [f ->]].
    + rewrite bind_assoc, !bind_ret.
      destruct (IH (y_true ++ y) (y_pred ++ map Lab ls) s (c + 1)%Z p false g lg)
        as (lss & Elss & E).
      exists (ls :: lss). split.
      * cbn [mapR fst]. now rewrite Els, Elss.
      * rewrite E. cbn [map concat snd List.length].
        rewrite map_app, <- !app_assoc.
        replace (c + 1 + Z.of_nat (List.length rest))%Z
          with (c + Z.of_nat (S (List.length rest)))%Z by lia.
        destruct rest; reflexivity.
    + cbn [truthy_loss]. rewrite !bind_assoc, bind_set_training, !bind_assoc, bind_call_model.
      cbn [w_params w_training w_rng w_log call_loss]. rewrite !bind_assoc, !bind_ret.
      destruct (IH (y_true ++ y) (y_pred ++ map Lab ls)
                   (py_add s (Tensor (f (forward false p X) y))) (c + 1)%Z p false g lg)
        as (lss & Elss & E).
      exists (ls :: lss). split.
      * cbn [mapR fst]. now rewrite Els, Elss.
      * rewrite E. cbn [map concat snd fst List.length fold_left].
        rewrite map_app, <- !app_assoc.
        replace (c + 1 + Z.of_nat (List.length rest))%Z
          with (c + Z.of_nat (S (List.length rest)))%Z by lia.
        destruct rest; reflexivity.
Qed.
End PlainEvaluation.

(** X8: without TTA and with a loss function, on a stream with at
    least one batch, [evaluation] returns the pair of the score and the
    mean loss: the score of all labels of the stream against the arg-max
    labels of every batch, in order, and the losses of the batches
    (under the unchanged parameters) summed and divided by the number
    of batches. *)
Theorem evaluation_returns_score_and_mean_loss {B : Backend} (test_iter : stream)
        (score : string) f (w : world) :
  row_per_sample ->
  s_batches test_iter <> [] ->
  exists lss x,
    mapR (fun b => batch_labels (w_params w) (fst b)) (s_batches test_iter) = Ok lss /\
    accumulated_loss f (w_params w) (s_batches test_iter) = Tensor x /\
    fst (evaluation test_iter score (Some (LossFn f)) false w)
    = Ok (ScoreLoss
            (calculate_classification_score
               (concat (map snd (s_batches test_iter))) (map Lab (concat lss)) score)
            (Tensor (num_div x (Z.of_nat (List.length (s_batches test_iter)))))).
Proof.
  intros Hrows Hne. unfold evaluation. rewrite bind_emit.
  destruct (eval_plain_loop Hrows (Some (LossFn f)) (s_batches test_iter)
              (or_intror (ex_intro _ f eq_refl))
              [] [] (PyNum (num_of_Z 0)) 0%Z (w_params w) (w_training w) (w_rng w)
              (w_log w ++ [EvIter (s_name test_iter)])) as (lss & Elss & E).
  destruct (accumulated_loss_tensor f (w_params w) (s_batches test_iter) Hne) as [x Ex].
  exists lss, x. split; [exact Elss |]. split; [exact Ex |].
  rewrite (bind_ok _ _ _ _ _ E). cbn [truthy_loss].
  unfold accumulated_loss in Ex. rewrite Ex. reflexivity.
Qed.

Lemma evaluation_returns_score_and_mean_loss_witness :
  exists lss x,
    mapR (fun b => @batch_labels Toy.backend (w_params Toy.w0) (fst b))
         (s_batches Toy.train) = Ok lss /\
    @accumulated_loss Toy.backend Toy.errors (w_params Toy.w0) (s_batches Toy.train)
    = Tensor x /\
    fst (@evaluation Toy.backend Toy.train "Accuracy" (Some Toy.loss_fn) false Toy.w0)
    = Ok (ScoreLoss
            (calculate_classification_score
               (concat (map snd (s_batches Toy.train))) (map Lab (concat lss)) "Accuracy")
            (Tensor (num_div x (Z.of_nat (List.length (s_batches Toy.train)))))).
Proof.
  apply (@evaluation_returns_score_and_mean_loss Toy.backend Toy.train "Accuracy"
           Toy.errors Toy.w0).
  - intros t p X. split; [apply length_map |].
    apply Forall_forall. intros row Hrow. apply in_map_iff in Hrow.
    destruct Hrow as (x & <- & _). discriminate.
  - discriminate.
Defined.

(** X9: without TTA and without a loss function, [evaluation] returns
    the score alone, of all labels of the stream against the arg-max
    labels of every batch, in order; it does so on a stream without
    batches too (no division takes place). *)
Theorem evaluation_returns_score {B : Backend} (test_iter : stream) (score : string)
        (w : world) :
  row_per_sample ->
  exists lss,
    mapR (fun b => batch_labels (w_params w) (fst b)) (s_batches test_iter) = Ok lss /\
    fst (evaluation test_iter score None false w)
    = Ok (ScoreOnly
            (calculate_classification_score
               (concat (map snd (s_batches test_iter))) (map Lab (concat lss)) score)).
Proof.
  intros Hrows. unfold evaluation. rewrite bind_emit.
  destruct (eval_plain_loop Hrows None (s_batches test_iter) (or_introl eq_refl)
              [] [] (PyNum (num_of_Z 0)) 0%Z (w_params w) (w_training w) (w_rng w)
              (w_log w ++ [EvIter (s_name test_iter)])) as (lss & Elss & E).
  exists lss. split; [exact Elss |].
  rewrite (bind_ok _ _ _ _ _ E). reflexivity.
Qed.

Lemma evaluation_returns_score_witness :
  exists lss,
    mapR (fun b => @batch_labels Toy.backend (w_params Toy.w0) (fst b))
         (s_batches Toy.no_batches) = Ok lss /\
    fst (@evaluation Toy.backend Toy.no_batches "Accuracy" None false Toy.w0)
    = Ok (ScoreOnly
            (calculate_classification_score
               (concat (map snd (s_batches Toy.no_batches))) (map Lab (concat lss))
               "Accuracy")).
Proof.
  apply (@evaluation_returns_score Toy.backend Toy.no_batches "Accuracy" Toy.w0).
  intros t p X. split; [apply length_map |].
  apply Forall_forall. intros row Hrow. apply in_map_iff in Hrow.
  destruct Hrow as (x & <- & _). discriminate.
Defined.

Lemma evaluation_empty_run {B : Backend} (test_iter : stream) (score : string)
      (lc : option loss_arg) (TTA : bool) (w : world) :
  s_batches test_iter = [] ->
  truthy_loss lc = true ->
  evaluation test_iter score lc TTA w
  = (Raise ZeroDivisionError,
     mkWorld (w_params w) (w_training w) (w_rng w) (w_log w ++ [EvIter (s_name test_iter)])).
Proof.
  intros He Ht. unfold evaluation. rewrite bind_emit, He. cbn [foldM].
  rewrite bind_ret, Ht. reflexivity.
Qed.

(** X10: on a stream without batches, [evaluation] with a loss
    criterion that counts as true raises [ZeroDivisionError], with or
    without TTA: the loss sum and the batch count are both 0. *)
Theorem evaluation_empty_stream_raises {B : Backend} (test_iter : stream) (score : string)
        (lc : option loss_arg) (TTA : bool) (w : world) :
  s_batches test_iter = [] ->
  truthy_loss lc = true ->
  evaluation test_iter score lc TTA w
  = (Raise ZeroDivisionError,
     mkWorld (w_params w) (w_training w) (w_rng w) (w_log w ++ [EvIter (s_name test_iter)])).
Proof.
  intros He Ht. unfold evaluation. rewrite bind_emit, He. cbn [foldM].
  rewrite bind_ret, Ht. reflexivity.
Qed.

Lemma evaluation_empty_stream_raises_witness :
  @evaluation Toy.backend Toy.no_batches "Accuracy" (Some Toy.loss_fn) false Toy.w0
  = (Raise ZeroDivisionError,
     mkWorld (w_params Toy.w0) (w_training Toy.w0) (w_rng Toy.w0)
             (w_log Toy.w0 ++ [EvIter (s_name Toy.no_batches)])).
Proof.
  apply (@evaluation_empty_stream_raises Toy.backend Toy.no_batches "Accuracy"
           (Some Toy.loss_fn) false Toy.w0); reflexivity.
Defined.

(** ** The events of an epoch *)
Section EpochTrace.
Context {B : Backend}.
Hypothesis rows : row_per_sample.
Variable f : list (list num) -> list Z -> num.
Variable step : grads -> params -> params.

Lemma steps_app (l1 l2 : list event) : steps (l1 ++ l2) = (steps l1 + steps l2)%nat.
Proof. unfold steps. now rewrite filter_app, length_app. Qed.

Lemma steps_repeat (k : nat) : steps (repeat EvStep k) = k.
Proof. induction k; simpl; [reflexivity | unfold steps in *; simpl; now rewrite IHk]. Qed.

Lemma saves_repeat (k : nat) : saves (repeat EvStep k) = [].
Proof. induction k; simpl; [reflexivity | exact IHk]. Qed.

(** The training pass: one optimizer step per batch, nothing else. *)
Lemma train_loop_trace (batches : list (list image * list Z)) (w : world) :
  (forall X y, In (X, y) batches -> List.length X = List.length y) ->
  exists n a t p',
    foldM (train_batch (LossFn f) (OptObj step))
          (0%Z, 0%Z, PyNum (num_of_Z 0), PyNum (num_of_Z 0)) batches w
    = (Ok (n, Z.of_nat (List.length batches), PyNum a, t),
       mkWorld p' (w_training w) (w_rng w)
               (w_log w ++ repeat EvStep (List.length batches))) /\
    (batches <> [] -> exists x, t = Tensor x) /\
    (batches = [] -> p' = w_params w /\ t = PyNum (num_of_Z 0) /\ n = 0%Z).
Proof.
  intros Hlab.
  pose proof (triple_foldM (train_batch (LossFn f) (OptObj step))
                (fun pre acc w' =>
                   exists n a t p',
                     acc = (n, Z.of_nat (List.length pre), PyNum a, t) /\
                     w' = mkWorld p' (w_training w) (w_rng w)
                                  (w_log w ++ repeat EvStep (List.length pre)) /\
                     (pre <> [] -> exists x, t = Tensor x) /\
                     (pre = [] -> p' = w_params w /\ t = PyNum (num_of_Z 0) /\ n = 0%Z))
                (fun _ _ => False) batches) as H.
  assert (Hstep : forall pre x s,
             (exists post, batches = pre ++ x :: post) ->
             triple
               ((fun pre acc w' =>
                   exists n a t p',
                     acc = (n, Z.of_nat (List.length pre), PyNum a, t) /\
                     w' = mkWorld p' (w_training w) (w_rng w)
                                  (w_log w ++ repeat EvStep (List.length pre)) /\
                     (pre <> [] -> exists x, t = Tensor x) /\
                     (pre = [] -> p' = w_params w /\ t = PyNum (num_of_Z 0) /\ n = 0%Z))
                  pre s)
               (train_batch (LossFn f) (OptObj step) s x)
               ((fun pre acc w' =>
                   exists n a t p',
                     acc = (n, Z.of_nat (List.length pre), PyNum a, t) /\
                     w' = mkWorld p' (w_training w) (w_rng w)
                                  (w_log w ++ repeat EvStep (List.length pre)) /\
                     (pre <> [] -> exists x, t = Tensor x) /\
                     (pre = [] -> p' = w_params w /\ t = PyNum (num_of_Z 0) /\ n = 0%Z))
                  (pre ++ [x]))
               (fun _ _ => False)).
  { intros pre [X y] acc [post Epost] w' (n & a & t & p' & -> & -> & _ & _).
    destruct (train_batch_run rows f step n (Z.of_nat (List.length pre)) a t X y
                (mkWorld p' (w_training w) (w_rng w)
                         (w_log w ++ repeat EvStep (List.length pre))))
      as (a' & t' & E).
    { apply Hlab. rewrite Epost. apply in_elt. }
    rewrite E. cbn [w_params w_training w_rng w_log].
    exists (n + Z.of_nat (List.length y))%Z, a', (Tensor t'),
      (step (backward f (w_training w) p' X y) p').
    split; [| split; [| split]].
    - rewrite length_app. simpl. do 3 f_equal. lia.
    - rewrite length_app, repeat_app, <- app_assoc. reflexivity.
    - eauto.
    - intros Habs. destruct pre; discriminate. }
  specialize (H Hstep (0%Z, 0%Z, PyNum (num_of_Z 0), PyNum (num_of_Z 0)) w).
  cbv beta in H.
  assert (Hinit : exists n a t p',
             (0%Z, 0%Z, PyNum (num_of_Z 0), PyNum (num_of_Z 0))
             = (n, Z.of_nat (@List.length (list image * list Z) []), PyNum a, t) /\
             w = mkWorld p' (w_training w) (w_rng w)
                         (w_log w ++ repeat EvStep (@List.length (list image * list Z) [])) /\
             (@nil (list image * list Z) <> [] -> exists x, t = Tensor x) /\
             (@nil (list image * list Z) = [] ->
              p' = w_params w /\ t = PyNum (num_of_Z 0) /\ n = 0%Z)).
  { exists 0%Z, (num_of_Z 0), (PyNum (num_of_Z 0)), (w_params w).
    split; [reflexivity |]. split; [| split; [congruence | auto]].
    destruct w; simpl. now rewrite app_nil_r. }
  specialize (H Hinit).
  destruct (foldM _ _ batches w) as [[acc | e] w']; [| contradiction].
  destruct H as (n & a & t & p' & -> & -> & H1 & H2).
  exists n, a, t, p'. auto.
Qed.

(** One epoch on well-formed streams: the training pass with one
    optimizer step per batch, the validation pass, the progress line
    and the checkpoint, which holds the parameters the epoch ends with. *)
Lemma run_epoch_trace (tr va : stream) (save_path : option string)
      (lists : list pyval * list pyval) (epoch : Z) (w : world) :
  labelled tr -> s_batches tr <> [] -> s_batches va <> [] ->
  exists lists' w' ckpt,
    run_epoch tr va (LossFn f) (OptObj step) save_path lists epoch w = (Ok lists', w') /\
    w_log w' = w_log w ++ epoch_events tr va (List.length (s_batches tr)) ckpt /\
    checkpoint_event save_path epoch (w_params w') ckpt /\
    w_training w' = false /\
    List.length (fst lists') = S (List.length (fst lists)) /\
    List.length (snd lists') = S (List.length (snd lists)).
Proof.
  intros Hlab Htr Hva. destruct lists as [train_acc_list valid_acc_list].
  unfold run_epoch. rewrite bind_set_training, bind_emit.
  set (w1 := mkWorld _ _ _ _).
  destruct (train_loop_trace (s_batches tr) w1 Hlab) as (n & a & t & p' & E & Ht & _).
  rewrite (bind_ok _ _ _ _ _ E). destruct (Ht Htr) as [x ->].
  set (w2 := mkWorld p' _ _ _).
  destruct (evaluation_plain_run va "Accuracy" f w2 rows Hva) as (y_pred & v & _ & Ee).
  rewrite (bind_ok _ _ _ _ _ Ee). cbn [unpack]. rewrite bind_ret.
  cbn [py_div]. rewrite bind_lift_ok.
  destruct (Z.eqb_spec (Z.of_nat (List.length (s_batches tr))) 0) as [E0 | _].
  { destruct (s_batches tr); [congruence | simpl in E0; lia]. }
  rewrite bind_lift_ok, bind_emit. cbn [w_params w_training w_rng w_log].
  unfold w2, w1. cbn [w_params w_training w_rng w_log].
  unfold checkpoint_event, epoch_events.
  destruct save_path as [path |].
  - destruct (truthy_str (Some path)).
    + rewrite checkpoint_name_documented, bind_lift_ok.
      unfold bind, save_checkpoint, ret. cbn [w_params w_training w_rng w_log].
      eexists. eexists. eexists. split; [reflexivity |].
      cbn [w_params w_training w_rng w_log fst snd].
      split; [| split; [eauto | split; [reflexivity | split; rewrite length_app; simpl; lia]]].
      rewrite <- !app_assoc. reflexivity.
    + unfold ret. eexists. eexists. exists []. split; [reflexivity |].
      cbn [w_params w_training w_rng w_log fst snd].
      split; [| split; [reflexivity | split; [reflexivity | split; rewrite length_app; simpl; lia]]].
      rewrite <- !app_assoc. reflexivity.
  - unfold ret. eexists. eexists. exists []. split; [reflexivity |].
    cbn [w_params w_training w_rng w_log fst snd].
    split; [| split; [reflexivity | split; [reflexivity | split; rewrite length_app; simpl; lia]]].
    rewrite <- !app_assoc. reflexivity.
Qed.
End EpochTrace.

(** ** The effects of a whole run of [fit] *)
Section FitEffects.
Context {B : Backend}.
Hypothesis rows : row_per_sample.
Variable f : list (list num) -> list Z -> num.
Variable step : grads -> params -> params.

Lemma saved_states_app (l1 l2 : list event) :
  saved_states (l1 ++ l2) = saved_states l1 ++ saved_states l2.
Proof. apply flat_map_app. Qed.

Lemma saved_states_repeat (k : nat) : saved_states (repeat EvStep k) = [].
Proof. induction k; simpl; [reflexivity | exact IHk]. Qed.

Lemma epoch_events_steps (tr va : stream) (k : nat) save_path epoch p ckpt :
  checkpoint_event save_path epoch p ckpt ->
  steps (epoch_events tr va k ckpt) = k.
Proof.
  intros Hc. unfold epoch_events. rewrite !steps_app, steps_repeat.
  assert (E : steps ckpt = 0%nat).
  { unfold checkpoint_event in Hc. destruct save_path as [path |]; [| now subst].
    destruct (truthy_str (Some path)); [| now subst].
    destruct Hc as (a & b & c & d & ->). reflexivity. }
  rewrite E. unfold steps. simpl. lia.
Qed.

Lemma epoch_events_saved_states (tr va : stream) (k : nat) save_path epoch p ckpt :
  checkpoint_event save_path epoch p ckpt ->
  saved_states (epoch_events tr va k ckpt) = if truthy_str save_path then [p] else [].
Proof.
  intros Hc. unfold epoch_events. rewrite !saved_states_app, saved_states_repeat.
  unfold checkpoint_event in Hc. destruct save_path as [path |]; [| now subst].
  destruct (truthy_str (Some path)); [| now subst].
  destruct Hc as (a & b & c & d & ->). reflexivity.
Qed.

Lemma epochs_effects (tr va : stream) (save_path : option string) (epochs : list Z)
      (w : world) :
  labelled tr -> s_batches tr <> [] -> s_batches va <> [] ->
  exists lists w',
    foldM (run_epoch tr va (LossFn f) (OptObj step) save_path) ([], []) epochs w
    = (Ok lists, w') /\
    steps (w_log w')
    = (steps (w_log w) + List.length epochs * List.length (s_batches tr))%nat /\
    List.length (fst lists) = List.length epochs /\
    List.length (snd lists) = List.length epochs /\
    (epochs <> [] -> w_training w' = false) /\
    (epochs <> [] -> truthy_str save_path = true ->
     exists rest, saved_states (w_log w') = rest ++ [w_params w']).
Proof.
  intros Hlab Htr Hva.
  pose proof (triple_foldM (run_epoch tr va (LossFn f) (OptObj step) save_path)
                (fun pre lists w' =>
                   steps (w_log w')
                   = (steps (w_log w) + List.length pre * List.length (s_batches tr))%nat /\
                   List.length (fst lists) = List.length pre /\
                   List.length (snd lists) = List.length pre /\
                   (pre <> [] -> w_training w' = false) /\
                   (pre <> [] -> truthy_str save_path = true ->
                    exists rest, saved_states (w_log w') = rest ++ [w_params w']))
                (fun _ _ => False) epochs) as H.
  cbv beta in H.
  assert (Hstep : forall (pre : list Z) (x : Z) (s : list pyval * list pyval),
             (exists post, epochs = pre ++ x :: post) ->
             triple
               (fun w' =>
                  steps (w_log w')
                  = (steps (w_log w) + List.length pre * List.length (s_batches tr))%nat /\
                  List.length (fst s) = List.length pre /\
                  List.length (snd s) = List.length pre /\
                  (pre <> [] -> w_training w' = false) /\
                  (pre <> [] -> truthy_str save_path = true ->
                   exists rest, saved_states (w_log w') = rest ++ [w_params w']))
               (run_epoch tr va (LossFn f) (OptObj step) save_path s x)
               (fun lists w' =>
                  steps (w_log w')
                  = (steps (w_log w)
                     + List.length (pre ++ [x]) * List.length (s_batches tr))%nat /\
                  List.length (fst lists) = List.length (pre ++ [x]) /\
                  List.length (snd lists) = List.length (pre ++ [x]) /\
                  (pre ++ [x] <> [] -> w_training w' = false) /\
                  (pre ++ [x] <> [] -> truthy_str save_path = true ->
                   exists rest, saved_states (w_log w') = rest ++ [w_params w']))
               (fun _ _ => False)).
  { intros pre epoch lists _ w1 (Hs & Hl1 & Hl2 & _ & _).
    destruct (run_epoch_trace rows f step tr va save_path lists epoch w1 Hlab Htr Hva)
      as (lists' & w' & ckpt & E & Hlog & Hc & Hmode & Hl1' & Hl2').
    rewrite E. rewrite length_app. simpl.
    split; [| split; [lia | split; [lia | split; [auto |]]]].
    - rewrite Hlog, steps_app, (epoch_events_steps _ _ _ _ _ _ _ Hc), Hs. lia.
    - intros _ Hp. rewrite Hlog, saved_states_app,
        (epoch_events_saved_states _ _ _ _ _ _ _ Hc), Hp. eauto. }
  specialize (H Hstep ([], []) w).
  assert (Hinit : steps (w_log w)
                  = (steps (w_log w)
                     + @List.length Z [] * List.length (s_batches tr))%nat /\
                  List.length (fst (@nil pyval, @nil pyval)) = @List.length Z [] /\
                  List.length (snd (@nil pyval, @nil pyval)) = @List.length Z [] /\
                  (@nil Z <> [] -> w_training w = false) /\
                  (@nil Z <> [] -> truthy_str save_path = true ->
                   exists rest, saved_states (w_log w) = rest ++ [w_params w])).
  { simpl. repeat split; try lia; congruence. }
  specialize (H Hinit).
  destruct (foldM _ _ epochs w) as [[lists | e] w']; [| contradiction].
  exists lists, w'. split; [reflexivity | exact H].
Qed.

(** A run of [fit] on well-formed streams. *)
Lemma fit_effects (tr va : stream) lr l o n c save_path plot (w : world) :
  labelled tr -> s_batches tr <> [] -> s_batches va <> [] ->
  resolve_loss l = LossFn f -> resolve_optimizer lr o = OptObj step ->
  exists w',
    fit (Some tr) (Some va) lr l o n c save_path plot w = (Ok tt, w') /\
    steps (w_log w')
    = (steps (w_log w) + scheduled_epochs n c * List.length (s_batches tr))%nat /\
    ((0 < scheduled_epochs n c)%nat -> w_training w' = false) /\
    ((0 < scheduled_epochs n c)%nat -> truthy_str save_path = true ->
     exists rest, saved_states (w_log w') = rest ++ [w_params w']) /\
    (if plot
     then exists log a b, w_log w' = log ++ [EvPlot a b] /\
                          List.length a = scheduled_epochs n c /\
                          List.length b = scheduled_epochs n c
     else exists new, w_log w' = w_log w ++ new /\
                      forall a b, ~ In (EvPlot a b) new).
Proof.
  intros Hlab Htr Hva Hl Ho. unfold fit. rewrite bind_emit. cbv zeta.
  rewrite Hl, Ho. set (w1 := mkWorld _ _ _ _).
  destruct (epochs_effects tr va save_path (epoch_iter n c) w1 Hlab Htr Hva)
    as (lists & w2 & E & Hs & Hl1 & Hl2 & Hmode & Hsave).
  rewrite (bind_ok _ _ _ _ _ E). rewrite epoch_iter_length in *.
  assert (Hne : (0 < scheduled_epochs n c)%nat -> epoch_iter n c <> []).
  { intros Hpos Habs. rewrite <- epoch_iter_length, Habs in Hpos. simpl in Hpos. lia. }
  assert (Hs1 : steps (w_log w1) = steps (w_log w)).
  { unfold w1. cbn [w_log]. rewrite steps_app. unfold steps. simpl. lia. }
  destruct lists as [train_acc_list valid_acc_list]. simpl in Hl1, Hl2.
  destruct plot.
  - eexists. split; [reflexivity |]. cbn [w_params w_training w_rng w_log].
    split; [| split; [auto | split]].
    + rewrite steps_app, Hs, Hs1. unfold steps. simpl. lia.
    + intros Hpos Hp. destruct (Hsave (Hne Hpos) Hp) as [rest Er].
      exists rest. rewrite saved_states_app, Er. simpl. apply app_nil_r.
    + exists (w_log w2), train_acc_list, valid_acc_list. auto.
  - exists w2. split; [reflexivity |].
    split; [rewrite Hs, Hs1; reflexivity | split; [auto | split; [auto |]]].
    pose proof (sound_foldM (fun ev => match ev with
                                       | EvPlot _ _ => False
                                       | _ => True
                                       end)
                  (w_log w1)
                  (run_epoch tr va (LossFn f) (OptObj step) save_path)
                  (epoch_iter n c) ([], [])) as Hsound.
    assert (Hx : extends_ok (fun ev => match ev with
                                       | EvPlot _ _ => False
                                       | _ => True
                                       end) (w_log w1) w2).
    { assert (H0 := Hsound
                      ltac:(intros s' x _; apply sound_run_epoch; simpl; auto)
                      w1 (extends_ok_refl _ w1)).
      rewrite E in H0. exact H0. }
    destruct Hx as (new & Enew & Hnew).
    exists (EvPrint :: new). split.
    + rewrite Enew. unfold w1. cbn [w_log]. now rewrite <- app_assoc.
    + intros a b [Habs | Hin]; [discriminate |].
      rewrite Forall_forall in Hnew. exact (Hnew _ Hin).
Qed.
End FitEffects.

(** X11: on well-formed streams [fit] performs exactly one optimizer
    step per training batch per scheduled epoch, and, when at least one
    epoch is scheduled, leaves the network in evaluation mode (the last
    thing an epoch does to the mode is the validation pass). *)
Theorem fit_optimizer_steps {B : Backend} (tr va : stream) lr l o n c save_path plot
        (w : world) f step :
  row_per_sample -> labelled tr -> s_batches tr <> [] -> s_batches va <> [] ->
  resolve_loss l = LossFn f -> resolve_optimizer lr o = OptObj step ->
  fst (fit (Some tr) (Some va) lr l o n c save_path plot w) = Ok tt /\
  steps (w_log (snd (fit (Some tr) (Some va) lr l o n c save_path plot w)))
  = (steps (w_log w) + scheduled_epochs n c * List.length (s_batches tr))%nat /\
  ((0 < scheduled_epochs n c)%nat ->
   w_training (snd (fit (Some tr) (Some va) lr l o n c save_path plot w)) = false).
Proof.
  intros Hrows Hlab Htr Hva Hl Ho.
  destruct (fit_effects Hrows f step tr va lr l o n c save_path plot w Hlab Htr Hva Hl Ho)
    as (w' & E & Hs & Hm & _).
  rewrite E. simpl. auto.
Qed.

Lemma fit_optimizer_steps_witness :
  let run := @fit Toy.backend (Some Toy.train) (Some Toy.valid) (1 # 100)
                  Toy.loss_fn Toy.plain_step 3 None None false Toy.w0 in
  fst run = Ok tt /\
  steps (w_log (snd run))
  = (steps (w_log Toy.w0) + scheduled_epochs 3 None * List.length (s_batches Toy.train))%nat /\
  ((0 < scheduled_epochs 3 None)%nat -> w_training (snd run) = false).
Proof.
  apply (@fit_optimizer_steps Toy.backend Toy.train Toy.valid (1 # 100)
           Toy.loss_fn Toy.plain_step 3%Z None None false Toy.w0
           Toy.errors (fun g p => (p - g)%Z)).
  - intros t p X. split; [apply length_map |].
    apply Forall_forall. intros row Hrow. apply in_map_iff in Hrow.
    destruct Hrow as (x & <- & _). discriminate.
  - intros X y [[= <- <-] | [[= <- <-] | []]]; reflexivity.
  - discriminate.
  - discriminate.
  - reflexivity.
  - reflexivity.
Defined.

(** X12: on well-formed streams, with a save path and at least one
    scheduled epoch, the last checkpoint [fit] has written holds the
    parameters the network has when [fit] returns. *)
Theorem fit_last_checkpoint_is_final {B : Backend} (tr va : stream) lr l o n c save_path
        plot (w : world) f step :
  row_per_sample -> labelled tr -> s_batches tr <> [] -> s_batches va <> [] ->
  resolve_loss l = LossFn f -> resolve_optimizer lr o = OptObj step ->
  (0 < scheduled_epochs n c)%nat -> truthy_str save_path = true ->
  exists rest,
    saved_states (w_log (snd (fit (Some tr) (Some va) lr l o n c save_path plot w)))
    = rest ++ [w_params (snd (fit (Some tr) (Some va) lr l o n c save_path plot w))].
Proof.
  intros Hrows Hlab Htr Hva Hl Ho Hpos Hp.
  destruct (fit_effects Hrows f step tr va lr l o n c save_path plot w Hlab Htr Hva Hl Ho)
    as (w' & E & _ & _ & Hs & _).
  rewrite E. simpl. auto.
Qed.

Lemma fit_last_checkpoint_is_final_witness :
  let run := @fit Toy.backend (Some Toy.train) (Some Toy.valid) (1 # 100)
                  Toy.loss_fn Toy.plain_step 2 None (Some "out") true Toy.w0 in
  exists rest, saved_states (w_log (snd run)) = rest ++ [w_params (snd run)].
Proof.
  apply (@fit_last_checkpoint_is_final Toy.backend Toy.train Toy.valid (1 # 100)
           Toy.loss_fn Toy.plain_step 2%Z None (Some "out") true Toy.w0
           Toy.errors (fun g p => (p - g)%Z)).
  - intros t p X. split; [apply length_map |].
    apply Forall_forall. intros row Hrow. apply in_map_iff in Hrow.
    destruct Hrow as (x & <- & _). discriminate.
  - intros X y [[= <- <-] | [[= <- <-] | []]]; reflexivity.
  - discriminate.
  - discriminate.
  - reflexivity.
  - reflexivity.
  - simpl. lia.
  - reflexivity.
Defined.

(** X13: on well-formed streams, [fit] with [is_plot] plots once, as
    its last action, and what it plots are the two accuracy curves of
    the run: the training accuracy [train_acc_sum / n] of every
    scheduled epoch and the accuracy the evaluation of that epoch
    returned, in the order of the epochs; nothing before that last
    event is a plot.  Without [is_plot] it never plots. *)
Theorem fit_plots_the_curves {B : Backend} (tr va : stream) lr l o n c save_path
        (w : world) f step :
  row_per_sample -> labelled tr -> s_batches tr <> [] -> s_batches va <> [] ->
  resolve_loss l = LossFn f -> resolve_optimizer lr o = OptObj step ->
  (exists rs w2 new,
      epochs_reported tr va (LossFn f) (OptObj step) save_path
                      (after_print w) (epoch_iter n c) rs w2 /\
      List.length rs = scheduled_epochs n c /\
      w_log (snd (fit (Some tr) (Some va) lr l o n c save_path true w))
      = w_log w ++ new ++ [EvPlot (train_curve rs) (valid_curve rs)] /\
      forall a b, ~ In (EvPlot a b) new) /\
  (exists new,
      w_log (snd (fit (Some tr) (Some va) lr l o n c save_path false w)) = w_log w ++ new /\
      forall a b, ~ In (EvPlot a b) new).
Proof.
  intros Hrows Hlab Htr Hva Hl Ho.
  assert (H : forall plot,
             exists rs w2 new,
               epochs_reported tr va (LossFn f) (OptObj step) save_path
                               (after_print w) (epoch_iter n c) rs w2 /\
               List.length rs = scheduled_epochs n c /\
               w_log (snd (fit (Some tr) (Some va) lr l o n c save_path plot w))
               = w_log w ++ new
                 ++ (if plot then [EvPlot (train_curve rs) (valid_curve rs)] else []) /\
               forall a b, ~ In (EvPlot a b) new).
  { intros plot.
    destruct (fit_total Hrows f step tr va lr l o n c save_path plot w Hlab Htr Hva Hl Ho)
      as (w' & E & _).
    destruct (fit_reported tr va lr l o n c save_path plot w)
      as (done & rest & rs & w2 & Ed & Hr & _ & Hok).
    rewrite E in Hok. destruct (Hok eq_refl) as [-> Hlog].
    rewrite app_nil_r in Ed. subst done. rewrite Hl, Ho in Hr.
    destruct (epochs_reported_no_plot _ _ _ _ _ _ _ _ _ Hr) as (new & En & Hnew).
    exists rs, w2, ([EvPrint] ++ new). split; [exact Hr |]. split.
    - rewrite <- epoch_iter_length.
      now destruct (epochs_reported_saves _ _ _ _ _ _ _ _ _ Hr).
    - split.
      + rewrite E. cbn [snd] in Hlog |- *. rewrite Hlog, En. unfold after_print.
        cbn [w_log].
        now rewrite <- !app_assoc.
      + intros a b [Hin | Hin]; [discriminate |].
        rewrite Forall_forall in Hnew. exact (Hnew _ Hin). }
  split.
  - exact (H true).
  - destruct (H false) as (rs & w2 & new & _ & _ & E & Hnew).
    exists new. split; [| exact Hnew]. rewrite E. now rewrite app_nil_r.
Qed.

Lemma fit_plots_the_curves_witness :
  (exists rs w2 new,
      @epochs_reported Toy.backend Toy.train Toy.valid Toy.loss_fn Toy.plain_step None
                       (after_print Toy.w0) (epoch_iter 2 (Some 3%Z)) rs w2 /\
      List.length rs = scheduled_epochs 2 (Some 3%Z) /\
      w_log (snd (@fit Toy.backend (Some Toy.train) (Some Toy.valid) (1 # 100)
                       Toy.loss_fn Toy.plain_step 2 (Some 3%Z) None true Toy.w0))
      = w_log Toy.w0 ++ new ++ [EvPlot (train_curve rs) (valid_curve rs)] /\
      forall a b, ~ In (EvPlot a b) new) /\
  (exists new,
      w_log (snd (@fit Toy.backend (Some Toy.train) (Some Toy.valid) (1 # 100)
                       Toy.loss_fn Toy.plain_step 2 (Some 3%Z) None false Toy.w0))
      = w_log Toy.w0 ++ new /\
      forall a b, ~ In (EvPlot a b) new).
Proof.
  apply (@fit_plots_the_curves Toy.backend Toy.train Toy.valid (1 # 100)
           Toy.loss_fn Toy.plain_step 2%Z (Some 3%Z) None Toy.w0
           Toy.errors (fun g p => (p - g)%Z)).
  - intros t p X. split; [apply length_map |].
    apply Forall_forall. intros row Hrow. apply in_map_iff in Hrow.
    destruct Hrow as (x & <- & _). discriminate.
  - intros X y [[= <- <-] | [[= <- <-] | []]]; reflexivity.
  - discriminate.
  - discriminate.
  - reflexivity.
  - reflexivity.
Defined.

(** X14: one epoch of [fit] on well-formed streams, in the order of its
    events: the training pass with exactly one optimizer step per
    batch, then the validation pass, then the progress line, then (with
    a save path) the checkpoint under the documented name, holding the
    parameters the epoch ends with. *)
Theorem epoch_event_order {B : Backend} (tr va : stream) (save_path : option string)
        (lists : list pyval * list pyval) (epoch : Z) (w : world) f step :
  row_per_sample -> labelled tr -> s_batches tr <> [] -> s_batches va <> [] ->
  exists lists' w' ckpt,
    run_epoch tr va (LossFn f) (OptObj step) save_path lists epoch w = (Ok lists', w') /\
    w_log w' = w_log w ++ epoch_events tr va (List.length (s_batches tr)) ckpt /\
    checkpoint_event save_path epoch (w_params w') ckpt.
Proof.
  intros Hrows Hlab Htr Hva.
  destruct (run_epoch_trace Hrows f step tr va save_path lists epoch w Hlab Htr Hva)
    as (lists' & w' & ckpt & E & Hlog & Hc & _).
  exists lists', w', ckpt. auto.
Qed.

Lemma epoch_event_order_witness :
  exists lists' w' ckpt,
    @run_epoch Toy.backend Toy.train Toy.valid Toy.loss_fn Toy.plain_step
               (Some "out") ([], []) 0 Toy.w0
    = (Ok lists', w') /\
    w_log w' = w_log Toy.w0
               ++ epoch_events Toy.train Toy.valid (List.length (s_batches Toy.train)) ckpt /\
    checkpoint_event (Some "out") 0 (w_params w') ckpt.
Proof.
  apply (@epoch_event_order Toy.backend Toy.train Toy.valid (Some "out") ([], []) 0%Z
           Toy.w0 Toy.errors (fun g p => (p - g)%Z)).
  - intros t p X. split; [apply length_map |].
    apply Forall_forall. intros row Hrow. apply in_map_iff in Hrow.
    destruct Hrow as (x & <- & _). discriminate.
  - intros X y [[= <- <-] | [[= <- <-] | []]]; reflexivity.
  - discriminate.
  - discriminate.
Defined.

(** ** [fit] on a stream without batches *)
Section EmptyStreams.
Context {B : Backend}.
Hypothesis rows : row_per_sample.
Variable f : list (list num) -> list Z -> num.

Lemma bind_lift_raise {A C} (e : exn) (k : A -> M C) (w : world) :
  bind (lift (Raise e)) k w = (Raise e, w).
Proof. reflexivity. Qed.

Lemma run_epoch_no_training_batches (tr va : stream) o save_path lists epoch (w : world) :
  s_batches tr = [] ->
  exists w',
    run_epoch tr va (LossFn f) o save_path lists epoch w = (Raise ZeroDivisionError, w') /\
    w_params w' = w_params w /\
    w_log w' = w_log w ++ [EvIter (s_name tr); EvIter (s_name va)].
Proof.
  intros Htr. destruct lists as [train_acc_list valid_acc_list].
  unfold run_epoch. rewrite bind_set_training, bind_emit, Htr. cbn [foldM].
  rewrite bind_ret. set (w1 := mkWorld _ _ _ _).
  destruct (s_batches va) as [|b bs] eqn:Hva.
  - rewrite (bind_raise _ _ _ _ _
               (evaluation_empty_run va "Accuracy" (Some (LossFn f)) false w1 Hva eq_refl)).
    eexists. split; [reflexivity |]. unfold w1. cbn [w_params w_log].
    split; [reflexivity | now rewrite <- app_assoc].
  - assert (Hne : s_batches va <> []) by (rewrite Hva; discriminate).
    destruct (evaluation_plain_run va "Accuracy" f w1 rows Hne) as (y_pred & v & _ & E).
    rewrite Hva in E. rewrite (bind_ok _ _ _ _ _ E). cbn [unpack]. rewrite bind_ret.
    cbn [py_div]. rewrite Z.eqb_refl, bind_lift_raise.
    eexists. split; [reflexivity |]. unfold w1. cbn [w_params w_log].
    split; [reflexivity | now rewrite <- app_assoc].
Qed.

Lemma run_epoch_no_validation_batches (tr va : stream) step save_path lists epoch
      (w : world) :
  labelled tr -> s_batches va = [] ->
  exists w',
    run_epoch tr va (LossFn f) (OptObj step) save_path lists epoch w
    = (Raise ZeroDivisionError, w') /\
    w_log w' = w_log w ++ [EvIter (s_name tr)]
               ++ repeat EvStep (List.length (s_batches tr)) ++ [EvIter (s_name va)].
Proof.
  intros Hlab Hva. destruct lists as [train_acc_list valid_acc_list].
  unfold run_epoch. rewrite bind_set_training, bind_emit.
  set (w1 := mkWorld _ _ _ _).
  destruct (train_loop_trace rows f step (s_batches tr) w1 Hlab)
    as (n & a & t & p' & E & _ & _).
  rewrite (bind_ok _ _ _ _ _ E).
  rewrite (bind_raise _ _ _ _ _
             (evaluation_empty_run va "Accuracy" (Some (LossFn f)) false _ Hva eq_refl)).
  eexists. split; [reflexivity |]. unfold w1. cbn [w_log].
  now rewrite <- !app_assoc.
Qed.
End EmptyStreams.

(** X15: on a training stream without batches, with an epoch scheduled
    and a callable loss, [fit] raises [ZeroDivisionError] in its first
    epoch (at the validation loss when the validation stream is empty
    too, else at the training accuracy [0.0 / 0]); the parameters are
    untouched and nothing is written. *)
Theorem fit_empty_training_stream {B : Backend} (tr va : stream) lr l o n c save_path plot
        (w : world) f :
  row_per_sample ->
  s_batches tr = [] -> epoch_iter n c <> [] -> resolve_loss l = LossFn f ->
  fst (fit (Some tr) (Some va) lr l o n c save_path plot w) = Raise ZeroDivisionError /\
  w_params (snd (fit (Some tr) (Some va) lr l o n c save_path plot w)) = w_params w /\
  w_log (snd (fit (Some tr) (Some va) lr l o n c save_path plot w))
  = w_log w ++ [EvPrint; EvIter (s_name tr); EvIter (s_name va)].
Proof.
  intros Hrows Htr He Hl. unfold fit. rewrite bind_emit. cbv zeta. rewrite Hl.
  destruct (epoch_iter n c) as [|e es]; [congruence |]. cbn [foldM].
  set (w1 := mkWorld _ _ _ _).
  destruct (run_epoch_no_training_batches Hrows f tr va (resolve_optimizer lr o)
              save_path ([], []) e w1 Htr) as (w' & E & Hp & Hlog).
  rewrite (bind_raise _ _ _ _ _ (bind_raise _ _ _ _ _ E)). simpl.
  split; [reflexivity |]. split; [exact Hp |].
  rewrite Hlog. unfold w1. cbn [w_log]. now rewrite <- app_assoc.
Qed.

Lemma fit_empty_training_stream_witness :
  let run := @fit Toy.backend (Some Toy.no_batches) (Some Toy.valid) (1 # 100)
                  Toy.loss_fn Toy.plain_step 3 None (Some "out") true Toy.w0 in
  fst run = Raise ZeroDivisionError /\
  w_params (snd run) = w_params Toy.w0 /\
  w_log (snd run)
  = w_log Toy.w0 ++ [EvPrint; EvIter (s_name Toy.no_batches); EvIter (s_name Toy.valid)].
Proof.
  apply (@fit_empty_training_stream Toy.backend Toy.no_batches Toy.valid (1 # 100)
           Toy.loss_fn Toy.plain_step 3%Z None (Some "out") true Toy.w0 Toy.errors).
  - intros t p X. split; [apply length_map |].
    apply Forall_forall. intros row Hrow. apply in_map_iff in Hrow.
    destruct Hrow as (x & <- & _). discriminate.
  - reflexivity.
  - discriminate.
  - reflexivity.
Defined.

(** X16: on a validation stream without batches, with an epoch
    scheduled and a callable loss and optimizer, [fit] first runs the
    whole training pass of its first epoch, one optimizer step per
    batch, and then raises [ZeroDivisionError] at the validation loss:
    the parameters have moved but no checkpoint is written. *)
Theorem fit_empty_validation_stream {B : Backend} (tr va : stream) lr l o n c save_path
        plot (w : world) f step :
  row_per_sample -> labelled tr ->
  s_batches va = [] -> epoch_iter n c <> [] ->
  resolve_loss l = LossFn f -> resolve_optimizer lr o = OptObj step ->
  fst (fit (Some tr) (Some va) lr l o n c save_path plot w) = Raise ZeroDivisionError /\
  w_log (snd (fit (Some tr) (Some va) lr l o n c save_path plot w))
  = w_log w ++ [EvPrint; EvIter (s_name tr)]
    ++ repeat EvStep (List.length (s_batches tr)) ++ [EvIter (s_name va)].
Proof.
  intros Hrows Hlab Hva He Hl Ho. unfold fit. rewrite bind_emit. cbv zeta. rewrite Hl, Ho.
  destruct (epoch_iter n c) as [|e es]; [congruence |]. cbn [foldM].
  set (w1 := mkWorld _ _ _ _).
  destruct (run_epoch_no_validation_batches Hrows f tr va step save_path ([], []) e w1
              Hlab Hva) as (w' & E & Hlog).
  rewrite (bind_raise _ _ _ _ _ (bind_raise _ _ _ _ _ E)). simpl.
  split; [reflexivity |].
  rewrite Hlog. unfold w1. cbn [w_log]. now rewrite <- !app_assoc.
Qed.

Lemma fit_empty_validation_stream_witness :
  let run := @fit Toy.backend (Some Toy.train) (Some Toy.no_batches) (1 # 100)
                  Toy.loss_fn Toy.plain_step 3 None (Some "out") true Toy.w0 in
  fst run = Raise ZeroDivisionError /\
  w_log (snd run)
  = w_log Toy.w0 ++ [EvPrint; EvIter (s_name Toy.train)]
    ++ repeat EvStep (List.length (s_batches Toy.train)) ++ [EvIter (s_name Toy.no_batches)].
Proof.
  apply (@fit_empty_validation_stream Toy.backend Toy.train Toy.no_batches (1 # 100)
           Toy.loss_fn Toy.plain_step 3%Z None (Some "out") true Toy.w0
           Toy.errors (fun g p => (p - g)%Z)).
  - intros t p X. split; [apply length_map |].
    apply Forall_forall. intros row Hrow. apply in_map_iff in Hrow.
    destruct Hrow as (x & <- & _). discriminate.
  - intros X y [[= <- <-] | [[= <- <-] | []]]; reflexivity.
  - reflexivity.
  - discriminate.
  - reflexivity.
  - reflexivity.
Defined.

(** ** Where the raw string is used *)
Section RawString.
Context {B : Backend}.

(** An evaluation without TTA, returning or raising, leaves the
    parameters alone and adds the opening of its stream to the log. *)
Lemma evaluation_plain_effect (va : stream) (score : string) (lc : option loss_arg)
      (w : world) :
  w_params (snd (evaluation va score lc false w)) = w_params w /\
  w_log (snd (evaluation va score lc false w)) = w_log w ++ [EvIter (s_name va)].
Proof.
  split.
  - unfold evaluation. rewrite bind_emit.
    apply (keeps_bind (fun w' => w_params w' = w_params w)); [| | reflexivity].
    + apply keeps_foldM. intros acc b.
      apply keeps_eval_batch; intros w' ? H; exact H.
    + intros acc. apply keeps_evaluation_tail.
  - unfold evaluation. rewrite bind_emit.
    apply (keeps_bind (fun w' => w_log w' = w_log w ++ [EvIter (s_name va)]));
      [| | reflexivity].
    + apply keeps_foldM. intros acc b.
      apply keeps_eval_batch; intros w' ? H; exact H.
    + intros acc. apply keeps_evaluation_tail.
Qed.

(** The first epoch over a training stream without batches: the
    evaluation runs, and the epoch raises in it or right after it. *)
Lemma fit_empty_training_fails (tr va : stream) lr l o n c save_path plot (w : world) :
  epoch_iter n c <> [] -> s_batches tr = [] ->
  exists e w',
    fit (Some tr) (Some va) lr l o n c save_path plot w = (Raise e, w') /\
    w_params w' = w_params w /\
    w_log w' = w_log w ++ [EvPrint; EvIter (s_name tr); EvIter (s_name va)].
Proof.
  intros He Htr. unfold fit. rewrite bind_emit. cbv zeta.
  destruct (epoch_iter n c) as [|e es]; [congruence |].
  cbn [foldM]. unfold run_epoch at 1.
  rewrite !bind_assoc, bind_set_training, !bind_assoc, bind_emit.
  cbn [w_params w_training w_rng w_log]. rewrite Htr. cbn [foldM].
  rewrite !bind_assoc, bind_ret, !bind_assoc.
  set (w1 := mkWorld _ _ _ _).
  destruct (evaluation_plain_effect va "Accuracy" (Some (resolve_loss l)) w1) as [Hp Hl].
  unfold bind at 1.
  destruct (evaluation va "Accuracy" (Some (resolve_loss l)) false w1) as [[r | e'] w3];
    cbn [snd] in Hp, Hl.
  - assert (Hlog : w_log w3 = w_log w ++ [EvPrint; EvIter (s_name tr); EvIter (s_name va)])
      by (rewrite Hl; unfold w1; cbn [w_log]; now rewrite <- !app_assoc).
    destruct r as [score | valid_acc valid_loss].
    + exists TypeError, w3. repeat split; assumption.
    + exists ZeroDivisionError, w3. unfold bind. cbn [unpack ret py_div lift].
      rewrite Z.eqb_refl. repeat split; assumption.
  - exists e', w3. split; [reflexivity |]. split; [exact Hp |].
    rewrite Hl. unfold w1. cbn [w_log]. now rewrite <- !app_assoc.
Qed.

(** The loss string is called in the first batch of the evaluation. *)
Lemma fit_stops_at_evaluation_string (tr va : stream) lr l o n c save_path plot
      (w : world) :
  row_per_sample ->
  loss_unrecognized l = true -> truthy_loss (Some l) = true ->
  epoch_iter n c <> [] -> s_batches tr = [] -> s_batches va <> [] ->
  fit (Some tr) (Some va) lr l o n c save_path plot w
  = (Raise TypeError,
     mkWorld (w_params w) false (w_rng w)
             (w_log w ++ [EvPrint; EvIter (s_name tr); EvIter (s_name va)])).
Proof.
  intros Hrows Hl Ht He Htr Hva. unfold fit. rewrite bind_emit. cbv zeta.
  destruct (resolve_loss_unknown l Hl) as (s & -> & ->).
  destruct (epoch_iter n c) as [|e es]; [congruence |].
  cbn [foldM]. unfold run_epoch at 1.
  rewrite !bind_assoc, bind_set_training, !bind_assoc, bind_emit.
  cbn [w_params w_training w_rng w_log]. rewrite Htr. cbn [foldM].
  rewrite !bind_assoc, bind_ret, !bind_assoc. unfold evaluation at 1.
  rewrite !bind_assoc, bind_emit. cbn [w_params w_training w_rng w_log].
  destruct (s_batches va) as [|[X y] bs]; [congruence |].
  cbn [foldM]. unfold eval_batch at 1. rewrite !bind_assoc.
  set (w1 := mkWorld _ _ _ _).
  destruct (predict_ok X w1 Hrows) as (labels & E & _).
  rewrite (bind_ok _ _ _ _ _ E), Ht.
  rewrite !bind_assoc, bind_set_training, !bind_assoc, bind_call_model.
  unfold w1. cbn [call_loss w_params w_training w_rng w_log].
  unfold bind, raise. now rewrite <- !app_assoc.
Qed.

Lemma steps_unchanged (log new : list event) :
  Forall (fun ev => ev <> EvStep) new -> steps (log ++ new) = steps log.
Proof.
  intros H. unfold steps. rewrite filter_app, length_app.
  induction H as [|ev t Hev _ IH]; simpl; [lia |].
  destruct ev; simpl; congruence || exact IH.
Qed.
End RawString.

(** C9: a loss name other than "cross_entropy" or an optimizer name
    other than "sgd" (compared in lower case; only these two names are
    known to the dispatch) is left as the string it is, and [fit] given
    both streams does not raise [InvalidArguments].  Every call of the
    raw string fails: calling the loss string raises [TypeError], and
    [zero_grad] on the optimizer string raises [AttributeError].  Once an
    epoch is scheduled, [fit] fails in its first epoch and no parameter
    has been updated: on a training stream with a batch, at the first
    training batch, with [TypeError] where the loss string is called,
    else with [AttributeError] at the string optimizer; on a training
    stream without batches and a validation stream with a batch, with
    [TypeError] where the evaluation calls the (non-empty) loss
    string.  Where the dispatch constructs [optim.SGD], the learning
    rate is one the constructor accepts. *)
Theorem fit_unrecognized_name {B : Backend} (tr va : stream) lr l o n c save_path plot
        (w : world) :
  loss_unrecognized l = true \/ optimizer_unrecognized o = true ->
  dispatch_completes lr o ->
  (loss_unrecognized l = true -> resolve_loss l = l) /\
  (optimizer_unrecognized o = true -> resolve_optimizer lr o = o) /\
  (forall s, resolve_loss (LossStr s) = LossStr s <-> lower s <> "cross_entropy") /\
  (forall s, resolve_optimizer lr (OptStr s) = OptStr s <-> lower s <> "sgd") /\
  ~ is_InvalidArguments (fst (fit (Some tr) (Some va) lr l o n c save_path plot w)) /\
  (forall s scores y (w' : world),
      call_loss (LossStr s) scores y w' = (Raise TypeError, w')) /\
  (forall s l' X y (w' : world),
      optimizer_update (OptStr s) l' X y w' = (Raise AttributeError, w')) /\
  (epoch_iter n c <> [] ->
   exists e,
     fst (fit (Some tr) (Some va) lr l o n c save_path plot w) = Raise e /\
     w_params (snd (fit (Some tr) (Some va) lr l o n c save_path plot w)) = w_params w /\
     steps (w_log (snd (fit (Some tr) (Some va) lr l o n c save_path plot w)))
     = steps (w_log w)) /\
  (epoch_iter n c <> [] -> s_batches tr <> [] ->
   fit (Some tr) (Some va) lr l o n c save_path plot w
   = (Raise (if loss_unrecognized l then TypeError else AttributeError),
      mkWorld (w_params w) true (w_rng w)
              (w_log w ++ [EvPrint; EvIter (s_name tr)]))) /\
  (epoch_iter n c <> [] -> s_batches tr = [] -> s_batches va <> [] ->
   row_per_sample -> loss_unrecognized l = true -> truthy_loss (Some l) = true ->
   fit (Some tr) (Some va) lr l o n c save_path plot w
   = (Raise TypeError,
      mkWorld (w_params w) false (w_rng w)
              (w_log w ++ [EvPrint; EvIter (s_name tr); EvIter (s_name va)]))).
Proof.
  intros H _.
  split; [| split; [| split; [| split; [| split; [| split; [| split; [| split;
    [| split]]]]]]]].
  - intros Hl. destruct (resolve_loss_unknown l Hl) as (s & -> & E). exact E.
  - intros Ho. destruct (resolve_optimizer_unknown lr o Ho) as (s & -> & E). exact E.
  - intros s. simpl.
    destruct (String.eqb_spec (lower s) "cross_entropy"); split;
      (discriminate || congruence || auto).
  - intros s. simpl.
    destruct (String.eqb_spec (lower s) "sgd"); split;
      (discriminate || congruence || auto).
  - apply fit_given_streams_no_InvalidArguments.
  - reflexivity.
  - reflexivity.
  - intros He. destruct (s_batches tr) as [|b bs] eqn:Htr.
    + destruct (fit_empty_training_fails tr va lr l o n c save_path plot w He Htr)
        as (e & w' & E & Hp & Hlog).
      rewrite E. exists e. split; [reflexivity |]. split; [exact Hp |].
      cbn [snd]. rewrite Hlog. apply steps_unchanged. repeat constructor; discriminate.
    + assert (Hne : s_batches tr <> []) by (rewrite Htr; discriminate).
      rewrite (fit_stops_at_string tr va lr l o n c save_path plot w H He Hne).
      eexists. split; [reflexivity |]. split; [reflexivity |].
      cbn [snd w_log]. apply steps_unchanged. repeat constructor; discriminate.
  - intros He Hne. apply (fit_stops_at_string tr va lr l o n c save_path plot w H He Hne).
  - intros He Htr Hva Hrows Hl Ht.
    now apply fit_stops_at_evaluation_string.
Qed.

Lemma fit_unrecognized_name_witness :
  let l := @LossStr Toy.backend "mse" in
  let o := @OptStr Toy.backend "sgd" in
  let run := @fit Toy.backend (Some Toy.no_batches) (Some Toy.valid) (1 # 100) l o
                  2 None None false in
  (loss_unrecognized l = true -> resolve_loss l = l) /\
  (optimizer_unrecognized o = true -> @resolve_optimizer Toy.backend (1 # 100) o = o) /\
  (forall s, @resolve_loss Toy.backend (LossStr s) = LossStr s
             <-> lower s <> "cross_entropy") /\
  (forall s, @resolve_optimizer Toy.backend (1 # 100) (OptStr s) = OptStr s
             <-> lower s <> "sgd") /\
  ~ is_InvalidArguments (fst (run Toy.w0)) /\
  (forall s scores y (w' : @world Toy.backend),
      call_loss (LossStr s) scores y w' = (Raise TypeError, w')) /\
  (forall s l' X y (w' : @world Toy.backend),
      optimizer_update (OptStr s) l' X y w' = (Raise AttributeError, w')) /\
  (epoch_iter 2 None <> [] ->
   exists e,
     fst (run Toy.w0) = Raise e /\
     w_params (snd (run Toy.w0)) = w_params Toy.w0 /\
     steps (w_log (snd (run Toy.w0))) = steps (w_log Toy.w0)) /\
  (epoch_iter 2 None <> [] -> s_batches Toy.no_batches <> [] ->
   run Toy.w0
   = (Raise (if loss_unrecognized l then TypeError else AttributeError),
      mkWorld (w_params Toy.w0) true (w_rng Toy.w0)
              (w_log Toy.w0 ++ [EvPrint; EvIter (s_name Toy.no_batches)]))) /\
  (epoch_iter 2 None <> [] -> s_batches Toy.no_batches = [] -> s_batches Toy.valid <> [] ->
   @row_per_sample Toy.backend -> loss_unrecognized l = true ->
   truthy_loss (Some l) = true ->
   run Toy.w0
   = (Raise TypeError,
      mkWorld (w_params Toy.w0) false (w_rng Toy.w0)
              (w_log Toy.w0
               ++ [EvPrint; EvIter (s_name Toy.no_batches); EvIter (s_name Toy.valid)]))).
Proof.
  apply (@fit_unrecognized_name Toy.backend Toy.no_batches Toy.valid (1 # 100)
           (@LossStr Toy.backend "mse") (@OptStr Toy.backend "sgd")
           2%Z None None false Toy.w0).
  - left. reflexivity.
  - reflexivity.
Defined.

(** ** The TTA reduction on a majority *)

Lemma count_two (a b : Z) (l : list Z) :
  a <> b -> (count a l + count b l <= List.length l)%nat.
Proof.
  intros Hab. unfold count. induction l as [|x t IH]; simpl; [lia |].
  destruct (Z.eqb_spec a x), (Z.eqb_spec b x); simpl; lia.
Qed.

(** X17: when at least three of the five per-copy predictions of a
    sample are the same label, the TTA reduction
    [stats.mode(pred_y_list)[0][0]] holds that label. *)
Theorem tta_majority_label (l : list Z) (a : Z) :
  List.length l = 5%nat -> (3 <= count a l)%nat ->
  mode_first_row (map (fun p => [p]) l) = Ok (LabArr [a]).
Proof.
  intros Hlen Ha.
  assert (Hne : l <> []) by (destruct l; [discriminate | congruence]).
  destruct (tta_reduction_smallest_mode l Hne) as (m & E & [Hin Hmax] & _).
  rewrite E. destruct (Z.eq_dec m a) as [-> | Hma]; [reflexivity |].
  pose proof (count_two m a l Hma). specialize (Hmax a). lia.
Qed.

Lemma tta_majority_label_witness :
  mode_first_row (map (fun p => [p]) [1; 0; 1; 2; 1]%Z) = Ok (LabArr [1%Z]).
Proof.
  apply (tta_majority_label [1; 0; 1; 2; 1]%Z 1%Z).
  - reflexivity.
  - vm_compute. lia.
Defined.

(** ** The numbers of the checkpoints *)

Lemma py_range_nth (a b : Z) (i : nat) (e : Z) :
  nth_error (py_range a b) i = Some e -> e = (a + Z.of_nat i)%Z.
Proof.
  unfold py_range. rewrite nth_error_map.
  destruct (nth_error (seq 0 (Z.to_nat (b - a))) i) as [j |] eqn:E; [| discriminate].
  intros [= <-].
  assert (Hi : (i < List.length (seq 0 (Z.to_nat (b - a))))%nat)
    by (apply nth_error_Some; congruence).
  rewrite (nth_error_nth' _ 0%nat Hi) in E. injection E as <-.
  rewrite length_seq in Hi. now rewrite seq_nth.
Qed.

Lemma epoch_iter_nth (n : Z) (c : option Z) (i : nat) (e : Z) :
  nth_error (epoch_iter n c) i = Some e -> e = (first_epoch n c + Z.of_nat i)%Z.
Proof.
  unfold epoch_iter, first_epoch. destruct c as [c |].
  - destruct (truthy_int (Some c)); apply py_range_nth.
  - apply py_range_nth.
Qed.

Lemma Forall2_nth_error_r {X Y} (R : X -> Y -> Prop) (l : list X) (l' : list Y)
      (i : nat) (y : Y) :
  Forall2 R l l' -> nth_error l' i = Some y ->
  exists x, nth_error l i = Some x /\ R x y.
Proof.
  intros H. revert i. induction H as [|x0 y0 l l' Hxy _ IH]; intros [|i] Hi;
    simpl in *; try discriminate.
  - injection Hi as <-. eauto.
  - now apply IH.
Qed.

(** X18: on well-formed streams and with a save path, [fit] writes one
    checkpoint per scheduled epoch, and the [i]-th one (from 0) is
    named for epoch number [i + 1] in a fresh run and
    [num_epochs + i + 1] when [checkpoint_epochs] is given: a continued
    run numbers its checkpoints after those of the run it continues. *)
Theorem fit_checkpoint_numbers {B : Backend} (tr va : stream) lr l o n c path plot
        (w : world) f step :
  row_per_sample -> labelled tr -> s_batches tr <> [] -> s_batches va <> [] ->
  resolve_loss l = LossFn f -> resolve_optimizer lr o = OptObj step ->
  truthy_str (Some path) = true ->
  exists new,
    saves (w_log (snd (fit (Some tr) (Some va) lr l o n c (Some path) plot w)))
    = saves (w_log w) ++ new /\
    List.length new = scheduled_epochs n c /\
    forall i name,
      nth_error new i = Some name ->
      exists a b c' d,
        name = documented_name path (first_epoch n c + Z.of_nat i + 1) a b c' d.
Proof.
  intros Hrows Hlab Htr Hva Hl Ho Hp.
  destruct (fit_total Hrows f step tr va lr l o n c (Some path) plot w Hlab Htr Hva Hl Ho)
    as (w' & E & _ & new & Hs & Hc).
  rewrite E. exists new. split; [exact Hs |].
  unfold checkpoints_of in Hc. rewrite Hp in Hc. split.
  - rewrite <- epoch_iter_length. symmetry. eapply Forall2_length; eauto.
  - intros i name Hi.
    destruct (Forall2_nth_error_r _ _ _ i name Hc Hi) as (e & He & a & b & c' & d & ->).
    apply epoch_iter_nth in He. subst e. now exists a, b, c', d.
Qed.

Lemma fit_checkpoint_numbers_witness :
  exists new,
    saves (w_log (snd (@fit Toy.backend (Some Toy.train) (Some Toy.valid) (1 # 100)
                            Toy.loss_fn Toy.plain_step 2 (Some 3%Z) (Some "out") false
                            Toy.w0)))
    = saves (w_log Toy.w0) ++ new /\
    List.length new = scheduled_epochs 2 (Some 3%Z) /\
    forall i name,
      nth_error new i = Some name ->
      exists a b c' d,
        name = @documented_name Toy.backend "out"
                                (first_epoch 2 (Some 3%Z) + Z.of_nat i + 1) a b c' d.
Proof.
  apply (@fit_checkpoint_numbers Toy.backend Toy.train Toy.valid (1 # 100)
           Toy.loss_fn Toy.plain_step 2%Z (Some 3%Z) "out" false Toy.w0
           Toy.errors (fun g p => (p - g)%Z)).
  - intros t p X. split; [apply length_map |].
    apply Forall_forall. intros row Hrow. apply in_map_iff in Hrow.
    destruct Hrow as (x & <- & _). discriminate.
  - intros X y [[= <- <-] | [[= <- <-] | []]]; reflexivity.
  - discriminate.
  - discriminate.
  - reflexivity.
  - reflexivity.
  - reflexivity.
Defined.
